(** * Vinyl Remaining: the calculation-and-persistence engine

    A shallow embedding of [src/components/VinylRemainingApp.tsx] (unit
    conversion, the roll-length formula and its validity check, thickness
    presets, the saved-roll history, CSV export) and of the functions its
    other copy, [src/unnamed/part_002], writes differently, with the
    properties of the specification stated and settled against them.

    JavaScript numbers are IEEE 754 binary64 values; they are modelled by
    Rocq's primitive floats, whose operations are the same correctly
    rounded binary64 operations.  The unit converter and the length formula
    are written over an interface of number operations, which binary64
    implements.  A string is the UTF-8 text of the JavaScript string; a
    handler is a function from the state of the component to its next
    state, the calls of [store.set] it causes recorded in the state. *)

From Stdlib Require Import ZArith List String Ascii Bool Lia.
From Stdlib Require Import Floats.
From Stdlib Require Uint63.
From Stdlib Require DecimalString.
From Stdlib Require Import Sorted.
Import ListNotations.

Set Warnings "-inexact-float".

(** * Part I: the program *)

(** ** Units *)

(** [type Unit = "in" | "mm"] *)
Inductive Unit : Type := In | Mm.

(** [a === b] on units. *)
Definition Unit_eqb (a b : Unit) : bool :=
  match a, b with
  | In, In | Mm, Mm => true
  | _, _ => false
  end.

(** The string a unit is in the source, in a template literal and in the
    exported CSV. *)
Definition Unit_to_string (u : Unit) : string :=
  match u with In => "in" | Mm => "mm" end.

(** ** Numbers *)

(** The operations the unit converter and the length formula use.
    [lit m k] is the decimal literal [m / 10^k] as the language reads it
    ([lit 254 1] is [25.4], [lit 4 0] is [4]); [ngt x y] is [x > y]. *)
Class Number (N : Type) : Type := {
  lit : Z -> nat -> N;
  Math_PI : N;
  nmul : N -> N -> N;
  nsub : N -> N -> N;
  ndiv : N -> N -> N;
  ngt : N -> N -> bool
}.

Declare Scope js_scope.
Delimit Scope js_scope with js.
Notation "x * y" := (nmul x y) : js_scope.
Notation "x - y" := (nsub x y) : js_scope.
Notation "x / y" := (ndiv x y) : js_scope.
Notation "x >? y" := (ngt x y) (at level 70, no associativity) : js_scope.

(** *** binary64: the numbers of the program *)

Module F64.

Open Scope float_scope.

(** An integer as a float; exact for [|z| < 2^53]. *)
Definition of_Z (z : Z) : float :=
  if (z <? 0)%Z then - of_uint63 (Uint63.of_Z (- z))
  else of_uint63 (Uint63.of_Z z).

(** [Math.pow(10, d)] for a small natural number [d], by repeated
    multiplication: the exact power of ten for [d <= 22]. *)
Fixpoint pow10 (d : nat) : float :=
  match d with
  | O => 1
  | S k => 10 * pow10 k
  end.

(** A decimal literal [m / 10^k]: the division of two exactly represented
    numbers is correctly rounded, which is how a literal is read. *)
Definition literal (m : Z) (k : nat) : float := of_Z m / pow10 k.

(** [Math.PI], the binary64 number nearest to pi. *)
Definition PI : float := 0x1.921fb54442d18p+1.

(** [x > y] *)
Definition gtb (x y : float) : bool := y <? x.

(** [!x]: a number is falsy when it is [+0], [-0] or [NaN]. *)
Definition falsy (x : float) : bool := is_zero x || is_nan x.

(** [Number.isFinite(x)] *)
Definition isFinite (x : float) : bool := is_finite x.

(** [Math.round(x)]: the integer closest to [x], a tie going towards
    +Infinity; [NaN], the infinities and the zeros are returned as they
    are, and a result of zero keeps the sign of [x].  The integer is
    computed exactly, from the mantissa and the exponent of [x]. *)
Definition Math_round (x : float) : float :=
  match Prim2SF x with
  | S754_finite s m e =>
      if (0 <=? e)%Z then x
      else
        let sm := if s then Z.neg m else Z.pos m in
        let n := ((2 * sm + 2 ^ (- e)) / 2 ^ (1 - e))%Z in
        if (n =? 0)%Z then (if s then -0 else 0) else of_Z n
  | _ => x
  end.

End F64.

#[export] Instance Number_float : Number float := {
  lit := F64.literal;
  Math_PI := F64.PI;
  nmul := PrimFloat.mul;
  nsub := PrimFloat.sub;
  ndiv := PrimFloat.div;
  ngt := F64.gtb
}.

(** ** Unit conversion and the length formula *)

Section Engine.

Context {N : Type} `{Number N}.
Open Scope js_scope.

(** [const IN_PER_MM = 1 / 25.4;] *)
Definition IN_PER_MM : N := lit 1 0 / lit 254 1.

(** [const MM_PER_IN = 25.4;] *)
Definition MM_PER_IN : N := lit 254 1.

(** [toInches = (v, unit) => (unit === "mm" ? v * IN_PER_MM : v)] *)
Definition toInches (v : N) (unit : Unit) : N :=
  if Unit_eqb unit Mm then v * IN_PER_MM else v.

(** [toMM = (v, unit) => (unit === "in" ? v * MM_PER_IN : v)] *)
Definition toMM (v : N) (unit : Unit) : N :=
  if Unit_eqb unit In then v * MM_PER_IN else v.

(** [type CalcResult = { valid: false; message } |
    { valid: true; lengthIn; lengthFt; lengthYd; lengthM }] *)
Inductive CalcResult : Type :=
| Invalid (message : string)
| Valid (lengthIn lengthFt lengthYd lengthM : N).

(** The body of the [calc] memo, as a function of its dependencies:
[[
const odIn = toInches(od, unit);
const idIn = toInches(id, unit);
const tIn = toInches(thickness, unit);
if (!(odIn > idIn) || !(tIn > 0)) {
  return { valid: false, message: "Check that OD > ID and thickness > 0" };
}
const lengthIn = (Math.PI * (odIn * odIn - idIn * idIn)) / (4 * tIn);
const lengthFt = lengthIn / 12;
const lengthYd = lengthIn / 36;
const lengthM = lengthIn * 0.0254;
return { valid: true, lengthIn, lengthFt, lengthYd, lengthM };
]] *)
Definition calc (od id thickness : N) (unit : Unit) : CalcResult :=
  let odIn := toInches od unit in
  let idIn := toInches id unit in
  let tIn := toInches thickness unit in
  if negb (odIn >? idIn) || negb (tIn >? lit 0 0) then
    Invalid "Check that OD > ID and thickness > 0"
  else
    let lengthIn := (Math_PI * (odIn * odIn - idIn * idIn)) / (lit 4 0 * tIn) in
    let lengthFt := lengthIn / lit 12 0 in
    let lengthYd := lengthIn / lit 36 0 in
    let lengthM := lengthIn * lit 254 4 in
    Valid lengthIn lengthFt lengthYd lengthM.

End Engine.

Arguments CalcResult N : clear implicits.
Arguments Invalid {N} message.
Arguments Valid {N} lengthIn lengthFt lengthYd lengthM.

(** ** Helpers on binary64 numbers, strings and lists *)

Open Scope float_scope.

(** [[
const round = (v: number, d = 3) => {
  const p = Math.pow(10, d);
  return Math.round((Number.isFinite(v) ? v : 0) * p) / p;
};
]]
    [d] is a small natural number at every call, for which [Math.pow(10, d)]
    is the exact power of ten. *)
Definition round (v : float) (d : nat) : float :=
  let p := F64.pow10 d in
  F64.Math_round ((if F64.isFinite v then v else 0) * p) / p.

(** [s.replaceAll(q, qq)] where [q] is the double-quote character and [qq]
    two of them: every double quote is doubled. *)
Definition dquote : ascii := "034"%char.

Fixpoint replaceAll_dquote (s : string) : string :=
  match s with
  | EmptyString => EmptyString
  | String c rest =>
      if Ascii.eqb c dquote
      then String dquote (String dquote (replaceAll_dquote rest))
      else String c (replaceAll_dquote rest)
  end.

(** [s.trim()]: the white space and the line terminators of the language
    are removed at both ends of the text.  In UTF-8 they are the bytes 9 to
    13 and 32 (U+0009 to U+000D and U+0020), the two bytes of U+00A0, and
    the three bytes of U+1680, U+2000 to U+200A, U+2028, U+2029, U+202F,
    U+205F, U+3000 and U+FEFF. *)
Definition is_space (c : ascii) : bool :=
  let n := nat_of_ascii c in
  ((9 <=? n) && (n <=? 13))%nat || (n =? 32)%nat.

Definition byte_is (n : nat) (c : ascii) : bool := (nat_of_ascii c =? n)%nat.

Definition is_space2 (c1 c2 : ascii) : bool :=
  byte_is 194 c1 && byte_is 160 c2.

Definition is_space3 (c1 c2 c3 : ascii) : bool :=
  (byte_is 225 c1 && byte_is 154 c2 && byte_is 128 c3)
  || (byte_is 226 c1 && byte_is 128 c2
      && (((128 <=? nat_of_ascii c3) && (nat_of_ascii c3 <=? 138))%nat
          || byte_is 168 c3 || byte_is 169 c3 || byte_is 175 c3))
  || (byte_is 226 c1 && byte_is 129 c2 && byte_is 159 c3)
  || (byte_is 227 c1 && byte_is 128 c2 && byte_is 128 c3)
  || (byte_is 239 c1 && byte_is 187 c2 && byte_is 191 c3).

Fixpoint trim_start (s : string) : string :=
  match s with
  | EmptyString => EmptyString
  | String c1 r1 =>
      if is_space c1 then trim_start r1
      else
        match r1 with
        | EmptyString => s
        | String c2 r2 =>
            if is_space2 c1 c2 then trim_start r2
            else
              match r2 with
              | EmptyString => s
              | String c3 r3 =>
                  if is_space3 c1 c2 c3 then trim_start r3 else s
              end
        end
  end.

(** The text is white space from here to its end. *)
Definition is_blank (s : string) : bool :=
  match trim_start s with EmptyString => true | _ => false end.

Fixpoint trim_end (s : string) : string :=
  match s with
  | EmptyString => EmptyString
  | String c rest => if is_blank s then EmptyString else String c (trim_end rest)
  end.

Definition trim (s : string) : string := trim_end (trim_start s).

(** [a || b] on strings: the empty string is falsy. *)
Definition str_or (a b : string) : string :=
  match a with EmptyString => b | _ => a end.

(** The decimal digits of a natural number, as in a template literal. *)
Definition nat_to_string (n : nat) : string :=
  DecimalString.NilZero.string_of_uint (Nat.to_uint n).

(** [l.filter((x, i) => f(x, i))], the index counted from [i]. *)
Fixpoint filter_from {A : Type} (f : A -> nat -> bool) (i : nat) (l : list A)
  : list A :=
  match l with
  | [] => []
  | x :: rest =>
      if f x i then x :: filter_from f (S i) rest
      else filter_from f (S i) rest
  end.

Definition filter_index {A : Type} (f : A -> nat -> bool) (l : list A)
  : list A :=
  filter_from f 0 l.

(** [l.findIndex(f)], the index counted from [i]; [-1] when there is none. *)
Fixpoint findIndex_from {A : Type} (f : A -> bool) (i : nat) (l : list A) : Z :=
  match l with
  | [] => (-1)%Z
  | x :: rest => if f x then Z.of_nat i else findIndex_from f (S i) rest
  end.

Definition findIndex {A : Type} (f : A -> bool) (l : list A) : Z :=
  findIndex_from f 0 l.

(** ** Data model *)

(** [type ThicknessPreset = { name: string; thicknessIn: number }] *)
Module ThicknessPreset.
Record t : Type := mk { name : string; thicknessIn : float }.
End ThicknessPreset.

(** [type SavedRoll]; [savedAt] is [Date.now()], an integer count of
    milliseconds. *)
Module SavedRoll.
Record t : Type := mk {
  name : string;
  unit : Unit;
  od : float;
  id : float;
  thickness : float;
  savedAt : Z;
  lengthIn : float;
  lengthFt : float;
  lengthM : float;
  lengthYd : float
}.
End SavedRoll.

(** [[
const DEFAULT_PRESETS: ThicknessPreset[] = [
  { name: "Calendared 3 mil", thicknessIn: 0.003 },
  { name: "Cast 2 mil", thicknessIn: 0.002 },
  { name: "Laminate 1.5 mil", thicknessIn: 0.0015 },
  { name: "100 μm film", thicknessIn: 0.1 * IN_PER_MM },
];
]] *)
Definition DEFAULT_PRESETS : list ThicknessPreset.t :=
  [ ThicknessPreset.mk "Calendared 3 mil" 0.003;
    ThicknessPreset.mk "Cast 2 mil" 0.002;
    ThicknessPreset.mk "Laminate 1.5 mil" 0.0015;
    ThicknessPreset.mk "100 μm film" (0.1 * IN_PER_MM) ].

(** ** The application state and local storage *)

(** What [store.set(key, value)] writes under the keys of the two
    collections and of the working thickness. *)
Inductive Stored : Type :=
| StoredNumber (x : float)
| StoredPresets (l : list ThicknessPreset.t)
| StoredRolls (l : list SavedRoll.t).

(** The state variables of the component the engine reads and writes, and
    the calls of [store.set] made so far, the most recent first.  A write
    that fails is swallowed by [store.set]; the state is what counts. *)
Module App.
Record t : Type := mk {
  unit : Unit;
  od : float;
  id : float;
  thickness : float;
  showPresetModal : bool;
  presets : list ThicknessPreset.t;
  savedRolls : list SavedRoll.t;
  stored : list (string * Stored)
}.
End App.

Definition store_set (key : string) (v : Stored) (a : App.t) : App.t :=
  App.mk (App.unit a) (App.od a) (App.id a) (App.thickness a)
         (App.showPresetModal a) (App.presets a) (App.savedRolls a)
         ((key, v) :: App.stored a).

(** A state setter followed by the effect that persists the variable:
    [useEffect(() => store.set(key, x), [x])] runs when [x] is a new value.
    An array built by the handler is always a new value; a number is new
    unless it is the same value as before. *)
Definition setSavedRolls (f : list SavedRoll.t -> list SavedRoll.t) (a : App.t)
  : App.t :=
  let next := f (App.savedRolls a) in
  store_set "vinylCalc.savedRolls" (StoredRolls next)
    (App.mk (App.unit a) (App.od a) (App.id a) (App.thickness a)
            (App.showPresetModal a) (App.presets a) next (App.stored a)).

Definition setPresets (f : list ThicknessPreset.t -> list ThicknessPreset.t)
  (a : App.t) : App.t :=
  let next := f (App.presets a) in
  store_set "vinylCalc.presets" (StoredPresets next)
    (App.mk (App.unit a) (App.od a) (App.id a) (App.thickness a)
            (App.showPresetModal a) next (App.savedRolls a) (App.stored a)).

Definition setThickness (v : float) (a : App.t) : App.t :=
  if PrimFloat.Leibniz.eqb v (App.thickness a) then a
  else
    store_set "vinylCalc.thickness" (StoredNumber v)
      (App.mk (App.unit a) (App.od a) (App.id a) v
              (App.showPresetModal a) (App.presets a) (App.savedRolls a)
              (App.stored a)).

Definition setShowPresetModal (b : bool) (a : App.t) : App.t :=
  App.mk (App.unit a) (App.od a) (App.id a) (App.thickness a)
         b (App.presets a) (App.savedRolls a) (App.stored a).

(** The [calc] memo of a state. *)
Definition App_calc (a : App.t) : CalcResult float :=
  calc (App.od a) (App.id a) (App.thickness a) (App.unit a).

(** ** Presets *)

(** [[
const applyPreset = (p: ThicknessPreset) => {
  const t = p.thicknessIn;
  setThickness(round(unit === "mm" ? t * MM_PER_IN : t, unit === "mm" ? 3 : 5));
  setShowPresetModal(false);
};
]] *)
Definition applyPreset (p : ThicknessPreset.t) (a : App.t) : App.t :=
  let t := ThicknessPreset.thicknessIn p in
  let unit := App.unit a in
  setShowPresetModal false
    (setThickness
       (round (if Unit_eqb unit Mm then t * MM_PER_IN else t)
              (if Unit_eqb unit Mm then 3 else 5))
       a).

Section Presets.

(** [fmt(v, d)] formats with [Intl.NumberFormat] in the locale of the
    browser; it is a parameter here. *)
Variable fmt : float -> nat -> string.

(** [[
const addPreset = (name: string, tValue: number) => {
const tIn = toInches(Number(tValue), unit);
if (!tIn || tIn <= 0) return;
setPresets((prev) => [
  { name: name || `${fmt(unit === "mm" ? tIn * 25.4 : tIn, 3)} ${unit}`, thicknessIn: tIn },
  ...prev,
]);
};
]] *)
Definition addPreset (name : string) (tValue : float) (a : App.t) : App.t :=
  let unit := App.unit a in
  let tIn := toInches tValue unit in
  if F64.falsy tIn || (tIn <=? 0) then a
  else
    setPresets
      (fun prev =>
         ThicknessPreset.mk
           (str_or name
              (fmt (if Unit_eqb unit Mm then tIn * 25.4 else tIn) 3
                 ++ " " ++ Unit_to_string unit)%string)
           tIn
         :: prev)
      a.

End Presets.

(** [removePreset = (idx) => setPresets((prev) => prev.filter((_, i) => i !== idx))];
    the index is taken as an integer. *)
Definition removePreset (idx : Z) (a : App.t) : App.t :=
  setPresets (filter_index (fun _ i => negb (Z.of_nat i =? idx)%Z)) a.

(** ** History *)

(** [[
const saveRoll = (name?: string) => {
  if (!calc.valid) return;
  const { lengthIn, lengthFt, lengthM, lengthYd } = calc;
  const entry: SavedRoll = {
    name: name?.trim() || `Roll ${savedRolls.length + 1}`,
    unit, od: round(od, 3), id: round(id, 3), thickness: round(thickness, 5),
    savedAt: Date.now(),
    lengthIn: round(lengthIn, 2), lengthFt: round(lengthFt, 2),
    lengthM: round(lengthM, 2), lengthYd: round(lengthYd, 2),
  };
  setSavedRolls((prev) => [entry, ...prev]);
};
]]
    [now] is the value of [Date.now()] at the call. *)
Definition saveRoll (name : option string) (now : Z) (a : App.t) : App.t :=
  match App_calc a with
  | Invalid _ => a
  | Valid lengthIn lengthFt lengthYd lengthM =>
      let entry :=
        SavedRoll.mk
          (str_or (match name with Some s => trim s | None => "" end)
                  ("Roll " ++ nat_to_string (List.length (App.savedRolls a) + 1))%string)
          (App.unit a)
          (round (App.od a) 3)
          (round (App.id a) 3)
          (round (App.thickness a) 5)
          now
          (round lengthIn 2)
          (round lengthFt 2)
          (round lengthM 2)
          (round lengthYd 2) in
      setSavedRolls (fun prev => entry :: prev) a
  end.

(** The Delete button of the row of [r]:
    [setSavedRolls((prev) => prev.filter((sr) => sr.savedAt !== r.savedAt))]. *)
Definition deleteRoll (r : SavedRoll.t) (a : App.t) : App.t :=
  setSavedRolls
    (filter (fun sr => negb (SavedRoll.savedAt sr =? SavedRoll.savedAt r)%Z))
    a.

(** The Clear all button: [setSavedRolls([])]. *)
Definition clearRolls (a : App.t) : App.t := setSavedRolls (fun _ => []) a.

(** The other copy of the component, [src/unnamed/part_002]: the functions
    that are written differently there. *)
Module Part002.

Section Calc.
Context {N : Type} `{Number N}.
Open Scope js_scope.

(** [[
const valid = odIn > idIn && tIn > 0;
if (!valid) return { valid, message: "Check that OD > ID and thickness > 0" };
]] *)
Definition calc (od id thickness : N) (unit : Unit) : CalcResult N :=
  let odIn := toInches od unit in
  let idIn := toInches id unit in
  let tIn := toInches thickness unit in
  let valid := (odIn >? idIn) && (tIn >? lit 0 0) in
  if negb valid then
    Invalid "Check that OD > ID and thickness > 0"
  else
    let lengthIn := (Math_PI * (odIn * odIn - idIn * idIn)) / (lit 4 0 * tIn) in
    let lengthFt := lengthIn / lit 12 0 in
    let lengthYd := lengthIn / lit 36 0 in
    let lengthM := lengthIn * lit 254 4 in
    Valid lengthIn lengthFt lengthYd lengthM.
End Calc.

(** As [saveRoll] above, but [name: name || `Roll ${...}`], untrimmed. *)
Definition saveRoll (name : option string) (now : Z) (a : App.t) : App.t :=
  match calc (App.od a) (App.id a) (App.thickness a) (App.unit a) with
  | Invalid _ => a
  | Valid lengthIn lengthFt lengthYd lengthM =>
      let entry :=
        SavedRoll.mk
          (str_or (match name with Some s => s | None => "" end)
                  ("Roll " ++ nat_to_string (List.length (App.savedRolls a) + 1))%string)
          (App.unit a)
          (round (App.od a) 3)
          (round (App.id a) 3)
          (round (App.thickness a) 5)
          now
          (round lengthIn 2)
          (round lengthFt 2)
          (round lengthM 2)
          (round lengthYd 2) in
      setSavedRolls (fun prev => entry :: prev) a
  end.

(** [[
const idx = savedRolls.findIndex((sr) => sr.savedAt === r.savedAt);
if (idx >= 0) setSavedRolls(savedRolls.filter((_, i2) => i2 !== idx));
]] *)
Definition deleteRoll (r : SavedRoll.t) (a : App.t) : App.t :=
  let savedRolls := App.savedRolls a in
  let idx :=
    findIndex (fun sr => (SavedRoll.savedAt sr =? SavedRoll.savedAt r)%Z)
              savedRolls in
  if (0 <=? idx)%Z then
    setSavedRolls
      (fun _ => filter_index (fun _ i2 => negb (Z.of_nat i2 =? idx)%Z) savedRolls)
      a
  else a.

End Part002.

(** ** CSV export *)

Section Csv.

(** [new Date(ms).toISOString()], which throws a [RangeError] ([None])
    outside the range of dates, and [String(x)] of a number. *)
Variable toISOString : Z -> option string.
Variable Number_toString : float -> string.

Inductive Cell : Type :=
| CellString (s : string)
| CellNumber (x : float).

(** [String(cell)] *)
Definition Cell_to_string (c : Cell) : string :=
  match c with
  | CellString s => s
  | CellNumber x => Number_toString x
  end.

Definition header : list Cell :=
  map CellString
    ["Saved At"; "Name"; "Unit"; "OD"; "ID"; "Thickness";
     "Length_in"; "Length_ft"; "Length_m"; "Length_yd"]%string.

(** The array built for a row by the callback of [rows.map]. *)
Definition row_cells (r : SavedRoll.t) : option (list Cell) :=
  match toISOString (SavedRoll.savedAt r) with
  | None => None
  | Some iso =>
      Some [ CellString iso;
             CellString (str_or (SavedRoll.name r) "");
             CellString (Unit_to_string (SavedRoll.unit r));
             CellNumber (SavedRoll.od r);
             CellNumber (SavedRoll.id r);
             CellNumber (SavedRoll.thickness r);
             CellNumber (SavedRoll.lengthIn r);
             CellNumber (SavedRoll.lengthFt r);
             CellNumber (SavedRoll.lengthM r);
             CellNumber (SavedRoll.lengthYd r) ]
  end.

(** [rows.map(f)] for a callback that can throw: the first exception ends
    the call. *)
Fixpoint map_rows (rows : list SavedRoll.t) : option (list (list Cell)) :=
  match rows with
  | [] => Some []
  | r :: rest =>
      match row_cells r with
      | None => None
      | Some cells =>
          match map_rows rest with
          | None => None
          | Some data => Some (cells :: data)
          end
      end
  end.

(** The template literal of a cell: the text between two double quotes,
    its own double quotes doubled. *)
Definition quote_cell (c : Cell) : string :=
  String dquote (replaceAll_dquote (Cell_to_string c) ++ String dquote "")%string.

(** [[
const csv = [header, ...data]
.map((row) => row.map((cell) => ...).join(","))
.join("\n");
]] *)
Definition newline : string := String "010"%char "".

Definition toCSV (rows : list SavedRoll.t) : option string :=
  match map_rows rows with
  | None => None
  | Some data =>
      Some (String.concat newline
              (map (fun row => String.concat "," (map quote_cell row))
                   (header :: data)))
  end.

End Csv.


(** ** Class names *)

(** [[
function cx(...classes: Array<string | false | null | undefined>) {
  return classes.filter(Boolean).join(" ");
}
]]
    An entry is a string, or one of [false], [null] and [undefined]
    ([None]); the empty string is falsy too. *)
Definition Boolean_class (c : option string) : bool :=
  match c with
  | Some (String _ _) => true
  | _ => false
  end.

Definition class_text (c : option string) : string :=
  match c with Some s => s | None => "" end.

Definition cx (classes : list (option string)) : string :=
  String.concat " " (map class_text (filter Boolean_class classes)).

(** ** Local storage: [store.get] and [store.set] *)

Module store.

(** The host of the component: whether there is a [window] (there is none
    when the page is rendered on the server), whether reaching
    [window.localStorage] throws (storage denied), what [getItem] finds
    under a key, and whether [setItem] of a key and a text goes through
    (it throws when the quota is exceeded). *)
Record Host : Type := mkHost {
  has_window : bool;
  denied : bool;
  items : string -> option string;
  setItem_ok : string -> string -> bool
}.

Section Codec.

(** [JSON.stringify] and [JSON.parse] at the type of the stored value;
    [parse] is [None] when [JSON.parse] throws. *)
Context {T : Type}.
Variable stringify : T -> string.
Variable parse : string -> option T.

(** [[
get<T>(key: string, fallback: T): T {
  if (typeof window === "undefined") return fallback;
  try {
    const raw = window.localStorage.getItem(key);
    return raw ? (JSON.parse(raw) as T) : fallback;
  } catch {
    return fallback;
  }
}
]] *)
Definition get (key : string) (fallback : T) (h : Host) : T :=
  if negb (has_window h) then fallback
  else if denied h then fallback
  else
    match items h key with
    | None => fallback
    | Some EmptyString => fallback
    | Some raw =>
        match parse raw with
        | Some v => v
        | None => fallback
        end
    end.

(** [[
set<T>(key: string, value: T) {
  if (typeof window === "undefined") return;
  try {
    window.localStorage.setItem(key, JSON.stringify(value));
  } catch {
    // ignore write failures (private mode, etc.)
  }
}
]] *)
Definition set (key : string) (value : T) (h : Host) : Host :=
  if negb (has_window h) then h
  else if denied h then h
  else
    let raw := stringify value in
    if setItem_ok h key raw then
      mkHost (has_window h) (denied h)
             (fun k => if String.eqb k key then Some raw else items h k)
             (setItem_ok h)
    else h.

End Codec.

End store.

(** ** Search *)

(** [s.toLowerCase()] on ASCII text: the letters A to Z are mapped, every
    other byte is kept.  The case tables of Unicode are not part of the
    model, so on a text with other cased letters [toLowerCase] is not the
    function of the language; what is stated of letter case below is stated
    of ASCII texts. *)
Definition lower_char (c : ascii) : ascii :=
  let n := nat_of_ascii c in
  if ((65 <=? n) && (n <=? 90))%nat then ascii_of_nat (n + 32) else c.

Fixpoint toLowerCase (s : string) : string :=
  match s with
  | EmptyString => EmptyString
  | String c rest => String (lower_char c) (toLowerCase rest)
  end.

(** [s.includes(q)]: [q] occurs in [s], at its start or further on. *)
Fixpoint includes (s q : string) : bool :=
  String.prefix q s
  || match s with
     | EmptyString => false
     | String _ rest => includes rest q
     end.

Section Search.

(** [String(x)] of a number. *)
Variable Number_toString : float -> string.

(** The [filtered] memo, as a function of its dependencies:
[[
const q = search.trim().toLowerCase();
if (!q) return savedRolls;
return savedRolls.filter((r) =>
  (r.name || "").toLowerCase().includes(q) || String(r.od).includes(q) || String(r.id).includes(q)
);
]] *)
Definition filtered (search : string) (savedRolls : list SavedRoll.t)
  : list SavedRoll.t :=
  let q := toLowerCase (trim search) in
  match q with
  | EmptyString => savedRolls
  | _ =>
      filter
        (fun r =>
           includes (toLowerCase (str_or (SavedRoll.name r) "")) q
           || includes (Number_toString (SavedRoll.od r)) q
           || includes (Number_toString (SavedRoll.id r)) q)
        savedRolls
  end.

End Search.

(** ** Switching the unit and loading a saved roll *)

(** The setters of the unit and of the two diameters.  Their effects write
    under the keys [vinylCalc.unit], [vinylCalc.od] and [vinylCalc.id],
    which the record of [store.set] calls does not cover. *)
Definition setUnit (u : Unit) (a : App.t) : App.t :=
  App.mk u (App.od a) (App.id a) (App.thickness a)
         (App.showPresetModal a) (App.presets a) (App.savedRolls a)
         (App.stored a).

Definition setOd (v : float) (a : App.t) : App.t :=
  App.mk (App.unit a) v (App.id a) (App.thickness a)
         (App.showPresetModal a) (App.presets a) (App.savedRolls a)
         (App.stored a).

Definition setId (v : float) (a : App.t) : App.t :=
  App.mk (App.unit a) (App.od a) v (App.thickness a)
         (App.showPresetModal a) (App.presets a) (App.savedRolls a)
         (App.stored a).

(** A handler that sets a variable more than once has its updates batched:
    the last value set is the value of the next render, and the effect of
    the variable runs once, after that render.  [pending_thickness] is a
    call of the thickness setter inside such a handler, and
    [commit before after] the render that ends it: the thickness is written
    when it is a new value. *)
Definition pending_thickness (v : float) (a : App.t) : App.t :=
  App.mk (App.unit a) (App.od a) (App.id a) v
         (App.showPresetModal a) (App.presets a) (App.savedRolls a)
         (App.stored a).

Definition commit (before after : App.t) : App.t :=
  if PrimFloat.Leibniz.eqb (App.thickness after) (App.thickness before)
  then after
  else store_set "vinylCalc.thickness" (StoredNumber (App.thickness after)) after.

(** The setter calls of [toggleUnit], read from the state [a] of the
    render the handler was made in:
[[
const toggleUnit = (nextUnit: Unit) => {
  if (nextUnit === unit) return;
  if (nextUnit === "mm") {
    setOd(round(toMM(od, "in"), 3));
    setId(round(toMM(id, "in"), 3));
    setThickness(round(toMM(thickness, "in"), 4));
  } else {
    setOd(round(toInches(od, "mm"), 3));
    setId(round(toInches(id, "mm"), 3));
    setThickness(round(toInches(thickness, "mm"), 5));
  }
  setUnit(nextUnit);
};
]] *)
Definition toggleUnit_calls (nextUnit : Unit) (a : App.t) (draft : App.t)
  : App.t :=
  if Unit_eqb nextUnit (App.unit a) then draft
  else
    let od := App.od a in
    let id := App.id a in
    let thickness := App.thickness a in
    if Unit_eqb nextUnit Mm then
      setUnit nextUnit
        (pending_thickness (round (toMM thickness In) 4)
           (setId (round (toMM id In) 3)
              (setOd (round (toMM od In) 3) draft)))
    else
      setUnit nextUnit
        (pending_thickness (round (toInches thickness Mm) 5)
           (setId (round (toInches id Mm) 3)
              (setOd (round (toInches od Mm) 3) draft))).

(** A click on one of the two unit buttons. *)
Definition toggleUnit (nextUnit : Unit) (a : App.t) : App.t :=
  commit a (toggleUnit_calls nextUnit a a).

(** The Use button of the row of [r]:
[[
if (unit !== r.unit) toggleUnit(r.unit);
setOd(r.od);
setId(r.id);
setThickness(r.thickness);
]] *)
Definition useRoll (r : SavedRoll.t) (a : App.t) : App.t :=
  let draft :=
    if negb (Unit_eqb (App.unit a) (SavedRoll.unit r))
    then toggleUnit_calls (SavedRoll.unit r) a a
    else a in
  commit a
    (pending_thickness (SavedRoll.thickness r)
       (setId (SavedRoll.id r)
          (setOd (SavedRoll.od r) draft))).

(** ** The handlers as the steps of the component *)

(** What the user can do: type in one of the three number fields, click a
    unit button, open or close the preset list, apply, add or remove a
    preset, save, delete or use a roll, clear the history. *)
Inductive Action : Type :=
| TypeOd (v : float)
| TypeId (v : float)
| TypeThickness (v : float)
| ToggleUnit (nextUnit : Unit)
| ShowPresets (b : bool)
| ApplyPreset (p : ThicknessPreset.t)
| AddPreset (name : string) (tValue : float)
| RemovePreset (idx : Z)
| SaveRoll (name : option string) (now : Z)
| DeleteRoll (r : SavedRoll.t)
| UseRoll (r : SavedRoll.t)
| ClearRolls.

Section Steps.

Variable fmt : float -> nat -> string.

Definition step (act : Action) (a : App.t) : App.t :=
  match act with
  | TypeOd v => setOd v a
  | TypeId v => setId v a
  | TypeThickness v => setThickness v a
  | ToggleUnit nextUnit => toggleUnit nextUnit a
  | ShowPresets b => setShowPresetModal b a
  | ApplyPreset p => applyPreset p a
  | AddPreset name tValue => addPreset fmt name tValue a
  | RemovePreset idx => removePreset idx a
  | SaveRoll name now => saveRoll name now a
  | DeleteRoll r => deleteRoll r a
  | UseRoll r => useRoll r a
  | ClearRolls => clearRolls a
  end.

(** A session: the actions in the order they happen. *)
Definition run (acts : list Action) (a : App.t) : App.t :=
  fold_left (fun st act => step act st) acts a.

End Steps.

(** ** The first render *)

Section Initial.

(** [JSON.parse] at the types of the stored values; the diameter of the
    core is read as a number or [null]. *)
Variable parse_unit : string -> option Unit.
Variable parse_number : string -> option float.
Variable parse_number_or_null : string -> option (option float).
Variable parse_presets : string -> option (list ThicknessPreset.t).
Variable parse_rolls : string -> option (list SavedRoll.t).

(** The initial values of the state variables:
[[
const [unit, setUnit] = useState<Unit>(() => store.get<Unit>("vinylCalc.unit", "in"));
const [od, setOd] = useState<number>(() => store.get<number>("vinylCalc.od", 6));
const [id, setId] = useState<number>(() => {
  const saved = store.get<number | null>("vinylCalc.id", null);
  if (saved !== null && saved !== undefined) return saved;
  return unit === "mm" ? 85 : round(85 * IN_PER_MM, 3);
});
const [thickness, setThickness] = useState<number>(() =>
  store.get<number>("vinylCalc.thickness", unit === "mm" ? 0.076 : 0.003));
const [showPresetModal, setShowPresetModal] = useState(false);
const [presets, setPresets] = useState<ThicknessPreset[]>(() =>
  store.get<ThicknessPreset[]>("vinylCalc.presets", DEFAULT_PRESETS));
const [savedRolls, setSavedRolls] = useState<SavedRoll[]>(() =>
  store.get<SavedRoll[]>("vinylCalc.savedRolls", []));
]]
    with no call of [store.set] made yet. *)
Definition initial (h : store.Host) : App.t :=
  let unit := store.get parse_unit "vinylCalc.unit" In h in
  let od := store.get parse_number "vinylCalc.od" 6 h in
  let id :=
    match store.get parse_number_or_null "vinylCalc.id" None h with
    | Some saved => saved
    | None => if Unit_eqb unit Mm then 85 else round (85 * IN_PER_MM) 3
    end in
  let thickness :=
    store.get parse_number "vinylCalc.thickness"
              (if Unit_eqb unit Mm then 0.076 else 0.003) h in
  App.mk unit od id thickness false
         (store.get parse_presets "vinylCalc.presets" DEFAULT_PRESETS h)
         (store.get parse_rolls "vinylCalc.savedRolls" [] h)
         [].

End Initial.

(** * Part II: vocabulary of the statements *)

(** The one message of the Invalid variant. *)
Definition invalid_message : string := "Check that OD > ID and thickness > 0".

(** [x] is [v] to two decimals: within half a unit of the second decimal. *)
Definition approx (x v : float) : bool := abs (x - v) <=? 0.005.

(** [x] is above zero and is neither an infinity nor [NaN]. *)
Definition positive_finite (x : float) : bool := (0 <? x) && is_finite x.

(** The list without its element at position [n] (the list itself when it
    has none). *)
Definition drop_nth {A : Type} (n : nat) (l : list A) : list A :=
  firstn n l ++ skipn (S n) l.

(** The list without its first element that satisfies [p]. *)
Fixpoint remove_first {A : Type} (p : A -> bool) (l : list A) : list A :=
  match l with
  | [] => []
  | x :: rest => if p x then rest else x :: remove_first p rest
  end.

(** [sr.savedAt === r.savedAt] *)
Definition same_savedAt (r sr : SavedRoll.t) : bool :=
  (SavedRoll.savedAt sr =? SavedRoll.savedAt r)%Z.

(** The state of a first visit, before anything is stored: inches, the
    default diameters and thickness, the built-in presets, no history. *)
Definition app0 : App.t :=
  App.mk In 6 (round (85 * IN_PER_MM) 3) 0.003 false DEFAULT_PRESETS [] [].

(** The state [a] with the history [l]. *)
Definition with_rolls (l : list SavedRoll.t) (a : App.t) : App.t :=
  App.mk (App.unit a) (App.od a) (App.id a) (App.thickness a)
         (App.showPresetModal a) (App.presets a) l (App.stored a).

(** Two rolls saved in the same millisecond. *)
Definition roll_A : SavedRoll.t :=
  SavedRoll.mk "A" In 6 3 0.003 1000 7068.58 589.05 179.54 196.35.

Definition roll_B : SavedRoll.t :=
  SavedRoll.mk "B" In 5 3 0.003 1000 4188.79 349.07 106.4 116.36.

(** The second built-in preset. *)
Definition cast_2_mil : ThicknessPreset.t :=
  ThicknessPreset.mk "Cast 2 mil" 0.002.

(** A field between two double quotes. *)
Definition quoted (s : string) : string :=
  (String dquote s ++ String dquote "")%string.

(** The header row, written out. *)
Definition header_line : string :=
  (quoted "Saved At" ++ "," ++ quoted "Name" ++ "," ++ quoted "Unit" ++ ","
   ++ quoted "OD" ++ "," ++ quoted "ID" ++ "," ++ quoted "Thickness" ++ ","
   ++ quoted "Length_in" ++ "," ++ quoted "Length_ft" ++ ","
   ++ quoted "Length_m" ++ "," ++ quoted "Length_yd")%string.

(** The number of occurrences of a character in a string. *)
Fixpoint count_char (c : ascii) (s : string) : nat :=
  match s with
  | EmptyString => 0
  | String c' rest => (if Ascii.eqb c c' then 1 else 0) + count_char c rest
  end.

(** The JSON text of a unit and its reading back. *)
Definition Unit_stringify (u : Unit) : string := quoted (Unit_to_string u).

Definition Unit_parse (s : string) : option Unit :=
  if String.eqb s (quoted "in") then Some In
  else if String.eqb s (quoted "mm") then Some Mm
  else None.

(** A browser with an empty storage that takes every write. *)
Definition host0 : store.Host :=
  store.mkHost true false (fun _ => None) (fun _ _ => true).

(** The text of a sequence of bytes. *)
Definition utf8 (bytes : list nat) : string :=
  fold_right (fun n s => String (ascii_of_nat n) s) EmptyString bytes.

(** The white space of ECMAScript, one text for each code point: U+0009 to
    U+000D, U+0020, U+00A0, U+1680, U+2000 to U+200A, U+2028, U+2029,
    U+202F, U+205F, U+3000 and U+FEFF. *)
Definition white_space : list string :=
  map utf8
    [ [9]; [10]; [11]; [12]; [13]; [32]; [194; 160]; [225; 154; 128];
      [226; 128; 128]; [226; 128; 129]; [226; 128; 130]; [226; 128; 131];
      [226; 128; 132]; [226; 128; 133]; [226; 128; 134]; [226; 128; 135];
      [226; 128; 136]; [226; 128; 137]; [226; 128; 138];
      [226; 128; 168]; [226; 128; 169]; [226; 128; 175]; [226; 129; 159];
      [227; 128; 128]; [239; 187; 191] ]%nat.

(** A text of white space only: a sequence of white-space characters,
    possibly none. *)
Inductive blank : string -> Prop :=
| blank_nil : blank EmptyString
| blank_cons (w s : string) :
    List.In w white_space -> blank s -> blank (w ++ s)%string.

(** A text of ASCII characters: every byte is below 128. *)
Fixpoint ascii_text (s : string) : bool :=
  match s with
  | EmptyString => true
  | String c rest => (nat_of_ascii c <? 128)%nat && ascii_text rest
  end.

(** Vocabulary of the rounding of binary64 numbers. *)
Section Binary64Vocabulary.

Local Open Scope Z_scope.

(** What the shifter remembers of the bits it dropped, when it starts from an
    exact mantissa [m0]: after dividing by [P], the round bit says on which
    side of the half the remainder lies and the sticky bit whether it is
    exactly there. *)
Definition shr_inv (m0 P : Z) (r : shr_record) : Prop :=
  0 <= shr_m r /\ 0 <= m0 - shr_m r * P < P /\
  (shr_r r = false -> 2 * (m0 - shr_m r * P) < P) /\
  (shr_r r = true -> P <= 2 * (m0 - shr_m r * P)) /\
  (shr_s r = false -> 2 * (m0 - shr_m r * P) = (if shr_r r then P else 0)) /\
  (shr_s r = true -> 2 * (m0 - shr_m r * P) <> (if shr_r r then P else 0)).

Definition bra_result (s : bool) (m1 e1 : Z) : spec_float :=
  if m1 =? 0 then S754_zero s
  else if m1 =? 2 ^ 53 then
    (if e1 + 1 <=? 971 then S754_finite s (Z.to_pos (2 ^ 52)) (e1 + 1)
     else S754_infinity s)
  else if e1 <=? 971 then S754_finite s (Z.to_pos m1) e1 else S754_infinity s.


(** A positive normal binary64 number: full 53-bit mantissa, exponent in a
    window. *)
Definition normal_pos (lo hi : Z) (X : spec_float) : Prop :=
  exists (m : positive) (e : Z),
    X = S754_finite false m e /\ 2 ^ 52 <= Z.pos m < 2 ^ 53 /\ lo <= e <= hi.

(** A binary64 number that is not above zero: a zero, a negative number,
    -Infinity or NaN. *)
Definition not_positive (X : spec_float) : Prop :=
  match X with
  | S754_finite false _ _ | S754_infinity false => False
  | _ => True
  end.

End Binary64Vocabulary.

(** A reader of CSV text whose fields are all quoted: a field starts at a
    double quote and ends at the next double quote that is not doubled; a
    comma then starts the next field and a line feed the next row. *)
Inductive CsvMode : Type := AtField | InQuotes | AfterQuote.

Record CsvReader : Type := mkReader {
  csv_mode : CsvMode;
  csv_cur : string;
  csv_fields : list string;
  csv_rows : list (list string)
}.

Definition csv_step (c : ascii) (r : CsvReader) : option CsvReader :=
  match csv_mode r with
  | AtField =>
      if Ascii.eqb c dquote
      then Some (mkReader InQuotes "" (csv_fields r) (csv_rows r))
      else None
  | InQuotes =>
      if Ascii.eqb c dquote
      then Some (mkReader AfterQuote (csv_cur r) (csv_fields r) (csv_rows r))
      else Some (mkReader InQuotes (csv_cur r ++ String c "")
                          (csv_fields r) (csv_rows r))
  | AfterQuote =>
      if Ascii.eqb c dquote
      then Some (mkReader InQuotes (csv_cur r ++ String dquote "")
                          (csv_fields r) (csv_rows r))
      else if Ascii.eqb c ","%char
      then Some (mkReader AtField "" (csv_fields r ++ [csv_cur r]) (csv_rows r))
      else if Ascii.eqb c "010"%char
      then Some (mkReader AtField "" []
                          (csv_rows r ++ [csv_fields r ++ [csv_cur r]]))
      else None
  end.

Fixpoint csv_run (s : string) (r : CsvReader) : option CsvReader :=
  match s with
  | EmptyString => Some r
  | String c rest =>
      match csv_step c r with
      | Some r' => csv_run rest r'
      | None => None
      end
  end.

(** The rows of a CSV text, each the list of its fields; [None] when the
    text is not of that form. *)
Definition read_csv (s : string) : option (list (list string)) :=
  match csv_run s (mkReader AtField "" [] []) with
  | Some r =>
      match csv_mode r with
      | AfterQuote => Some (csv_rows r ++ [csv_fields r ++ [csv_cur r]])
      | _ => None
      end
  | None => None
  end.

(** The last value written under a key, if any. *)
Fixpoint last_write (key : string) (log : list (string * Stored))
  : option Stored :=
  match log with
  | [] => None
  | (k, v) :: rest => if String.eqb k key then Some v else last_write key rest
  end.

(** The last values written under the keys of the history, of the presets
    and of the thickness are the values in memory. *)
Definition in_sync (a : App.t) : Prop :=
  last_write "vinylCalc.savedRolls" (App.stored a)
  = Some (StoredRolls (App.savedRolls a))
  /\ last_write "vinylCalc.presets" (App.stored a)
     = Some (StoredPresets (App.presets a))
  /\ last_write "vinylCalc.thickness" (App.stored a)
     = Some (StoredNumber (App.thickness a)).

(** The effects of the first render, for the three keys, in the order the
    component declares them: every persisted variable is written once. *)
Definition mount (a : App.t) : App.t :=
  store_set "vinylCalc.savedRolls" (StoredRolls (App.savedRolls a))
    (store_set "vinylCalc.presets" (StoredPresets (App.presets a))
       (store_set "vinylCalc.thickness" (StoredNumber (App.thickness a)) a)).

(** Every preset has a thickness above zero. *)
Definition presets_positive (l : list ThicknessPreset.t) : Prop :=
  Forall (fun p => (0 <? ThicknessPreset.thicknessIn p) = true) l.

(** The history is most recent first. *)
Definition recent_first (l : list SavedRoll.t) : Prop :=
  StronglySorted
    (fun x y => (SavedRoll.savedAt y <= SavedRoll.savedAt x)%Z) l.

(** No roll of the history is later than [now]. *)
Definition not_after (now : Z) (l : list SavedRoll.t) : Prop :=
  Forall (fun sr => (SavedRoll.savedAt sr <= now)%Z) l.

(** Every save of the session happens at a time that is not before the
    rolls of the history at that moment. *)
Fixpoint timely (fmt : float -> nat -> string) (acts : list Action)
  (a : App.t) : Prop :=
  match acts with
  | [] => True
  | act :: rest =>
      match act with
      | SaveRoll _ now => not_after now (App.savedRolls a)
      | _ => True
      end
      /\ timely fmt rest (step fmt act a)
  end.

(** * Part III: properties *)

(** The literals of the source are read by [lit] as Rocq reads them. *)
Lemma literals_agree :
  (lit 254 1 = 25.4 /\ lit 254 4 = 0.0254 /\ lit 1 0 = 1 /\
   lit 0 0 = 0 /\ lit 4 0 = 4 /\ lit 12 0 = 12 /\ lit 36 0 = 36)
  /\ Math_PI = 3.141592653589793.
Proof. repeat split; reflexivity. Qed.

(** [Math.round] at the cases the language definition singles out: a tie
    goes up, also below zero; a result of zero keeps the sign; the largest
    number below one half goes to zero; large numbers and the special
    values are returned as they are. *)
Lemma Math_round_examples :
  F64.Math_round 2.5 = 3 /\ F64.Math_round (-2.5) = -2
  /\ F64.Math_round (-0.5) = -0 /\ F64.Math_round (-0.2) = -0
  /\ F64.Math_round 0.2 = 0 /\ F64.Math_round 0.49999999999999994 = 0
  /\ F64.Math_round 50.8 = 51 /\ F64.Math_round (-2.6) = -3
  /\ F64.Math_round 1e300 = 1e300 /\ F64.Math_round infinity = infinity
  /\ F64.Math_round nan = nan.
Proof. repeat split; vm_compute; reflexivity. Qed.

(** The self-checks the component runs when it mounts hold:
[[
console.assert(round(toInches(25.4, 'mm'), 3) === 1, ...);
console.assert(round(toMM(1, 'in'), 1) === 25.4, ...);
const odIn = 6, idIn = 3, tIn = 0.003;
const testLenIn = (Math.PI * (odIn * odIn - idIn * idIn)) / (4 * tIn);
console.assert(testLenIn > 0, ...);
]]
    The first needs its [round]: 25.4 mm is not exactly 1 in binary64
    inches. *)
Lemma dev_self_checks :
  round (toInches 25.4 Mm) 3 = 1
  /\ round (toMM 1 In) 1 = 25.4
  /\ F64.gtb (F64.PI * (6 * 6 - 3 * 3) / (4 * 0.003)) 0 = true
  /\ toInches 25.4 Mm = 0.99999999999999989.
Proof. repeat split; vm_compute; reflexivity. Qed.

(** ** Comparisons of binary64 numbers *)

Lemma SFcompare_refl_not_Lt (f : spec_float) : SFcompare f f <> Some Lt.
Proof.
  destruct f as [s | s | | s m e]; cbn [SFcompare];
    try discriminate; try (destruct s; discriminate).
  destruct s; rewrite Z.compare_refl, Pos.compare_cont_refl; discriminate.
Qed.

Lemma ltb_irrefl (x : float) : (x <? x) = false.
Proof.
  rewrite FloatAxioms.ltb_spec. unfold SFltb.
  pose proof (SFcompare_refl_not_Lt (Prim2SF x)) as Hc.
  destruct (SFcompare (Prim2SF x) (Prim2SF x)) as [[ | | ] | ]; congruence.
Qed.

Lemma gtb_irrefl (x : float) : F64.gtb x x = false.
Proof. apply ltb_irrefl. Qed.

(** ** The validity check *)

(** Unfolds [calc] on binary64 numbers down to its test. *)
Ltac calc_unfold :=
  unfold calc; cbv zeta; simpl ngt; change (F64.literal 0 0) with 0%float.

(** The two copies of [calc] compute the same function. *)
Lemma Part002_calc_eq {N : Type} `{Number N} (od id t : N) (u : Unit) :
  Part002.calc od id t u = calc od id t u.
Proof.
  unfold Part002.calc, calc. cbv zeta.
  rewrite negb_andb. reflexivity.
Qed.

Lemma calc_invalid_message (od id t : float) (u : Unit) (m : string) :
  calc od id t u = Invalid m -> m = invalid_message.
Proof.
  unfold calc. cbv zeta.
  destruct (negb _ || negb _); intros Heq; inversion Heq; reflexivity.
Qed.

(** C1. [calc] returns the Invalid variant, with the one fixed message,
    exactly when it is not the case that OD in inches is greater than ID in
    inches and the thickness in inches is greater than 0; in particular an
    OD equal to the ID is always Invalid. *)
Theorem calc_invalid_iff (od id t : float) (u : Unit) :
  (calc od id t u = Invalid invalid_message <->
   ~ (F64.gtb (toInches od u) (toInches id u) = true /\
      F64.gtb (toInches t u) 0 = true))
  /\ (forall m, calc od id t u = Invalid m -> m = invalid_message)
  /\ calc od od t u = Invalid invalid_message.
Proof.
  split; [ | split ].
  - calc_unfold.
    destruct (F64.gtb (toInches od u) (toInches id u));
      destruct (F64.gtb (toInches t u) 0); simpl; split;
      first [ intros _ [Ha Hb]; discriminate
            | intros Hn; exfalso; apply Hn; split; reflexivity
            | discriminate
            | reflexivity ].
  - apply calc_invalid_message.
  - calc_unfold. rewrite gtb_irrefl. reflexivity.
Qed.

(** ** The length formula *)

(** C2. When the validity condition holds, [calc] returns the Valid variant
    whose length in inches is pi times (OD squared minus ID squared)
    divided by (4 times the thickness), all three in inches, converted with
    1 inch = 25.4 mm and not rounded, and whose other fields are that
    length divided by 12, divided by 36 and multiplied by 0.0254. *)
Theorem calc_valid_formula (od id t : float) (u : Unit) :
  let inches v := match u with In => v | Mm => v * (1 / 25.4) end in
  F64.gtb (inches od) (inches id) = true ->
  F64.gtb (inches t) 0 = true ->
  let lengthInches :=
    F64.PI * (inches od * inches od - inches id * inches id) / (4 * inches t) in
  calc od id t u =
  Valid lengthInches (lengthInches / 12) (lengthInches / 36)
        (lengthInches * 0.0254).
Proof.
  intros inches Hod Ht lengthInches.
  assert (Hin : forall v, toInches v u = inches v).
  { intros v. destruct u; reflexivity. }
  calc_unfold. rewrite !Hin, Hod, Ht. reflexivity.
Qed.

Lemma calc_valid_formula_witness :
  F64.gtb 6 3 = true /\ F64.gtb 0.003 0 = true /\
  calc 6 3 0.003 In =
  Valid (F64.PI * (6 * 6 - 3 * 3) / (4 * 0.003))
        (F64.PI * (6 * 6 - 3 * 3) / (4 * 0.003) / 12)
        (F64.PI * (6 * 6 - 3 * 3) / (4 * 0.003) / 36)
        (F64.PI * (6 * 6 - 3 * 3) / (4 * 0.003) * 0.0254).
Proof.
  split; [ reflexivity | split; [ reflexivity | ] ].
  apply (calc_valid_formula 6 3 0.003 In); reflexivity.
Defined.

(** No rounding inside [calc]: the length of the example is not the value
    [round] gives at the precision of the history. *)
Lemma calc_not_rounded :
  exists a b c d, calc 6 3 0.003 In = Valid a b c d /\ round a 2 <> a.
Proof.
  do 4 eexists. split; [ vm_compute; reflexivity | ].
  vm_compute. discriminate.
Qed.

(** ** The worked example *)

(** The example of the specification does not hold: the four lengths of
    [calc(6, 3, 0.003, "in")] are not the quoted 21205.75 in, 1767.15 ft,
    538.59 m and 589.05 yd; pi * (36 - 9) / 0.012 is about 7068.58. *)
Lemma calc_example_as_stated_fails :
  exists lengthIn lengthFt lengthYd lengthM,
    calc 6 3 0.003 In = Valid lengthIn lengthFt lengthYd lengthM
    /\ approx lengthIn 21205.75 = false
    /\ approx lengthFt 1767.15 = false
    /\ approx lengthM 538.59 = false
    /\ approx lengthYd 589.05 = false
    /\ (lengthIn <? 7069) = true.
Proof.
  do 4 eexists. split; [ vm_compute; reflexivity | ].
  repeat split; vm_compute; reflexivity.
Qed.

(** C3 (amended). [calc(6, 3, 0.003, "in")] is Valid with a length of about
    7068.58 in, 589.05 ft, 179.54 m and 196.35 yd: each field is within
    0.005 of the value and is stored as that value by [round(..., 2)]. *)
Theorem calc_example :
  exists lengthIn lengthFt lengthYd lengthM,
    calc 6 3 0.003 In = Valid lengthIn lengthFt lengthYd lengthM
    /\ (approx lengthIn 7068.58 = true /\ round lengthIn 2 = 7068.58)
    /\ (approx lengthFt 589.05 = true /\ round lengthFt 2 = 589.05)
    /\ (approx lengthM 179.54 = true /\ round lengthM 2 = 179.54)
    /\ (approx lengthYd 196.35 = true /\ round lengthYd 2 = 196.35).
Proof.
  do 4 eexists. split; [ vm_compute; reflexivity | ].
  repeat split; vm_compute; reflexivity.
Qed.

(** ** Sign and size of the lengths *)

(** A negative OD with a more negative ID passes the check, and every
    length is then negative. *)
Lemma calc_negative_diameters :
  exists lengthIn lengthFt lengthYd lengthM,
    calc (-1) (-2) 1 In = Valid lengthIn lengthFt lengthYd lengthM
    /\ positive_finite lengthIn = false
    /\ positive_finite lengthFt = false
    /\ positive_finite lengthM = false
    /\ positive_finite lengthYd = false
    /\ (lengthIn <? 0) = true.
Proof.
  do 4 eexists. split; [ vm_compute; reflexivity | ].
  repeat split; vm_compute; reflexivity.
Qed.

(** In binary64 the squares can also overflow, or underflow to zero, for
    diameters of extreme magnitude. *)
Lemma calc_overflow :
  calc 1e200 0 1 In = Valid infinity infinity infinity infinity.
Proof. vm_compute. reflexivity. Qed.

Lemma calc_underflow : calc 1e-200 0 1 In = Valid 0 0 0 0.
Proof. vm_compute. reflexivity. Qed.

(** *** Rounding in binary64

    The operations of binary64 numbers are specified by [SFmul], [SFdiv] and
    [SFsub], which round through [binary_round_aux].  What follows bounds
    what that rounding can do to a positive number that is neither near the
    largest nor near the smallest binary64 number. *)

(** The sign of a rounded number is the sign given to the rounding. *)
Lemma binary_round_aux_sign (prec emax : Z) (s : bool) (m e : Z) (l : location) :
  let r := binary_round_aux prec emax s m e l in
  r = S754_zero s \/ (exists m' e', r = S754_finite s m' e')
  \/ r = S754_infinity s \/ r = S754_nan.
Proof.
  unfold binary_round_aux.
  destruct (shr_fexp prec emax m e l) as [mrs' e'].
  destruct (shr_fexp prec emax _ e' loc_Exact) as [mrs'' e''].
  destruct (shr_m mrs'') as [ | p | p ].
  - left. reflexivity.
  - destruct (e'' <=? emax - prec)%Z.
    + right. left. exists p, e''. reflexivity.
    + right. right. left. reflexivity.
  - right. right. right. reflexivity.
Qed.

Section Binary64.

Local Open Scope Z_scope.

Lemma digits2_pos_size (p : positive) : digits2_pos p = Pos.size p.
Proof. induction p; simpl; congruence. Qed.

Lemma digits_log2 (p : positive) : Z.pos (digits2_pos p) = Z.log2 (Z.pos p) + 1.
Proof.
  rewrite digits2_pos_size.
  change (Z.pos (Pos.size p)) with (Z.log2 (Z.pos p~0)).
  change (Z.pos p~0) with (2 * Z.pos p).
  rewrite Z.log2_double by lia. lia.
Qed.

Lemma digits_bounds (p : positive) :
  2 ^ (Z.pos (digits2_pos p) - 1) <= Z.pos p < 2 ^ Z.pos (digits2_pos p).
Proof.
  rewrite digits_log2.
  replace (Z.log2 (Z.pos p) + 1 - 1) with (Z.log2 (Z.pos p)) by lia.
  apply (Z.log2_spec (Z.pos p)). lia.
Qed.

Lemma digits_unique (p : positive) (k : Z) :
  2 ^ (k - 1) <= Z.pos p < 2 ^ k -> Z.pos (digits2_pos p) = k.
Proof.
  intros H. rewrite digits_log2.
  assert (Hk : 0 < k).
  { destruct (Z.ltb_spec 0 k) as [ Hlt | Hge ]; [ exact Hlt | ].
    exfalso. destruct H as [ _ H ].
    destruct (Z.eq_dec k 0) as [ -> | Hne ].
    - simpl in H. lia.
    - rewrite Z.pow_neg_r in H by lia. lia. }
  rewrite (Z.log2_unique (Z.pos p) (k - 1)); [ lia | lia | ].
  replace (Z.succ (k - 1)) with k by lia. exact H.
Qed.

(** One halving step of the rounding shifter. *)
Lemma shr_1_m (r : shr_record) :
  0 <= shr_m r -> shr_m (shr_1 r) = shr_m r / 2.
Proof.
  destruct r as [ m r s ]. simpl. intros Hm.
  destruct m as [ | p | p ]; [ reflexivity | | lia ].
  destruct p as [ p | p | ]; simpl.
  - rewrite Pos2Z.inj_xI. apply Z.div_unique with 1; lia.
  - rewrite Pos2Z.inj_xO. apply Z.div_unique with 0; lia.
  - reflexivity.
Qed.

Lemma iter_shr_m (k : positive) :
  forall r : shr_record, 0 <= shr_m r ->
  shr_m (iter_pos shr_1 k r) = shr_m r / 2 ^ Z.pos k.
Proof.
  assert (Hstep : forall r, 0 <= shr_m r -> 0 <= shr_m (shr_1 r)).
  { intros r Hr. rewrite shr_1_m by exact Hr. apply Z.div_pos; lia. }
  induction k as [ k IH | k IH | ]; intros r Hr; cbn [iter_pos].
  - assert (Hp : 0 < 2 ^ Z.pos k) by (apply Z.pow_pos_nonneg; lia).
    assert (H1 : 0 <= shr_m (shr_1 r)) by (apply Hstep; exact Hr).
    assert (H2 : 0 <= shr_m (iter_pos shr_1 k (shr_1 r))).
    { rewrite IH by exact H1. apply Z.div_pos; [ exact H1 | exact Hp ]. }
    rewrite IH by exact H2. rewrite IH by exact H1.
    rewrite shr_1_m by exact Hr.
    rewrite !Z.div_div by lia.
    f_equal.
    replace (Z.pos k~1) with (1 + Z.pos k + Z.pos k) by lia.
    rewrite !Z.pow_add_r by lia. change (2 ^ 1) with 2. ring.
  - assert (Hp : 0 < 2 ^ Z.pos k) by (apply Z.pow_pos_nonneg; lia).
    assert (H2 : 0 <= shr_m (iter_pos shr_1 k r)).
    { rewrite IH by exact Hr. apply Z.div_pos; [ exact Hr | exact Hp ]. }
    rewrite IH by exact H2. rewrite IH by exact Hr.
    rewrite !Z.div_div by lia.
    f_equal.
    replace (Z.pos k~0) with (Z.pos k + Z.pos k) by lia.
    rewrite Z.pow_add_r by lia. reflexivity.
  - rewrite shr_1_m by exact Hr. reflexivity.
Qed.


Lemma shr_inv_init (m0 : Z) :
  0 <= m0 -> shr_inv m0 1 (Build_shr_record m0 false false).
Proof.
  unfold shr_inv; cbn [shr_m shr_r shr_s]. intros H.
  repeat split; intros; try discriminate; lia.
Qed.

Lemma shr_1_spec (r : shr_record) :
  0 <= shr_m r ->
  exists b : bool,
    shr_m r = 2 * shr_m (shr_1 r) + (if b then 1 else 0)
    /\ 0 <= shr_m (shr_1 r)
    /\ shr_r (shr_1 r) = b
    /\ shr_s (shr_1 r) = shr_r r || shr_s r.
Proof.
  destruct r as [ m r s ]. cbn [shr_m shr_r shr_s]. intros Hm.
  destruct m as [ | p | p ]; [ | | lia ].
  - exists false. cbn. repeat split; lia.
  - destruct p as [ p | p | ].
    + exists true. cbn [shr_1 shr_m shr_r shr_s]. repeat split; lia.
    + exists false. cbn [shr_1 shr_m shr_r shr_s]. repeat split; lia.
    + exists true. cbn [shr_1 shr_m shr_r shr_s]. repeat split; lia.
Qed.

Lemma shr_inv_step (m0 P : Z) (r : shr_record) :
  0 < P -> shr_inv m0 P r -> shr_inv m0 (2 * P) (shr_1 r).
Proof.
  intros HP (Hm & Hrem & H1 & H2 & H3 & H4).
  destruct (shr_1_spec r Hm) as (b & Hb & Hm' & Hr' & Hs').
  unfold shr_inv. rewrite Hr', Hs'.
  set (q' := shr_m (shr_1 r)) in *. set (q := shr_m r) in *.
  assert (Hq : m0 - q' * (2 * P) = m0 - q * P + (if b then P else 0)).
  { rewrite Hb. destruct b; ring. }
  rewrite Hq.
  destruct (shr_r r), (shr_s r), b; cbn [orb];
    repeat split; intros; try discriminate;
    try (specialize (H1 eq_refl)); try (specialize (H2 eq_refl));
    try (specialize (H3 eq_refl)); try (specialize (H4 eq_refl)); lia.
Qed.

Lemma shr_inv_iter (m0 : Z) (k : positive) :
  forall (P : Z) (r : shr_record), 0 < P -> shr_inv m0 P r ->
  shr_inv m0 (P * 2 ^ Z.pos k) (iter_pos shr_1 k r).
Proof.
  induction k as [ k IH | k IH | ]; intros P r HP Hr; cbn [iter_pos].
  - assert (Hp : 0 < 2 ^ Z.pos k) by (apply Z.pow_pos_nonneg; lia).
    replace (P * 2 ^ Z.pos k~1) with (2 * P * 2 ^ Z.pos k * 2 ^ Z.pos k).
    + apply IH; [ nia | ]. apply IH; [ lia | ]. apply shr_inv_step; assumption.
    + replace (Z.pos k~1) with (1 + Z.pos k + Z.pos k) by lia.
      rewrite !Z.pow_add_r by lia. change (2 ^ 1) with 2. ring.
  - assert (Hp : 0 < 2 ^ Z.pos k) by (apply Z.pow_pos_nonneg; lia).
    replace (P * 2 ^ Z.pos k~0) with (P * 2 ^ Z.pos k * 2 ^ Z.pos k).
    + apply IH; [ nia | ]. apply IH; assumption.
    + replace (Z.pos k~0) with (Z.pos k + Z.pos k) by lia.
      rewrite !Z.pow_add_r by lia. ring.
  - change (2 ^ 1) with 2. rewrite Z.mul_comm. apply shr_inv_step; assumption.
Qed.

Lemma round_shr_inv (m0 P : Z) (r : shr_record) :
  shr_inv m0 P r ->
  let m1 := round_nearest_even (shr_m r) (loc_of_shr_record r) in
  (m1 = shr_m r /\ 2 * (m0 - shr_m r * P) <= P)
  \/ (m1 = shr_m r + 1 /\ P <= 2 * (m0 - shr_m r * P)).
Proof.
  destruct r as [ m r s ]. unfold shr_inv; simpl.
  intros (Hm & Hrem & H1 & H2 & H3 & H4).
  destruct r, s; simpl.
  - right. split; [ reflexivity | ]. apply H2; reflexivity.
  - specialize (H3 eq_refl). destruct (Z.even m).
    + left. split; [ reflexivity | lia ].
    + right. split; [ reflexivity | lia ].
  - left. split; [ reflexivity | ]. specialize (H1 eq_refl). lia.
  - left. split; [ reflexivity | ]. specialize (H1 eq_refl). lia.
Qed.

Lemma round_any (m : Z) (l : location) :
  round_nearest_even m l = m \/ round_nearest_even m l = m + 1.
Proof.
  destruct l as [ | [ | | ] ]; simpl; auto. destruct (Z.even m); auto.
Qed.

Lemma loc_of_record_of (m : Z) (l : location) :
  loc_of_shr_record (shr_record_of_loc m l) = l.
Proof. destruct l as [ | [ | | ] ]; reflexivity. Qed.

Lemma shr_m_record_of (m : Z) (l : location) : shr_m (shr_record_of_loc m l) = m.
Proof. destruct l as [ | [ | | ] ]; reflexivity. Qed.


Lemma fexp_eq (e : Z) : fexp prec emax e = Z.max (e - 53) (-1074).
Proof. reflexivity. Qed.

Lemma pow2_lt_inv (a b : Z) : 0 <= b -> 2 ^ a < 2 ^ b -> a < b.
Proof. intros Hb H. apply (Z.pow_lt_mono_r_iff 2); [ lia | exact Hb | exact H ]. Qed.

Lemma pow2_le_inv (a b : Z) : 0 <= b -> 2 ^ a <= 2 ^ b -> a <= b.
Proof. intros Hb H. apply (Z.pow_le_mono_r_iff 2); [ lia | exact Hb | exact H ]. Qed.

Lemma pow2_pos (a : Z) : 0 <= a -> 0 < 2 ^ a.
Proof. intros H. apply Z.pow_pos_nonneg; lia. Qed.

(** First phase of [binary_round_aux]: the mantissa is cut down to the
    exponent the format allows. *)
Lemma shr_fexp_first (p : positive) (e : Z) (l : location) :
  let e1 := Z.max e (fexp prec emax (Z.pos (digits2_pos p) + e)) in
  exists r1 : shr_record,
    shr_fexp prec emax (Z.pos p) e l = (r1, e1)
    /\ 0 <= shr_m r1 < 2 ^ 53
    /\ 0 <= Z.pos p - shr_m r1 * 2 ^ (e1 - e) < 2 ^ (e1 - e)
    /\ (e1 = e -> loc_of_shr_record r1 = l)
    /\ (l = loc_Exact -> shr_inv (Z.pos p) (2 ^ (e1 - e)) r1).
Proof.
  cbv zeta. unfold shr_fexp, shr. cbn [Zdigits2]. rewrite fexp_eq.
  pose proof (digits_bounds p) as Hd.
  set (d := Z.pos (digits2_pos p)) in *.
  assert (Hd0 : 0 < d) by (unfold d; lia).
  set (e1 := Z.max e (Z.max (d + e - 53) (-1074))).
  destruct (Z.max (d + e - 53) (-1074) - e) as [ | k | k ] eqn:Hn.
  - assert (He1 : e1 = e) by (unfold e1; lia).
    exists (shr_record_of_loc (Z.pos p) l). rewrite He1, Z.sub_diag.
    rewrite shr_m_record_of. change (2 ^ 0) with 1.
    assert (Hlt : d - 1 < 53) by lia.
    assert (Hp : Z.pos p < 2 ^ 53).
    { apply Z.lt_le_trans with (2 ^ d); [ apply Hd | ].
      apply Z.pow_le_mono_r; lia. }
    split; [ reflexivity | ]. split; [ lia | ]. split; [ lia | ]. split.
    + intros _. apply loc_of_record_of.
    + intros ->. apply shr_inv_init. lia.
  - assert (He1 : e1 = e + Z.pos k) by (unfold e1; lia).
    exists (iter_pos shr_1 k (shr_record_of_loc (Z.pos p) l)).
    rewrite He1. replace (e + Z.pos k - e) with (Z.pos k) by lia.
    assert (Hpk : 0 < 2 ^ Z.pos k) by (apply pow2_pos; lia).
    rewrite iter_shr_m by (rewrite shr_m_record_of; lia).
    rewrite shr_m_record_of.
    pose proof (Z.div_mod (Z.pos p) (2 ^ Z.pos k)) as Hdm.
    pose proof (Z.mod_pos_bound (Z.pos p) (2 ^ Z.pos k) Hpk) as Hmod.
    assert (Hq : 0 <= Z.pos p / 2 ^ Z.pos k) by (apply Z.div_pos; lia).
    assert (Hq53 : Z.pos p / 2 ^ Z.pos k < 2 ^ 53).
    { apply Z.div_lt_upper_bound; [ exact Hpk | ].
      apply Z.lt_le_trans with (2 ^ d); [ apply Hd | ].
      rewrite <- Z.pow_add_r by lia. apply Z.pow_le_mono_r; lia. }
    split; [ reflexivity | ]. split; [ lia | ]. split; [ lia | ]. split.
    + intros Hk. lia.
    + intros ->.
      replace (2 ^ Z.pos k) with (1 * 2 ^ Z.pos k) by ring.
      apply shr_inv_iter; [ lia | ]. apply shr_inv_init. lia.
  - assert (He1 : e1 = e) by (unfold e1; lia).
    exists (shr_record_of_loc (Z.pos p) l). rewrite He1, Z.sub_diag.
    rewrite shr_m_record_of. change (2 ^ 0) with 1.
    assert (Hlt : d - 1 < 53) by lia.
    assert (Hp : Z.pos p < 2 ^ 53).
    { apply Z.lt_le_trans with (2 ^ d); [ apply Hd | ].
      apply Z.pow_le_mono_r; lia. }
    split; [ reflexivity | ]. split; [ lia | ]. split; [ lia | ]. split.
    + intros _. apply loc_of_record_of.
    + intros ->. apply shr_inv_init. lia.
Qed.

(** Second phase: after rounding, a mantissa that reached 2^53 is halved. *)
Lemma shr_fexp_second (m1 e1 : Z) :
  0 <= m1 <= 2 ^ 53 -> -1074 <= e1 ->
  shr_fexp prec emax m1 e1 loc_Exact =
    if m1 =? 2 ^ 53
    then (Build_shr_record (2 ^ 52) false false, e1 + 1)
    else (Build_shr_record m1 false false, e1).
Proof.
  intros Hm He. unfold shr_fexp. rewrite fexp_eq.
  destruct (Z.eqb_spec m1 (2 ^ 53)) as [ -> | Hne ].
  - change (Zdigits2 (2 ^ 53)) with 54.
    replace (Z.max (54 + e1 - 53) (-1074) - e1) with 1 by lia.
    reflexivity.
  - destruct m1 as [ | p | p ]; [ | | lia ].
    + cbn [Zdigits2 shr_record_of_loc].
      unfold shr. destruct (Z.max (0 + e1 - 53) (-1074) - e1) eqn:Hn;
        try reflexivity. lia.
    + cbn [Zdigits2 shr_record_of_loc].
      pose proof (digits_bounds p) as Hd.
      assert (Hlt : Z.pos (digits2_pos p) - 1 < 53).
      { apply pow2_lt_inv; [ lia | ]. lia. }
      unfold shr.
      destruct (Z.max (Z.pos (digits2_pos p) + e1 - 53) (-1074) - e1) eqn:Hn;
        try reflexivity. lia.
Qed.

(** [binary_round_aux] on a positive mantissa: the result is the quotient of
    the mantissa by the power of two the format imposes, or that quotient
    plus one; when the input is exact the choice follows the remainder. *)
Lemma binary_round_aux_char (s : bool) (p : positive) (e : Z) (l : location) :
  let e1 := Z.max e (fexp prec emax (Z.pos (digits2_pos p) + e)) in
  exists q m1 : Z,
    0 <= q < 2 ^ 53
    /\ 0 <= Z.pos p - q * 2 ^ (e1 - e) < 2 ^ (e1 - e)
    /\ (m1 = q \/ m1 = q + 1)
    /\ (l = loc_Exact ->
        (m1 = q /\ 2 * (Z.pos p - q * 2 ^ (e1 - e)) <= 2 ^ (e1 - e))
        \/ (m1 = q + 1 /\ 2 ^ (e1 - e) <= 2 * (Z.pos p - q * 2 ^ (e1 - e))))
    /\ binary_round_aux prec emax s (Z.pos p) e l = bra_result s m1 e1.
Proof.
  intros e1.
  destruct (shr_fexp_first p e l) as (r1 & Hfirst & Hq & Hrem & Hloc & Hinv).
  fold e1 in Hfirst, Hrem, Hloc, Hinv.
  exists (shr_m r1), (round_nearest_even (shr_m r1) (loc_of_shr_record r1)).
  pose proof (round_any (shr_m r1) (loc_of_shr_record r1)) as Hany.
  set (m1 := round_nearest_even (shr_m r1) (loc_of_shr_record r1)) in *.
  assert (He1 : -1074 <= e1) by (unfold e1; rewrite fexp_eq; lia).
  repeat split; try lia.
  - intros Hl. apply (round_shr_inv (Z.pos p) _ r1). apply Hinv, Hl.
  - unfold binary_round_aux. rewrite Hfirst. fold m1.
    rewrite shr_fexp_second by lia.
    unfold bra_result.
    destruct (Z.eqb_spec m1 (2 ^ 53)) as [ E | Hne ].
    + rewrite E. cbn [shr_m]. reflexivity.
    + cbn [shr_m]. destruct m1 as [ | p1 | p1 ]; [ reflexivity | | lia ].
      reflexivity.
Qed.


Lemma normal_pos_weaken (lo hi lo' hi' : Z) (X : spec_float) :
  normal_pos lo hi X -> lo' <= lo -> hi <= hi' -> normal_pos lo' hi' X.
Proof.
  intros (m & e & HX & Hm & He) Hlo Hhi. exists m, e.
  split; [ exact HX | lia ].
Qed.

Lemma bra_result_normal (s : bool) (m1 e1 : Z) :
  2 ^ 52 <= m1 <= 2 ^ 53 ->
  (m1 = 2 ^ 53 -> e1 + 1 <= 971) -> (m1 < 2 ^ 53 -> e1 <= 971) ->
  exists (m : positive) (e : Z),
    bra_result s m1 e1 = S754_finite s m e
    /\ 2 ^ 52 <= Z.pos m < 2 ^ 53
    /\ ((m1 < 2 ^ 53 /\ Z.pos m = m1 /\ e = e1)
        \/ (m1 = 2 ^ 53 /\ Z.pos m = 2 ^ 52 /\ e = e1 + 1)).
Proof.
  intros Hm Hc Hn. unfold bra_result.
  destruct (Z.eqb_spec m1 0) as [ E | _ ]; [ lia | ].
  destruct (Z.eqb_spec m1 (2 ^ 53)) as [ E | Hne ].
  - destruct (Z.leb_spec (e1 + 1) 971) as [ _ | Hgt ]; [ | lia ].
    exists (Z.to_pos (2 ^ 52)), (e1 + 1).
    split; [ reflexivity | ]. split; [ rewrite Z2Pos.id; lia | ].
    right. split; [ exact E | ]. split; [ rewrite Z2Pos.id; lia | reflexivity ].
  - destruct (Z.leb_spec e1 971) as [ _ | Hgt ]; [ | lia ].
    exists (Z.to_pos m1), e1.
    split; [ reflexivity | ]. rewrite Z2Pos.id by lia.
    split; [ lia | ]. left. split; [ lia | ]. split; reflexivity.
Qed.

Lemma Prim2SF_finite_valid (x : float) (s : bool) (m : positive) (e : Z) :
  Prim2SF x = S754_finite s m e ->
  -1074 <= e <= 971 /\ Z.pos m < 2 ^ 53 /\ (-1074 < e -> 2 ^ 52 <= Z.pos m).
Proof.
  intros H. pose proof (Prim2SF_valid x) as Hv. rewrite H in Hv.
  unfold SpecFloat.valid_binary, bounded, canonical_mantissa in Hv.
  apply andb_true_iff in Hv. destruct Hv as [ Hc Hb ].
  apply Z.eqb_eq in Hc. apply Z.leb_le in Hb. rewrite fexp_eq in Hc.
  change (emax - prec) with 971 in Hb.
  pose proof (digits_bounds m) as Hd.
  set (d := Z.pos (digits2_pos m)) in *.
  assert (Hd53 : d <= 53) by lia.
  assert (Hlt : Z.pos m < 2 ^ 53).
  { apply Z.lt_le_trans with (2 ^ d); [ apply Hd | ].
    apply Z.pow_le_mono_r; lia. }
  repeat split; try lia.
  intros He. assert (E : d = 53) by lia. rewrite E in Hd. apply Hd.
Qed.

Lemma SFleb_lower (mc : positive) (ec : Z) (X : spec_float) :
  SFleb (S754_finite false mc ec) X = true ->
  X = S754_infinity false
  \/ exists (m : positive) (e : Z),
       X = S754_finite false m e /\ (ec < e \/ (ec = e /\ Z.pos mc <= Z.pos m)).
Proof.
  unfold SFleb. destruct X as [ s | s | | s m e ]; cbn [SFcompare].
  - discriminate.
  - destruct s; [ discriminate | auto ].
  - discriminate.
  - destruct s; [ discriminate | ]. intros H. right. exists m, e.
    split; [ reflexivity | ].
    destruct (Z.compare_spec ec e) as [ E | Hlt | Hgt ].
    + right. split; [ exact E | ].
      change (Pos.compare_cont Eq mc m) with (Pos.compare mc m) in H.
      destruct (Pos.compare_spec mc m); [ lia | lia | discriminate ].
    + left; exact Hlt.
    + discriminate.
Qed.

Lemma SFleb_upper (mc m : positive) (ec e : Z) :
  SFleb (S754_finite false m e) (S754_finite false mc ec) = true ->
  e < ec \/ (e = ec /\ Z.pos m <= Z.pos mc).
Proof.
  unfold SFleb. cbn [SFcompare]. intros H.
  destruct (Z.compare_spec e ec) as [ E | Hlt | Hgt ].
  - right. split; [ exact E | ].
    change (Pos.compare_cont Eq m mc) with (Pos.compare m mc) in H.
    destruct (Pos.compare_spec m mc); [ lia | lia | discriminate ].
  - left; exact Hlt.
  - discriminate.
Qed.

Lemma SFltb_finite (mi mo : positive) (ei eo : Z) :
  SFltb (S754_finite false mi ei) (S754_finite false mo eo) = true ->
  ei < eo \/ (ei = eo /\ Z.pos mi < Z.pos mo).
Proof.
  unfold SFltb. cbn [SFcompare]. intros H.
  destruct (Z.compare_spec ei eo) as [ E | Hlt | Hgt ].
  - right. split; [ exact E | ].
    change (Pos.compare_cont Eq mi mo) with (Pos.compare mi mo) in H.
    destruct (Pos.compare_spec mi mo); [ discriminate | lia | discriminate ].
  - left; exact Hlt.
  - discriminate.
Qed.

(** A binary64 number between two positive normal bounds is positive and
    normal, with its exponent between theirs. *)
Lemma normal_between (lo hi x : float) (ml mh : positive) (el eh : Z) :
  Prim2SF lo = S754_finite false ml el -> Prim2SF hi = S754_finite false mh eh ->
  -1074 < el ->
  (lo <=? x)%float = true -> (x <=? hi)%float = true ->
  normal_pos el eh (Prim2SF x).
Proof.
  intros Hlo Hhi Hel H1 H2.
  rewrite leb_spec, Hlo in H1. rewrite leb_spec, Hhi in H2.
  destruct (SFleb_lower _ _ _ H1) as [ E | (m & e & E & He) ].
  - rewrite E in H2. discriminate.
  - rewrite E in H2. apply SFleb_upper in H2.
    destruct (Prim2SF_finite_valid x false m e E) as (Hr & Hm & Hn).
    exists m, e. split; [ exact E | ]. split; [ | lia ].
    split; [ apply Hn; lia | exact Hm ].
Qed.

(** Multiplication of two positive normal numbers, away from overflow and
    underflow. *)
Lemma SFmul_char (mx my : positive) (ex ey : Z) :
  2 ^ 52 <= Z.pos mx < 2 ^ 53 -> 2 ^ 52 <= Z.pos my < 2 ^ 53 ->
  -1126 <= ex + ey ->
  exists k q m1 : Z,
    (k = 52 \/ k = 53)
    /\ 2 ^ 52 <= q < 2 ^ 53
    /\ 0 <= Z.pos mx * Z.pos my - q * 2 ^ k < 2 ^ k
    /\ ((m1 = q /\ 2 * (Z.pos mx * Z.pos my - q * 2 ^ k) <= 2 ^ k)
        \/ (m1 = q + 1 /\ 2 ^ k <= 2 * (Z.pos mx * Z.pos my - q * 2 ^ k)))
    /\ (k = 53 -> m1 < 2 ^ 53)
    /\ SFmul prec emax (S754_finite false mx ex) (S754_finite false my ey)
       = bra_result false m1 (ex + ey + k).
Proof.
  intros Hx Hy He. cbn [SFmul xorb].
  destruct (binary_round_aux_char false (mx * my) (ex + ey) loc_Exact)
    as (q & m1 & Hq & Hrem & Hm1 & Hdir & Hres).
  specialize (Hdir eq_refl). rewrite fexp_eq in *.
  pose proof (digits_bounds (mx * my)) as Hd.
  set (d := Z.pos (digits2_pos (mx * my))) in *.
  rewrite Pos2Z.inj_mul in *.
  assert (HP : 2 ^ 104 <= Z.pos mx * Z.pos my <= 2 ^ 106 - 2 ^ 54 + 1) by nia.
  set (P := Z.pos mx * Z.pos my) in *.
  assert (Hd1 : d - 1 < 106) by (apply pow2_lt_inv; lia).
  assert (Hd2 : 104 < d).
  { apply pow2_lt_inv; [ lia | ]. lia. }
  assert (Hk : Z.max (ex + ey) (Z.max (d + (ex + ey) - 53) (-1074)) - (ex + ey)
               = d - 53) by lia.
  rewrite Hk in *.
  assert (He1 : Z.max (ex + ey) (Z.max (d + (ex + ey) - 53) (-1074))
                = ex + ey + (d - 53)) by lia.
  rewrite He1 in Hres.
  exists (d - 53), q, m1.
  assert (Hcase : d = 105 \/ d = 106) by lia.
  destruct Hcase as [ E | E ]; rewrite E in *;
    [ change (105 - 53) with 52 in * | change (106 - 53) with 53 in * ];
    (split; [ lia | ]); (split; [ lia | ]); (split; [ lia | ]);
    (split; [ exact Hdir | ]); (split; [ lia | exact Hres ]).
Qed.

Lemma SFmul_normal (lo1 hi1 lo2 hi2 : Z) (X Y : spec_float) :
  normal_pos lo1 hi1 X -> normal_pos lo2 hi2 Y ->
  -1126 <= lo1 + lo2 -> hi1 + hi2 <= 918 ->
  normal_pos (lo1 + lo2 + 52) (hi1 + hi2 + 53) (SFmul prec emax X Y).
Proof.
  intros (mx & ex & -> & Hmx & Hex) (my & ey & -> & Hmy & Hey) Hlo Hhi.
  destruct (SFmul_char mx my ex ey Hmx Hmy) as
    (k & q & m1 & Hk & Hq & Hrem & Hdir & Hk53 & Hres); [ lia | ].
  rewrite Hres.
  destruct (bra_result_normal false m1 (ex + ey + k)) as
    (m & e & Hr & Hm & Hcase); try lia.
  exists m, e. split; [ exact Hr | ]. split; [ exact Hm | ]. lia.
Qed.

(** Division of two positive normal numbers, away from overflow and
    underflow. *)
Lemma SFdiv_normal (lo1 hi1 lo2 hi2 : Z) (X Y : spec_float) :
  normal_pos lo1 hi1 X -> normal_pos lo2 hi2 Y ->
  -1021 <= lo1 - hi2 -> hi1 - lo2 <= 1022 ->
  normal_pos (lo1 - hi2 - 53) (hi1 - lo2 - 51) (SFdiv prec emax X Y).
Proof.
  intros (mx & ex & -> & Hmx & Hex) (my & ey & -> & Hmy & Hey) Hlo Hhi.
  cbn [SFdiv xorb]. unfold SFdiv_core_binary. cbn [Zdigits2].
  rewrite (digits_unique mx 53) by (change (53 - 1) with 52; exact Hmx).
  rewrite (digits_unique my 53) by (change (53 - 1) with 52; exact Hmy).
  rewrite fexp_eq.
  replace (Z.min (Z.max (53 + ex - (53 + ey) - 53) (-1074)) (ex - ey))
    with (ex - ey - 53) by lia.
  replace (ex - ey - (ex - ey - 53)) with 53 by lia.
  rewrite Z.shiftl_mul_pow2 by lia.
  pose proof (Z_div_mod (Z.pos mx * 2 ^ 53) (Z.pos my) eq_refl) as Hdiv.
  destruct (Z.div_eucl (Z.pos mx * 2 ^ 53) (Z.pos my)) as [ q r ].
  destruct Hdiv as [ Hdiv Hr ].
  assert (Hq : 2 ^ 52 <= q < 2 ^ 54) by nia.
  destruct q as [ | pq | pq ]; [ lia | | lia ].
  destruct (binary_round_aux_char false pq (ex - ey - 53)
              (new_location (Z.pos my) r))
    as (q' & m1 & Hq' & Hrem & Hm1 & _ & Hres).
  rewrite Hres. rewrite fexp_eq in *.
  pose proof (digits_bounds pq) as Hd.
  set (d := Z.pos (digits2_pos pq)) in *.
  assert (Hd1 : d - 1 < 54) by (apply pow2_lt_inv; lia).
  assert (Hd2 : 52 < d) by (apply pow2_lt_inv; lia).
  set (e := ex - ey - 53) in *.
  assert (Hk : Z.max e (Z.max (d + e - 53) (-1074)) - e = d - 53) by lia.
  rewrite Hk in *.
  assert (He1 : Z.max e (Z.max (d + e - 53) (-1074)) = e + (d - 53)) by lia.
  rewrite He1.
  assert (Hcase : d = 53 \/ d = 54) by lia.
  assert (Hq'' : 2 ^ 52 <= q').
  { destruct Hcase as [ E | E ]; rewrite E in *;
      [ change (2 ^ (53 - 53)) with 1 in * | change (2 ^ (54 - 53)) with 2 in * ];
      lia. }
  destruct (bra_result_normal false m1 (e + (d - 53))) as
    (m & e' & Hr' & Hm & Hcase'); try lia.
  exists m, e'. split; [ exact Hr' | ]. split; [ exact Hm | ]. lia.
Qed.


Lemma iter_xO (d m : positive) : Z.pos (Pos.iter xO m d) = Z.pos m * 2 ^ Z.pos d.
Proof.
  revert m. induction d as [ | d IH ] using Pos.peano_ind; intros m.
  - cbn [Pos.iter]. change (2 ^ 1) with 2. lia.
  - rewrite Pos.iter_succ. rewrite Pos2Z.inj_xO, IH.
    rewrite Pos2Z.inj_succ. rewrite Z.pow_succ_r by lia. ring.
Qed.

Lemma shl_align_spec (m : positive) (e e' : Z) :
  e' <= e ->
  snd (shl_align m e e') = e'
  /\ Z.pos (fst (shl_align m e e')) = Z.pos m * 2 ^ (e - e').
Proof.
  intros H. unfold shl_align.
  destruct (e' - e) as [ | d | d ] eqn:Hd; cbn [fst snd].
  - assert (E : e' = e) by lia. rewrite E, Z.sub_diag. change (2 ^ 0) with 1.
    split; [ reflexivity | ring ].
  - lia.
  - rewrite iter_xO. replace (e - e') with (Z.pos d) by lia.
    split; reflexivity.
Qed.

Lemma shl_align_keep (m : positive) (e e' : Z) :
  e <= e' -> shl_align m e e' = (m, e).
Proof.
  intros H. unfold shl_align.
  destruct (e' - e) as [ | d | d ] eqn:Hd; try reflexivity. lia.
Qed.

Lemma digits_shift (m m' : positive) (j : Z) :
  0 <= j -> Z.pos m' = Z.pos m * 2 ^ j ->
  Z.pos (digits2_pos m') = Z.pos (digits2_pos m) + j.
Proof.
  intros Hj Hm. apply digits_unique. rewrite Hm.
  pose proof (digits_bounds m) as Hd.
  set (d := Z.pos (digits2_pos m)) in *.
  assert (Hd0 : 0 < d) by (unfold d; lia).
  replace (d + j - 1) with (d - 1 + j) by lia.
  rewrite !Z.pow_add_r by lia.
  assert (Hp : 0 < 2 ^ j) by (apply pow2_pos; exact Hj).
  split; [ apply Z.mul_le_mono_nonneg_r; lia | apply Z.mul_lt_mono_pos_r; lia ].
Qed.

(** Rounding an exact positive integer times a power of two, when the result
    is in the normal range. *)
Lemma binary_round_normal (p : positive) (e : Z) :
  let E := Z.pos (digits2_pos p) + e in
  -1021 <= E -> E <= 1023 ->
  normal_pos (E - 53) (E - 52) (binary_round prec emax false p e).
Proof.
  intros E Hlo Hhi. unfold binary_round. rewrite fexp_eq. fold E.
  replace (Z.max (E - 53) (-1074)) with (E - 53) by lia.
  assert (Hal : exists (mz : positive) (ez : Z),
             shl_align p e (E - 53) = (mz, ez)
             /\ ez <= E - 53 /\ Z.pos (digits2_pos mz) + ez = E).
  { destruct (Z.le_gt_cases e (E - 53)) as [ Hle | Hgt ].
    - exists p, e. rewrite shl_align_keep by exact Hle.
      split; [ reflexivity | ]. split; [ exact Hle | reflexivity ].
    - destruct (shl_align_spec p e (E - 53)) as [ Hs Hf ]; [ lia | ].
      destruct (shl_align p e (E - 53)) as [ mz ez ]. cbn [fst snd] in Hs, Hf.
      exists mz, ez. split; [ reflexivity | ]. subst ez.
      split; [ lia | ].
      rewrite (digits_shift p mz (e - (E - 53))); [ unfold E; lia | lia | exact Hf ]. }
  destruct Hal as (mz & ez & Hal & Hez & HE). rewrite Hal.
  destruct (binary_round_aux_char false mz ez loc_Exact)
    as (q & m1 & Hq & Hrem & Hm1 & _ & Hres).
  rewrite Hres. rewrite fexp_eq in *. rewrite HE in *.
  replace (Z.max ez (Z.max (E - 53) (-1074))) with (E - 53) in * by lia.
  pose proof (digits_bounds mz) as Hd.
  set (k := E - 53 - ez) in *.
  assert (Hk : 0 <= k) by (unfold k; lia).
  assert (Hp : 0 < 2 ^ k) by (apply pow2_pos; exact Hk).
  replace (Z.pos (digits2_pos mz) - 1) with (52 + k) in Hd by (unfold k; lia).
  rewrite Z.pow_add_r in Hd by lia.
  assert (Hq52 : 2 ^ 52 <= q) by nia.
  destruct (bra_result_normal false m1 (E - 53)) as
    (m & e' & Hr' & Hm & Hcase'); try lia.
  exists m, e'. split; [ exact Hr' | ]. split; [ exact Hm | ]. lia.
Qed.

(** Subtracting a smaller positive number from a positive normal one. *)
Lemma SFsub_normal (ma mb : positive) (ea eb : Z) :
  2 ^ 52 <= Z.pos ma < 2 ^ 53 -> Z.pos mb < 2 ^ 53 ->
  -1021 <= ea -> ea <= 970 ->
  eb < ea \/ (eb = ea /\ Z.pos mb < Z.pos ma) ->
  normal_pos (ea - 53) (ea + 1)
    (SFsub prec emax (S754_finite false ma ea) (S754_finite false mb eb)).
Proof.
  intros Hma Hmb Hlo Hhi Hlt. cbn [SFsub cond_Zopp].
  assert (Hmin : Z.min ea eb = eb) by lia. rewrite Hmin.
  destruct (shl_align_spec ma ea eb) as [ _ Ha ]; [ lia | ].
  rewrite (shl_align_keep mb eb eb) by lia. cbn [fst].
  rewrite Ha. clear Ha.
  set (j := ea - eb) in *.
  assert (Hj : 0 <= j) by (unfold j; lia).
  assert (Hpj : 0 < 2 ^ j) by (apply pow2_pos; exact Hj).
  assert (HD : 2 ^ j <= 2 * (Z.pos ma * 2 ^ j - Z.pos mb)
               /\ Z.pos ma * 2 ^ j - Z.pos mb < 2 ^ 53 * 2 ^ j).
  { split; [ | nia ].
    destruct Hlt as [ Hlt | [ E Hlt ] ].
    - assert (Hj1 : 2 <= 2 ^ j).
      { change 2 with (2 ^ 1) at 1. apply Z.pow_le_mono_r; unfold j; lia. }
      nia.
    - assert (E' : j = 0) by (unfold j; lia). rewrite E'.
      change (2 ^ 0) with 1. lia. }
  destruct (Z.pos ma * 2 ^ j - Z.pos mb) as [ | pD | pD ] eqn:HpD; [ lia | | lia ].
  cbn [binary_normalize].
  pose proof (digits_bounds pD) as Hd.
  set (d := Z.pos (digits2_pos pD)) in *.
  assert (Hd0 : 0 < d) by (unfold d; lia).
  assert (Hd1 : j <= d).
  { assert (H : 2 ^ j < 2 ^ (d + 1)); [ | apply pow2_lt_inv in H; lia ].
    rewrite Z.pow_add_r by lia. change (2 ^ 1) with 2. lia. }
  assert (Hd2 : d - 1 < 53 + j).
  { apply pow2_lt_inv; [ lia | ]. rewrite Z.pow_add_r by lia. lia. }
  apply normal_pos_weaken with (d + eb - 53) (d + eb - 52);
    [ apply binary_round_normal; fold d; unfold j in *; lia
    | unfold j in *; lia | unfold j in *; lia ].
Qed.


Lemma square_upper (m : Z) : 0 <= m < 2 ^ 53 -> m * m <= 2 ^ 106 - 2 ^ 54 + 1.
Proof.
  intros H. apply Z.le_trans with ((2 ^ 53 - 1) * (2 ^ 53 - 1)); [ | lia ].
  apply Z.mul_le_mono_nonneg; lia.
Qed.

Lemma square_gap (a b : Z) : 2 ^ 52 <= a -> a < b -> a * a + 2 ^ 53 + 1 <= b * b.
Proof.
  intros Ha Hab. apply Z.le_trans with ((a + 1) * (a + 1)); [ lia | ].
  apply Z.mul_le_mono_nonneg; lia.
Qed.

(** Squaring keeps the strict order of two numbers of which the larger is
    normal: the two exact squares are more than one unit in the last place
    apart, so round-to-nearest cannot merge them. *)
Lemma square_lt (mo mi : positive) (eo ei : Z) :
  2 ^ 52 <= Z.pos mo < 2 ^ 53 ->
  Z.pos mi < 2 ^ 53 -> -1074 <= ei -> (-1074 < ei -> 2 ^ 52 <= Z.pos mi) ->
  -562 <= eo -> eo <= 459 ->
  ei < eo \/ (ei = eo /\ Z.pos mi < Z.pos mo) ->
  exists (ma : positive) (ea : Z),
    SFmul prec emax (S754_finite false mo eo) (S754_finite false mo eo)
      = S754_finite false ma ea
    /\ 2 ^ 52 <= Z.pos ma < 2 ^ 53
    /\ 2 * eo + 52 <= ea <= 2 * eo + 53
    /\ (SFmul prec emax (S754_finite false mi ei) (S754_finite false mi ei)
          = S754_zero false
        \/ exists (mb : positive) (eb : Z),
             SFmul prec emax (S754_finite false mi ei) (S754_finite false mi ei)
               = S754_finite false mb eb
             /\ (eb < ea \/ (eb = ea /\ Z.pos mb < Z.pos ma))).
Proof.
  intros Hmo Hmi Hei Hnorm Hlo Hhi Hlt.
  destruct (SFmul_char mo mo eo eo Hmo Hmo) as
    (ko & qo & m1o & Hko & Hqo & Hremo & Hdiro & Hk53o & Hreso); [ lia | ].
  destruct (bra_result_normal false m1o (eo + eo + ko)) as
    (ma & ea & Hra & Hma & Hcasea); try lia.
  exists ma, ea. rewrite Hreso.
  split; [ exact Hra | ]. split; [ exact Hma | ]. split; [ lia | ].
  destruct Hlt as [ Hlt | [ E Hlt ] ].
  - (* the smaller number has a smaller exponent *)
    cbn [SFmul xorb].
    destruct (binary_round_aux_char false (mi * mi) (ei + ei) loc_Exact)
      as (q & m1 & Hq & Hrem & Hm1 & _ & Hres).
    rewrite Hres. rewrite fexp_eq in *.
    pose proof (digits_bounds (mi * mi)) as Hd.
    set (d := Z.pos (digits2_pos (mi * mi))) in *.
    assert (Hd0 : 0 < d) by (unfold d; lia).
    rewrite Pos2Z.inj_mul in *.
    assert (HP : Z.pos mi * Z.pos mi <= 2 ^ 106 - 2 ^ 54 + 1)
      by (apply square_upper; lia).
    set (P := Z.pos mi * Z.pos mi) in *.
    assert (Hd1 : d - 1 < 106) by (apply pow2_lt_inv; lia).
    set (e1 := Z.max (ei + ei) (Z.max (d + (ei + ei) - 53) (-1074))) in *.
    assert (He1 : e1 <= 2 * eo + 51) by (unfold e1; lia).
    unfold bra_result.
    destruct (Z.eqb_spec m1 0) as [ E0 | Hne0 ]; [ left; reflexivity | right ].
    destruct (Z.eqb_spec m1 (2 ^ 53)) as [ E53 | Hne53 ].
    + destruct (Z.leb_spec (e1 + 1) 971) as [ _ | Hgt ]; [ | lia ].
      exists (Z.to_pos (2 ^ 52)), (e1 + 1). split; [ reflexivity | ].
      left.
      destruct (Z.eq_dec e1 (2 * eo + 51)) as [ Ee | Hne ]; [ exfalso | lia ].
      assert (Hk : e1 - (ei + ei) = 53) by (unfold e1 in *; lia).
      rewrite Hk in Hrem. lia.
    + destruct (Z.leb_spec e1 971) as [ _ | Hgt ]; [ | lia ].
      exists (Z.to_pos m1), e1. split; [ reflexivity | ]. left. lia.
  - (* same exponent: both are normal and the mantissas differ *)
    subst ei. right.
    assert (Hmi' : 2 ^ 52 <= Z.pos mi < 2 ^ 53) by (split; [ apply Hnorm | ]; lia).
    destruct (SFmul_char mi mi eo eo Hmi' Hmi') as
      (ki & qi & m1i & Hki & Hqi & Hremi & Hdiri & Hk53i & Hresi); [ lia | ].
    rewrite Hresi.
    assert (Hgap : Z.pos mi * Z.pos mi + 2 ^ 53 + 1 <= Z.pos mo * Z.pos mo)
      by (apply square_gap; lia).
    set (Pi := Z.pos mi * Z.pos mi) in *. set (Po := Z.pos mo * Z.pos mo) in *.
    destruct Hki as [ -> | -> ]; destruct Hko as [ -> | -> ].
    + (* both squares below 2^105 *)
      assert (Hm : m1i < m1o) by lia.
      destruct (bra_result_normal false m1i (eo + eo + 52)) as
        (mb & eb & Hrb & Hmb & Hcaseb); try lia.
      exists mb, eb. split; [ exact Hrb | ]. lia.
    + (* the smaller square below 2^105, the larger one above *)
      destruct (bra_result_normal false m1i (eo + eo + 52)) as
        (mb & eb & Hrb & Hmb & Hcaseb); try lia.
      exists mb, eb. split; [ exact Hrb | ].
      specialize (Hk53o eq_refl).
      destruct Hcaseb as [ (Hb1 & Hb2 & Hb3) | (Hb1 & Hb2 & Hb3) ]; [ lia | ].
      right. split; [ lia | ].
      destruct Hcasea as [ (Ha1 & Ha2 & Ha3) | (Ha1 & Ha2 & Ha3) ]; [ | lia ].
      lia.
    + exfalso. lia.
    + (* both squares at or above 2^105 *)
      assert (Hm : m1i < m1o) by lia.
      specialize (Hk53o eq_refl). specialize (Hk53i eq_refl).
      destruct (bra_result_normal false m1i (eo + eo + 53)) as
        (mb & eb & Hrb & Hmb & Hcaseb); try lia.
      exists mb, eb. split; [ exact Hrb | ]. lia.
Qed.

(** *** The operations of the program on positive normal numbers *)

Lemma normal_const (x : float) (m : positive) (e : Z) :
  Prim2SF x = S754_finite false m e ->
  (2 ^ 52 <=? Z.pos m) && (Z.pos m <? 2 ^ 53) = true ->
  normal_pos e e (Prim2SF x).
Proof.
  intros Hx Hm. apply andb_true_iff in Hm. destruct Hm as [ H1 H2 ].
  apply Z.leb_le in H1. apply Z.ltb_lt in H2.
  exists m, e. split; [ exact Hx | ]. lia.
Qed.

Lemma mul_normal (lo1 hi1 lo2 hi2 : Z) (x y : float) :
  normal_pos lo1 hi1 (Prim2SF x) -> normal_pos lo2 hi2 (Prim2SF y) ->
  -1126 <= lo1 + lo2 -> hi1 + hi2 <= 918 ->
  normal_pos (lo1 + lo2 + 52) (hi1 + hi2 + 53) (Prim2SF (x * y)%float).
Proof.
  intros Hx Hy Hlo Hhi. rewrite mul_spec. unfold SF64mul.
  apply SFmul_normal; assumption.
Qed.

Lemma div_normal (lo1 hi1 lo2 hi2 : Z) (x y : float) :
  normal_pos lo1 hi1 (Prim2SF x) -> normal_pos lo2 hi2 (Prim2SF y) ->
  -1021 <= lo1 - hi2 -> hi1 - lo2 <= 1022 ->
  normal_pos (lo1 - hi2 - 53) (hi1 - lo2 - 51) (Prim2SF (x / y)%float).
Proof.
  intros Hx Hy Hlo Hhi. rewrite div_spec. unfold SF64div.
  apply SFdiv_normal; assumption.
Qed.

Lemma normal_pos_positive_finite (lo hi : Z) (x : float) :
  normal_pos lo hi (Prim2SF x) -> positive_finite x = true.
Proof.
  intros (m & e & Hx & _ & _). unfold positive_finite, is_finite, is_nan, is_infinity.
  rewrite ltb_spec, !eqb_spec, abs_spec, Hx.
  assert (H0 : Prim2SF 0 = S754_zero false) by reflexivity.
  assert (Hinf : Prim2SF infinity = S754_infinity false) by reflexivity.
  rewrite H0, Hinf. unfold SFltb, SFeqb. cbn [SFcompare SFabs].
  rewrite Z.compare_refl.
  change (Pos.compare_cont Eq m m) with (Pos.compare m m).
  rewrite Pos.compare_refl. reflexivity.
Qed.

Lemma SFltb_finite_false (mi mo : positive) (ei eo : Z) :
  SFltb (S754_finite false mi ei) (S754_finite false mo eo) = false ->
  eo < ei \/ (eo = ei /\ Z.pos mo <= Z.pos mi).
Proof.
  unfold SFltb. cbn [SFcompare]. intros H.
  destruct (Z.compare_spec ei eo) as [ E | Hlt | Hgt ].
  - right. split; [ symmetry; exact E | ].
    change (Pos.compare_cont Eq mi mo) with (Pos.compare mi mo) in H.
    destruct (Pos.compare_spec mi mo); [ lia | discriminate | lia ].
  - discriminate.
  - left; exact Hgt.
Qed.

Lemma SFmul_square_sign (s : bool) (m : positive) (e : Z) :
  SFmul prec emax (S754_finite s m e) (S754_finite s m e)
  = SFmul prec emax (S754_finite false m e) (S754_finite false m e).
Proof. destruct s; reflexivity. Qed.

(** The annulus term [odIn * odIn - idIn * idIn] of the formula, for an inner
    diameter smaller in absolute value than a normal outer diameter: it is
    positive and normal. *)
Lemma annulus_normal (lo hi : Z) (o i : float) :
  normal_pos lo hi (Prim2SF o) -> -536 <= lo -> hi <= 458 ->
  (abs i <? o)%float = true ->
  normal_pos (2 * lo - 1) (2 * hi + 54) (Prim2SF (o * o - i * i)%float).
Proof.
  intros (mo & eo & HO & Hmo & Heo) Hlo Hhi Hlt.
  rewrite ltb_spec, abs_spec, HO in Hlt.
  assert (HA : normal_pos (2 * eo + 52) (2 * eo + 53) (Prim2SF (o * o)%float)).
  { apply normal_pos_weaken with (eo + eo + 52) (eo + eo + 53); try lia.
    apply mul_normal; try lia; exists mo, eo; (split; [ exact HO | lia ]). }
  rewrite sub_spec. unfold SF64sub.
  pose proof (mul_spec i i) as HB. unfold SF64mul in HB.
  destruct (Prim2SF i) as [ s | s | | s mi ei ] eqn:HI; cbn [SFabs] in Hlt.
  - (* the inner diameter is zero *)
    cbn [SFmul] in HB. rewrite HB.
    destruct HA as (ma & ea & HA & Hma & Hea). rewrite HA. cbn [SFsub].
    exists ma, ea. split; [ reflexivity | lia ].
  - discriminate.
  - discriminate.
  - rewrite SFmul_square_sign in HB.
    apply SFltb_finite in Hlt.
    destruct (Prim2SF_finite_valid i s mi ei HI) as (Hei & Hmi & Hnorm).
    destruct (square_lt mo mi eo ei) as (ma & ea & HA' & Hma & Hea & HB');
      try lia; try assumption.
    pose proof (mul_spec o o) as HOO. unfold SF64mul in HOO.
    rewrite HO, HA' in HOO. rewrite HOO.
    destruct HB' as [ HB' | (mb & eb & HB' & Hord) ]; rewrite HB' in HB; rewrite HB.
    + cbn [SFsub]. exists ma, ea. split; [ reflexivity | lia ].
    + destruct (Prim2SF_finite_valid (i * i)%float false mb eb HB) as (_ & Hmb & _).
      apply normal_pos_weaken with (ea - 53) (ea + 1); try lia.
      apply SFsub_normal; try lia; assumption.
Qed.

(** For an inner diameter that is not negative, being smaller than the outer
    diameter and being smaller in absolute value are the same. *)
Lemma abs_ltb_nonneg (i o : float) :
  (0 <=? i)%float = true -> (abs i <? o)%float = (i <? o)%float.
Proof.
  intros H0. rewrite !ltb_spec, abs_spec.
  assert (Hzero : Prim2SF 0 = S754_zero false) by reflexivity.
  rewrite leb_spec, Hzero in H0.
  destruct (Prim2SF i) as [ s | s | | s mi ei ]; cbn [SFabs].
  - destruct (Prim2SF o) as [ | | | ]; reflexivity.
  - destruct s; [ discriminate | reflexivity ].
  - reflexivity.
  - destruct s; [ discriminate | reflexivity ].
Qed.

(** *** Numbers that are not above zero *)

Lemma not_positive_round (s : bool) (m e : Z) (l : location) :
  s = true -> not_positive (binary_round_aux prec emax s m e l).
Proof.
  intros ->.
  destruct (binary_round_aux_sign prec emax true m e l)
    as [ H | [ (m' & e' & H) | [ H | H ] ] ];
    cbv zeta in H; rewrite H; exact I.
Qed.

Lemma SFmul_not_positive (mx : positive) (ex : Z) (Y : spec_float) :
  not_positive Y -> not_positive (SFmul prec emax (S754_finite false mx ex) Y).
Proof.
  destruct Y as [ s | s | | s my ey ]; cbn [SFmul xorb not_positive].
  - intros _. destruct s; exact I.
  - destruct s; [ intros _; exact I | intros [] ].
  - intros _. exact I.
  - destruct s; [ intros _ | intros [] ].
    apply not_positive_round. reflexivity.
Qed.

Lemma SFdiv_not_positive (X : spec_float) (my : positive) (ey : Z) :
  not_positive X -> not_positive (SFdiv prec emax X (S754_finite false my ey)).
Proof.
  destruct X as [ s | s | | s mx ex ]; cbn [SFdiv xorb not_positive].
  - intros _. destruct s; exact I.
  - destruct s; [ intros _; exact I | intros [] ].
  - intros _. exact I.
  - destruct s; [ intros _ | intros [] ].
    destruct (SFdiv_core_binary prec emax (Z.pos mx) ex (Z.pos my) ey)
      as [ [ mz ez ] lz ].
    apply not_positive_round. reflexivity.
Qed.

Lemma not_positive_ltb (x : float) :
  not_positive (Prim2SF x) -> (0 <? x)%float = false.
Proof.
  intros H. rewrite ltb_spec.
  assert (Hzero : Prim2SF 0 = S754_zero false) by reflexivity.
  rewrite Hzero. unfold SFltb.
  destruct (Prim2SF x) as [ s | s | | s m e ]; cbn [SFcompare];
    try reflexivity; destruct s; try reflexivity; destruct H.
Qed.

(** Subtracting a number that is at least as large. *)
Lemma SFsub_not_positive (ma mb : positive) (ea eb : Z) :
  Z.pos ma < 2 ^ 53 -> (ea < eb -> 2 ^ 52 <= Z.pos mb) ->
  ea < eb \/ (ea = eb /\ Z.pos ma <= Z.pos mb) ->
  not_positive
    (SFsub prec emax (S754_finite false ma ea) (S754_finite false mb eb)).
Proof.
  intros Hma Hmb Hle. cbn [SFsub cond_Zopp].
  assert (Hmin : Z.min ea eb = ea) by lia. rewrite Hmin.
  destruct (shl_align_spec mb eb ea) as [ _ Hb ]; [ lia | ].
  rewrite (shl_align_keep ma ea ea) by lia. cbn [fst].
  rewrite Hb. clear Hb.
  set (j := eb - ea) in *.
  assert (Hj : 0 <= j) by (unfold j; lia).
  assert (HD : Z.pos ma - Z.pos mb * 2 ^ j <= 0).
  { destruct Hle as [ Hlt | [ E Hle ] ].
    - assert (Hj1 : 2 <= 2 ^ j).
      { change 2 with (2 ^ 1) at 1. apply Z.pow_le_mono_r; unfold j; lia. }
      specialize (Hmb Hlt). nia.
    - assert (E' : j = 0) by (unfold j; lia). rewrite E'.
      change (2 ^ 0) with 1. lia. }
  destruct (Z.pos ma - Z.pos mb * 2 ^ j) as [ | pD | pD ]; [ exact I | lia | ].
  cbn [binary_normalize]. unfold binary_round.
  destruct (shl_align pD ea (fexp prec emax (Z.pos (digits2_pos pD) + ea)))
    as [ mz ez ].
  apply not_positive_round. reflexivity.
Qed.

(** Squaring keeps the order of two numbers of which the smaller is normal
    and not too large: the square of the larger one is at least the square
    of the smaller one, or is +Infinity. *)
Lemma square_le (mo mi : positive) (eo ei : Z) :
  2 ^ 52 <= Z.pos mo < 2 ^ 53 -> -562 <= eo -> eo <= 458 ->
  Z.pos mi < 2 ^ 53 -> (-1074 < ei -> 2 ^ 52 <= Z.pos mi) ->
  eo < ei \/ (eo = ei /\ Z.pos mo <= Z.pos mi) ->
  exists (ma : positive) (ea : Z),
    SFmul prec emax (S754_finite false mo eo) (S754_finite false mo eo)
      = S754_finite false ma ea
    /\ Z.pos ma < 2 ^ 53
    /\ (SFmul prec emax (S754_finite false mi ei) (S754_finite false mi ei)
          = S754_infinity false
        \/ exists (mb : positive) (eb : Z),
             SFmul prec emax (S754_finite false mi ei) (S754_finite false mi ei)
               = S754_finite false mb eb
             /\ (ea < eb -> 2 ^ 52 <= Z.pos mb)
             /\ (ea < eb \/ (ea = eb /\ Z.pos ma <= Z.pos mb))).
Proof.
  intros Hmo Hlo Hhi Hmi Hnorm Hle.
  assert (Hmi' : 2 ^ 52 <= Z.pos mi < 2 ^ 53) by (split; [ apply Hnorm | ]; lia).
  destruct (SFmul_normal eo eo eo eo (S754_finite false mo eo)
              (S754_finite false mo eo)) as (ma & ea & HA & Hma & Hea);
    try lia; try (exists mo, eo; split; [ reflexivity | lia ]).
  destruct (Z.le_gt_cases ei 459) as [ Hsmall | Hbig ].
  - (* the larger number is in the range where its square is finite *)
    assert (Hcase : (eo = ei /\ Z.pos mo = Z.pos mi)
                    \/ (eo < ei \/ (eo = ei /\ Z.pos mo < Z.pos mi))) by lia.
    destruct Hcase as [ [ E Em ] | Hlt ].
    + apply Pos2Z.inj in Em. subst ei mi.
      exists ma, ea. split; [ exact HA | ]. split; [ lia | ].
      right. exists ma, ea. split; [ exact HA | ]. split; [ lia | ].
      right. split; [ reflexivity | lia ].
    + destruct (square_lt mi mo ei eo) as (mb & eb & HB & Hmb & Heb & HA');
        try lia.
      destruct HA' as [ HA' | (ma' & ea' & HA' & Hord) ];
        rewrite HA in HA'; [ discriminate | ].
      inversion HA'; subst ma' ea'.
      exists ma, ea. split; [ exact HA | ]. split; [ lia | ].
      right. exists mb, eb. split; [ exact HB | ]. split; [ lia | ]. lia.
  - (* its square overflows *)
    exists ma, ea. split; [ exact HA | ]. split; [ lia | ]. left.
    destruct (SFmul_char mi mi ei ei Hmi' Hmi') as
      (k & q & m1 & Hk & Hq & Hrem & Hdir & Hk53 & Hres); [ lia | ].
    rewrite Hres. unfold bra_result.
    destruct (Z.eqb_spec m1 0) as [ E0 | _ ]; [ lia | ].
    destruct (Z.eqb_spec m1 (2 ^ 53)) as [ E53 | _ ].
    + destruct (Z.leb_spec (ei + ei + k + 1) 971); [ lia | reflexivity ].
    + destruct (Z.leb_spec (ei + ei + k) 971); [ lia | reflexivity ].
Qed.

(** The annulus term for an inner diameter that is negative and not smaller
    in absolute value than a normal outer diameter: it is not above zero. *)
Lemma annulus_not_positive (lo hi : Z) (o i : float) :
  normal_pos lo hi (Prim2SF o) -> -562 <= lo -> hi <= 458 ->
  (i <? o)%float = true -> (abs i <? o)%float = false ->
  not_positive (Prim2SF (o * o - i * i)%float).
Proof.
  intros (mo & eo & HO & Hmo & Heo) Hlo Hhi Hlt Habs.
  rewrite ltb_spec, HO in Hlt. rewrite ltb_spec, abs_spec, HO in Habs.
  rewrite sub_spec, !mul_spec. unfold SF64sub, SF64mul. rewrite HO.
  destruct (Prim2SF i) as [ s | s | | s mi ei ] eqn:HI; cbn [SFabs] in Habs.
  - discriminate.
  - destruct s; [ | discriminate ].
    destruct (SFmul_normal eo eo eo eo (S754_finite false mo eo)
                (S754_finite false mo eo)) as (ma & ea & HA & Hma & Hea);
      try lia; try (exists mo, eo; split; [ reflexivity | lia ]).
    rewrite HA. exact I.
  - discriminate.
  - destruct s.
    + rewrite (SFmul_square_sign true mi ei).
      apply SFltb_finite_false in Habs.
      destruct (Prim2SF_finite_valid i true mi ei HI) as (Hei & Hmi & Hnorm).
      destruct (square_le mo mi eo ei) as (ma & ea & HA & Hma & HB);
        try lia; try assumption.
      rewrite HA.
      destruct HB as [ HB | (mb & eb & HB & Hnb & Hord) ]; rewrite HB.
      * exact I.
      * apply SFsub_not_positive; assumption.
    + rewrite Hlt in Habs. discriminate.
Qed.

End Binary64.

(** *** The lengths of a Valid result *)

Lemma calc_valid_inv (od id t : float) (u : Unit) (a b c d : float) :
  calc od id t u = Valid a b c d ->
  F64.gtb (toInches od u) (toInches id u) = true
  /\ a = F64.PI * (toInches od u * toInches od u - toInches id u * toInches id u)
         / (4 * toInches t u)
  /\ b = a / 12 /\ c = a / 36 /\ d = a * 0.0254.
Proof.
  calc_unfold.
  destruct (F64.gtb (toInches od u) (toInches id u));
    destruct (F64.gtb (toInches t u) 0); cbn [negb orb];
    intros Heq; inversion Heq; subst.
  split; [ reflexivity | ]. repeat split; reflexivity.
Qed.

(** The four lengths, for an outer diameter and a thickness in inches
    between 1e-90 and 1e90 and an inner diameter smaller in absolute value
    than the outer one: each is a positive normal number. *)
Lemma lengths_normal (o i th : float) :
  (1e-90 <=? o) = true -> (o <=? 1e90) = true ->
  (1e-90 <=? th) = true -> (th <=? 1e90) = true ->
  (abs i <? o) = true ->
  let len := F64.PI * (o * o - i * i) / (4 * th) in
  normal_pos (-1004) 846 (Prim2SF len)
  /\ normal_pos (-1008) 844 (Prim2SF (len / 12))
  /\ normal_pos (-1010) 842 (Prim2SF (len / 36))
  /\ normal_pos (-1010) 841 (Prim2SF (len * 0.0254)).
Proof.
  intros Hod1 Hod2 Ht1 Ht2 Habs len.
  assert (Hlo : Prim2SF 1e-90 = S754_finite false 4586997231980143 (-351))
    by reflexivity.
  assert (Hhi : Prim2SF 1e90 = S754_finite false 8843436600416711 246)
    by reflexivity.
  assert (HO : normal_pos (-351) 246 (Prim2SF o))
    by (apply (normal_between 1e-90 1e90 o _ _ _ _ Hlo Hhi);
        [ lia | assumption | assumption ]).
  assert (HT : normal_pos (-351) 246 (Prim2SF th))
    by (apply (normal_between 1e-90 1e90 th _ _ _ _ Hlo Hhi);
        [ lia | assumption | assumption ]).
  assert (HA : normal_pos (-703) 546 (Prim2SF (o * o - i * i))).
  { apply normal_pos_weaken with (2 * -351 - 1)%Z (2 * 246 + 54)%Z; try lia.
    apply annulus_normal; try lia; assumption. }
  assert (HPI : normal_pos (-51) (-51) (Prim2SF F64.PI))
    by (apply normal_const with 7074237752028440%positive; reflexivity).
  assert (H4 : normal_pos (-50) (-50) (Prim2SF 4))
    by (apply normal_const with 4503599627370496%positive; reflexivity).
  assert (H12 : normal_pos (-49) (-49) (Prim2SF 12))
    by (apply normal_const with 6755399441055744%positive; reflexivity).
  assert (H36 : normal_pos (-47) (-47) (Prim2SF 36))
    by (apply normal_const with 5066549580791808%positive; reflexivity).
  assert (H254 : normal_pos (-58) (-58) (Prim2SF 0.0254))
    by (apply normal_const with 7321051554253478%positive; reflexivity).
  assert (Hnum : normal_pos (-702) 548 (Prim2SF (F64.PI * (o * o - i * i)))).
  { apply normal_pos_weaken with (-51 + -703 + 52)%Z (-51 + 546 + 53)%Z; try lia.
    apply mul_normal; try lia; assumption. }
  assert (Hden : normal_pos (-349) 249 (Prim2SF (4 * th))).
  { apply normal_pos_weaken with (-50 + -351 + 52)%Z (-50 + 246 + 53)%Z; try lia.
    apply mul_normal; try lia; assumption. }
  assert (Hlen : normal_pos (-1004) 846 (Prim2SF len)).
  { apply normal_pos_weaken with (-702 - 249 - 53)%Z (548 - -349 - 51)%Z; try lia.
    apply div_normal; try lia; assumption. }
  split; [ exact Hlen | ]. split; [ | split ].
  - apply normal_pos_weaken with (-1004 - -49 - 53)%Z (846 - -49 - 51)%Z; try lia.
    apply div_normal; try lia; assumption.
  - apply normal_pos_weaken with (-1004 - -47 - 53)%Z (846 - -47 - 51)%Z; try lia.
    apply div_normal; try lia; assumption.
  - apply normal_pos_weaken with (-1004 + -58 + 52)%Z (846 + -58 + 53)%Z; try lia.
    apply mul_normal; try lia; assumption.
Qed.

(** The length in inches, for an inner diameter below the outer one but not
    smaller in absolute value: it is not above zero. *)
Lemma length_not_positive (o i th : float) :
  (1e-90 <=? o) = true -> (o <=? 1e90) = true ->
  (1e-90 <=? th) = true -> (th <=? 1e90) = true ->
  (i <? o) = true -> (abs i <? o) = false ->
  positive_finite (F64.PI * (o * o - i * i) / (4 * th)) = false.
Proof.
  intros Hod1 Hod2 Ht1 Ht2 Hlt Habs.
  assert (Hlo : Prim2SF 1e-90 = S754_finite false 4586997231980143 (-351))
    by reflexivity.
  assert (Hhi : Prim2SF 1e90 = S754_finite false 8843436600416711 246)
    by reflexivity.
  assert (HO : normal_pos (-351) 246 (Prim2SF o))
    by (apply (normal_between 1e-90 1e90 o _ _ _ _ Hlo Hhi);
        [ lia | assumption | assumption ]).
  assert (HT : normal_pos (-351) 246 (Prim2SF th))
    by (apply (normal_between 1e-90 1e90 th _ _ _ _ Hlo Hhi);
        [ lia | assumption | assumption ]).
  assert (HA : not_positive (Prim2SF (o * o - i * i)))
    by (apply (annulus_not_positive (-351) 246); try lia; assumption).
  assert (H4 : normal_pos (-50) (-50) (Prim2SF 4))
    by (apply normal_const with 4503599627370496%positive; reflexivity).
  assert (Hden : normal_pos (-349) 249 (Prim2SF (4 * th))).
  { apply normal_pos_weaken with (-50 + -351 + 52)%Z (-50 + 246 + 53)%Z; try lia.
    apply mul_normal; try lia; assumption. }
  destruct Hden as (md & ed & Hden & _ & _).
  assert (Hlen : not_positive (Prim2SF (F64.PI * (o * o - i * i) / (4 * th)))).
  { rewrite div_spec, mul_spec. unfold SF64div, SF64mul. rewrite Hden.
    apply SFdiv_not_positive.
    change (Prim2SF F64.PI) with (S754_finite false 7074237752028440 (-51)).
    apply SFmul_not_positive. exact HA. }
  unfold positive_finite. rewrite (not_positive_ltb _ Hlen). reflexivity.
Qed.

(** C4 (amended). For a Valid result whose outer diameter and thickness in
    inches are between 1e-90 and 1e90, the four lengths are positive and
    finite exactly when the inner diameter in inches is smaller in absolute
    value than the outer one, and so whenever the inner diameter is not
    negative.  This is about the binary64 numbers of the program, with their
    rounding: within these bounds no length overflows to Infinity, underflows
    to 0 or is NaN. *)
Theorem calc_valid_positive (od id t : float) (u : Unit) (a b c d : float) :
  calc od id t u = Valid a b c d ->
  (1e-90 <=? toInches od u) = true -> (toInches od u <=? 1e90) = true ->
  (1e-90 <=? toInches t u) = true -> (toInches t u <=? 1e90) = true ->
  ((positive_finite a = true /\ positive_finite b = true
    /\ positive_finite c = true /\ positive_finite d = true)
   <-> (abs (toInches id u) <? toInches od u) = true)
  /\ ((0 <=? toInches id u) = true ->
      positive_finite a = true /\ positive_finite b = true
      /\ positive_finite c = true /\ positive_finite d = true).
Proof.
  intros Hcalc Hod1 Hod2 Ht1 Ht2.
  destruct (calc_valid_inv od id t u a b c d Hcalc) as (Hgt & Ha & Hb & Hc & Hd).
  unfold F64.gtb in Hgt.
  set (o := toInches od u) in *. set (i := toInches id u) in *.
  set (th := toInches t u) in *.
  assert (Hpos : (abs i <? o) = true ->
                 positive_finite a = true /\ positive_finite b = true
                 /\ positive_finite c = true /\ positive_finite d = true).
  { intros Habs.
    destruct (lengths_normal o i th Hod1 Hod2 Ht1 Ht2 Habs)
      as (H1 & H2 & H3 & H4).
    cbv zeta in H1, H2, H3, H4. rewrite <- Ha in H1, H2, H3, H4.
    rewrite <- Hb in H2. rewrite <- Hc in H3. rewrite <- Hd in H4.
    repeat split; eapply normal_pos_positive_finite; eassumption. }
  split; [ split | ].
  - intros (Hpa & _).
    destruct (abs i <? o) eqn:Habs; [ reflexivity | ].
    rewrite Ha in Hpa.
    rewrite (length_not_positive o i th Hod1 Hod2 Ht1 Ht2 Hgt Habs) in Hpa.
    discriminate.
  - exact Hpos.
  - intros Hid. apply Hpos. rewrite (abs_ltb_nonneg i o Hid). exact Hgt.
Qed.

Lemma calc_valid_positive_witness :
  exists a b c d : float,
    calc 152.4 85 0.0762 Mm = Valid a b c d
    /\ (1e-90 <=? toInches 152.4 Mm) = true /\ (toInches 152.4 Mm <=? 1e90) = true
    /\ (1e-90 <=? toInches 0.0762 Mm) = true /\ (toInches 0.0762 Mm <=? 1e90) = true
    /\ (0 <=? toInches 85 Mm) = true
    /\ positive_finite a = true /\ positive_finite b = true
    /\ positive_finite c = true /\ positive_finite d = true.
Proof.
  do 4 eexists.
  assert (Hcalc : calc 152.4 85 0.0762 Mm = Valid _ _ _ _)
    by (vm_compute; reflexivity).
  split; [ exact Hcalc | ].
  do 5 (split; [ reflexivity | ]).
  exact (proj2 (calc_valid_positive 152.4 85 0.0762 Mm _ _ _ _ Hcalc
                  eq_refl eq_refl eq_refl eq_refl) eq_refl).
Defined.

(** Outside these bounds a Valid result can have lengths that are not
    positive and finite: a thickness of 1e-308 gives Infinity, diameters of
    1e200 and 1e199 give NaN, and a thickness of 1e308 gives 0. *)
Lemma calc_extremes :
  calc 6 3 1e-308 In = Valid infinity infinity infinity infinity
  /\ (exists a b c d, calc 1e200 1e199 1 In = Valid a b c d /\ is_nan a = true)
  /\ calc 6 3 1e308 In = Valid 0 0 0 0.
Proof.
  split; [ vm_compute; reflexivity | ].
  split; [ do 4 eexists; split; vm_compute; reflexivity | ].
  vm_compute; reflexivity.
Qed.

(** ** Filtering by index *)

Section FilterIndex.

Context {A : Type}.

(** Dropping the index [idx] from a list whose first index is [i]. *)
Lemma filter_from_drop (idx : Z) (l : list A) : forall i : nat,
  filter_from (fun _ j => negb (Z.of_nat j =? idx)%Z) i l =
  if ((Z.of_nat i <=? idx) && (idx <? Z.of_nat i + Z.of_nat (List.length l)))%Z
  then firstn (Z.to_nat (idx - Z.of_nat i)) l
         ++ skipn (S (Z.to_nat (idx - Z.of_nat i))) l
  else l.
Proof.
  induction l as [ | x rest IH ]; intros i.
  - cbn [filter_from List.length].
    destruct ((Z.of_nat i <=? idx) && _)%Z; [ | reflexivity ].
    rewrite firstn_nil, skipn_nil. reflexivity.
  - cbn [filter_from List.length]. rewrite IH.
    destruct (Z.eqb_spec (Z.of_nat i) idx) as [Heq | Hne]; cbn [negb].
    + subst idx.
      replace (Z.of_nat (S i) <=? Z.of_nat i)%Z with false
        by (symmetry; apply Z.leb_gt; lia).
      replace (Z.of_nat i <=? Z.of_nat i)%Z with true
        by (symmetry; apply Z.leb_le; lia).
      replace (Z.of_nat i <? Z.of_nat i + Z.of_nat (S (List.length rest)))%Z
        with true by (symmetry; apply Z.ltb_lt; lia).
      rewrite Z.sub_diag. reflexivity.
    + destruct (Z.leb_spec (Z.of_nat i) idx) as [Hle | Hgt].
      * replace (Z.of_nat (S i) <=? idx)%Z with true
          by (symmetry; apply Z.leb_le; lia).
        replace (Z.of_nat i + Z.of_nat (S (List.length rest)))%Z
          with (Z.of_nat (S i) + Z.of_nat (List.length rest))%Z by lia.
        cbn [andb].
        destruct (idx <? Z.of_nat (S i) + Z.of_nat (List.length rest))%Z;
          [ | reflexivity ].
        replace (Z.to_nat (idx - Z.of_nat i))
          with (S (Z.to_nat (idx - Z.of_nat (S i)))) by lia.
        reflexivity.
      * replace (Z.of_nat (S i) <=? idx)%Z with false
          by (symmetry; apply Z.leb_gt; lia).
        reflexivity.
Qed.

Lemma filter_index_drop (idx : Z) (l : list A) :
  filter_index (fun _ j => negb (Z.of_nat j =? idx)%Z) l =
  if ((0 <=? idx) && (idx <? Z.of_nat (List.length l)))%Z
  then drop_nth (Z.to_nat idx) l
  else l.
Proof.
  unfold filter_index. rewrite filter_from_drop.
  cbn [Z.of_nat]. rewrite Z.add_0_l, Z.sub_0_r. reflexivity.
Qed.

Lemma drop_nth_length (n : nat) (l : list A) :
  (n < List.length l)%nat ->
  S (List.length (drop_nth n l)) = List.length l.
Proof.
  intros Hn. unfold drop_nth.
  rewrite length_app, firstn_length_le, length_skipn by lia. lia.
Qed.

(** Every element keeps its place before [n] and moves up by one after. *)
Lemma drop_nth_nth_error (n k : nat) (l : list A) :
  nth_error (drop_nth n l) k =
  if (k <? n)%nat then nth_error l k else nth_error l (S k).
Proof.
  unfold drop_nth.
  destruct (Nat.ltb_spec k n) as [Hlt | Hge].
  - destruct (Nat.le_gt_cases (List.length l) k) as [Hlen | Hlen].
    + rewrite (proj2 (nth_error_None l k)) by lia.
      apply nth_error_None.
      rewrite length_app, length_firstn, length_skipn. lia.
    + rewrite nth_error_app1 by (rewrite length_firstn; lia).
      rewrite nth_error_firstn.
      rewrite (proj2 (Nat.ltb_lt k n) Hlt). reflexivity.
  - destruct (Nat.le_gt_cases (List.length l) n) as [Hlen | Hlen].
    + rewrite firstn_all2, skipn_all2, app_nil_r by lia.
      rewrite (proj2 (nth_error_None l k)) by lia.
      symmetry. apply nth_error_None. lia.
    + rewrite nth_error_app2 by (rewrite length_firstn; lia).
      rewrite length_firstn, nth_error_skipn.
      f_equal. lia.
Qed.

End FilterIndex.

(** ** Removing a preset *)

(** C10. [removePreset idx] leaves the preset list as it is when [idx] is
    negative or not below the length of the list; otherwise it removes the
    element at position [idx] and nothing else: the elements before it and
    the elements after it stay, in their order. *)
Theorem removePreset_by_index (idx : Z) (a : App.t) :
  let l := App.presets a in
  let l' := App.presets (removePreset idx a) in
  ((idx < 0 \/ Z.of_nat (List.length l) <= idx)%Z -> l' = l)
  /\ ((0 <= idx < Z.of_nat (List.length l))%Z ->
      l' = firstn (Z.to_nat idx) l ++ skipn (S (Z.to_nat idx)) l
      /\ S (List.length l') = List.length l
      /\ forall k : nat,
           nth_error l' k =
           if (k <? Z.to_nat idx)%nat then nth_error l k
           else nth_error l (S k)).
Proof.
  intros l l'.
  assert (Hl' : l' = if ((0 <=? idx) && (idx <? Z.of_nat (List.length l)))%Z
                     then drop_nth (Z.to_nat idx) l else l).
  { subst l' l. unfold removePreset, setPresets, store_set. cbn [App.presets].
    apply filter_index_drop. }
  split.
  - intros Hout. rewrite Hl'.
    destruct (Z.leb_spec 0 idx); destruct (Z.ltb_spec idx (Z.of_nat (List.length l)));
      cbn [andb]; solve [ reflexivity | lia ].
  - intros [Hlo Hhi]. rewrite Hl'.
    rewrite (proj2 (Z.leb_le 0 idx) Hlo), (proj2 (Z.ltb_lt _ _) Hhi).
    cbn [andb].
    split; [ reflexivity | split ].
    + apply drop_nth_length. lia.
    + intros k. apply drop_nth_nth_error.
Qed.

Lemma removePreset_by_index_witness :
  ((7 < 0 \/ Z.of_nat (List.length (App.presets app0)) <= 7)%Z
   /\ App.presets (removePreset 7 app0) = App.presets app0)
  /\ ((0 <= 1 < Z.of_nat (List.length (App.presets app0)))%Z
      /\ App.presets (removePreset 1 app0) =
         [ ThicknessPreset.mk "Calendared 3 mil" 0.003;
           ThicknessPreset.mk "Laminate 1.5 mil" 0.0015;
           ThicknessPreset.mk "100 μm film" (0.1 * IN_PER_MM) ]).
Proof.
  split.
  - assert (Hout : (7 < 0 \/ Z.of_nat (List.length (App.presets app0)) <= 7)%Z)
      by (right; simpl; lia).
    split; [ exact Hout | ].
    exact (proj1 (removePreset_by_index 7 app0) Hout).
  - assert (Hin : (0 <= 1 < Z.of_nat (List.length (App.presets app0)))%Z)
      by (simpl; lia).
    split; [ exact Hin | ].
    exact (proj1 (proj2 (removePreset_by_index 1 app0) Hin)).
Defined.

(** ** Deleting a saved roll *)

Lemma findIndex_from_found {A : Type} (p : A -> bool) (l : list A) :
  forall i : nat,
    let idx := findIndex_from p i l in
    (idx = (-1)%Z /\ remove_first p l = l)
    \/ ((Z.of_nat i <= idx < Z.of_nat i + Z.of_nat (List.length l))%Z
        /\ remove_first p l = drop_nth (Z.to_nat (idx - Z.of_nat i)) l).
Proof.
  induction l as [ | x rest IH ]; intros i; cbn [findIndex_from remove_first].
  - left. split; reflexivity.
  - destruct (p x).
    + right. cbn [List.length]. split; [ lia | ].
      rewrite Z.sub_diag. reflexivity.
    + destruct (IH (S i)) as [[Hidx Hrm] | [Hidx Hrm]].
      * left. split; [ exact Hidx | rewrite Hrm; reflexivity ].
      * right. cbn [List.length]. split; [ lia | ].
        rewrite Hrm.
        replace (Z.to_nat (findIndex_from p (S i) rest - Z.of_nat i))
          with (S (Z.to_nat (findIndex_from p (S i) rest - Z.of_nat (S i))))
          by lia.
        reflexivity.
Qed.

(** The handler of the other copy removes the first roll with the
    [savedAt] of [r], and only that one. *)
Lemma Part002_deleteRoll_first (r : SavedRoll.t) (a : App.t) :
  App.savedRolls (Part002.deleteRoll r a) =
  remove_first (same_savedAt r) (App.savedRolls a).
Proof.
  unfold Part002.deleteRoll. cbv zeta.
  fold (same_savedAt r).
  pose proof (findIndex_from_found (same_savedAt r) (App.savedRolls a) 0) as Hf.
  cbv zeta in Hf. fold (findIndex (same_savedAt r) (App.savedRolls a)) in Hf.
  destruct Hf as [[Hidx Hrm] | [Hidx Hrm]].
  - rewrite Hidx. cbn [Z.leb Z.compare]. symmetry. exact Hrm.
  - cbn [Z.of_nat] in Hidx. rewrite Z.sub_0_r in Hrm.
    rewrite (proj2 (Z.leb_le 0 _)) by lia.
    unfold setSavedRolls, store_set. cbn [App.savedRolls].
    rewrite filter_index_drop.
    rewrite (proj2 (Z.leb_le 0 _)) by lia.
    rewrite (proj2 (Z.ltb_lt _ _)) by lia.
    symmetry. exact Hrm.
Qed.

(** The handler of the component removes every roll with the [savedAt]
    of [r]. *)
Lemma deleteRoll_filter (r : SavedRoll.t) (a : App.t) :
  App.savedRolls (deleteRoll r a) =
  filter (fun sr => negb (same_savedAt r sr)) (App.savedRolls a).
Proof. reflexivity. Qed.

Lemma filter_all_kept {A : Type} (p : A -> bool) (l : list A) :
  (forall x, List.In x l -> p x = true) -> filter p l = l.
Proof.
  induction l as [ | x rest IH ]; intros Hall; [ reflexivity | ].
  cbn [filter]. rewrite (Hall x) by (left; reflexivity).
  f_equal. apply IH. intros y Hy. apply Hall. right. exact Hy.
Qed.

(** Both handlers do the same when no two rolls share a [savedAt]. *)
Lemma filter_remove_first_unique (r : SavedRoll.t) (l : list SavedRoll.t) :
  NoDup (map SavedRoll.savedAt l) ->
  filter (fun sr => negb (same_savedAt r sr)) l = remove_first (same_savedAt r) l.
Proof.
  induction l as [ | x rest IH ]; intros Hnd; [ reflexivity | ].
  cbn [map] in Hnd. inversion Hnd as [ | ? ? Hnotin Hnd' ]; subst.
  cbn [filter remove_first].
  destruct (same_savedAt r x) eqn:Hx; cbn [negb].
  - unfold same_savedAt in Hx. apply Z.eqb_eq in Hx.
    apply filter_all_kept. intros y Hy.
    apply negb_true_iff. unfold same_savedAt. apply Z.eqb_neq.
    intros Heq. apply Hnotin. rewrite Hx, <- Heq.
    apply in_map. exact Hy.
  - f_equal. apply IH. exact Hnd'.
Qed.

(** C5. On two rolls saved in the same millisecond, the Delete button of
    the component removes both, where the first alone was to go; and a save
    followed by the deletion of the new entry then loses the older roll.
    The handler of the other copy removes the first match only. *)
Theorem deleteRoll_same_millisecond :
  App.savedRolls (deleteRoll roll_B (with_rolls [roll_B; roll_A] app0)) = []
  /\ App.savedRolls (Part002.deleteRoll roll_B (with_rolls [roll_B; roll_A] app0))
     = [roll_A]
  /\ (exists entry,
        App.savedRolls (saveRoll (Some "B"%string) 1000 (with_rolls [roll_A] app0))
        = [entry; roll_A]
        /\ App.savedRolls
             (deleteRoll entry
                (saveRoll (Some "B"%string) 1000 (with_rolls [roll_A] app0)))
           = []).
Proof.
  split; [ vm_compute; reflexivity | ].
  split; [ vm_compute; reflexivity | ].
  eexists. split; vm_compute; reflexivity.
Qed.

(** ** Saving a roll *)

Lemma saveRoll_valid (name : option string) (now : Z) (a : App.t)
  (lengthIn lengthFt lengthYd lengthM : float) :
  App_calc a = Valid lengthIn lengthFt lengthYd lengthM ->
  exists entry,
    App.savedRolls (saveRoll name now a) = entry :: App.savedRolls a
    /\ SavedRoll.savedAt entry = now
    /\ SavedRoll.lengthIn entry = round lengthIn 2.
Proof.
  intros Hc. unfold saveRoll. rewrite Hc.
  eexists. split; [ reflexivity | split; reflexivity ].
Qed.

(** A save followed by the deletion of the new entry gives the history back
    as it was before the save, when the save is made (the result is Valid)
    and no older roll has the time of the save. *)
Lemma save_then_deleteRoll (name : option string) (now : Z) (a : App.t)
  (lengthIn lengthFt lengthYd lengthM : float) :
  App_calc a = Valid lengthIn lengthFt lengthYd lengthM ->
  (forall sr, List.In sr (App.savedRolls a) -> SavedRoll.savedAt sr <> now) ->
  exists entry,
    App.savedRolls (saveRoll name now a) = entry :: App.savedRolls a
    /\ SavedRoll.savedAt entry = now
    /\ App.savedRolls (deleteRoll entry (saveRoll name now a)) = App.savedRolls a.
Proof.
  intros Hc Hfresh.
  destruct (saveRoll_valid name now a _ _ _ _ Hc) as (entry & Hs & Hat & _).
  exists entry. split; [ exact Hs | ]. split; [ exact Hat | ].
  rewrite deleteRoll_filter, Hs. cbn [filter].
  unfold same_savedAt at 1. rewrite Z.eqb_refl. cbn [negb].
  apply filter_all_kept. intros sr Hin.
  apply negb_true_iff. unfold same_savedAt. apply Z.eqb_neq.
  rewrite Hat. apply Hfresh. exact Hin.
Qed.

Lemma Part002_saveRoll_valid (name : option string) (now : Z) (a : App.t)
  (lengthIn lengthFt lengthYd lengthM : float) :
  Part002.calc (App.od a) (App.id a) (App.thickness a) (App.unit a)
  = Valid lengthIn lengthFt lengthYd lengthM ->
  exists entry,
    App.savedRolls (Part002.saveRoll name now a) = entry :: App.savedRolls a
    /\ SavedRoll.savedAt entry = now.
Proof.
  intros Hc. unfold Part002.saveRoll. rewrite Hc.
  eexists. split; reflexivity.
Qed.

(** With the handler of the other copy it always does, whatever the times of
    the older rolls: the new entry is the first, and the first match alone
    is removed. *)
Lemma Part002_save_then_deleteRoll (name : option string) (now : Z) (a : App.t)
  (lengthIn lengthFt lengthYd lengthM : float) :
  Part002.calc (App.od a) (App.id a) (App.thickness a) (App.unit a)
  = Valid lengthIn lengthFt lengthYd lengthM ->
  exists entry,
    App.savedRolls (Part002.saveRoll name now a) = entry :: App.savedRolls a
    /\ SavedRoll.savedAt entry = now
    /\ App.savedRolls (Part002.deleteRoll entry (Part002.saveRoll name now a))
       = App.savedRolls a.
Proof.
  intros Hc.
  destruct (Part002_saveRoll_valid name now a _ _ _ _ Hc) as (entry & Hs & Hat).
  exists entry. split; [ exact Hs | ]. split; [ exact Hat | ].
  rewrite Part002_deleteRoll_first, Hs.
  cbn [remove_first]. unfold same_savedAt. rewrite Z.eqb_refl. reflexivity.
Qed.

Lemma save_then_deleteRoll_witness :
  let a := with_rolls [roll_A] app0 in
  (exists lengthIn lengthFt lengthYd lengthM,
      App_calc a = Valid lengthIn lengthFt lengthYd lengthM)
  /\ (forall sr, List.In sr (App.savedRolls a) -> SavedRoll.savedAt sr <> 2000%Z)
  /\ exists entry,
       App.savedRolls (saveRoll None 2000 a) = [entry; roll_A]
       /\ SavedRoll.savedAt entry = 2000%Z
       /\ App.savedRolls (deleteRoll entry (saveRoll None 2000 a)) = [roll_A].
Proof.
  intros a.
  assert (Hc : App_calc a = Valid _ _ _ _) by (vm_compute; reflexivity).
  assert (Hfresh : forall sr, List.In sr (App.savedRolls a) ->
                              SavedRoll.savedAt sr <> 2000%Z).
  { intros sr [ <- | [] ]. discriminate. }
  split; [ do 4 eexists; exact Hc | ].
  split; [ exact Hfresh | ].
  exact (save_then_deleteRoll None 2000 a _ _ _ _ Hc Hfresh).
Defined.

Lemma Part002_save_then_deleteRoll_witness :
  let a := with_rolls [roll_A] app0 in
  (exists lengthIn lengthFt lengthYd lengthM,
      Part002.calc (App.od a) (App.id a) (App.thickness a) (App.unit a)
      = Valid lengthIn lengthFt lengthYd lengthM)
  /\ exists entry,
       App.savedRolls (Part002.saveRoll None 1000 a) = [entry; roll_A]
       /\ SavedRoll.savedAt entry = 1000%Z
       /\ App.savedRolls
            (Part002.deleteRoll entry (Part002.saveRoll None 1000 a))
          = [roll_A].
Proof.
  intros a.
  assert (Hc : Part002.calc (App.od a) (App.id a) (App.thickness a) (App.unit a)
               = Valid _ _ _ _) by (vm_compute; reflexivity).
  split; [ do 4 eexists; exact Hc | ].
  exact (Part002_save_then_deleteRoll None 1000 a _ _ _ _ Hc).
Defined.

(** The two Delete handlers leave the same history when no two rolls share
    a [savedAt]. *)
Lemma deleteRoll_agree_unique (r : SavedRoll.t) (a : App.t) :
  NoDup (map SavedRoll.savedAt (App.savedRolls a)) ->
  App.savedRolls (deleteRoll r a) = App.savedRolls (Part002.deleteRoll r a).
Proof.
  intros Hnd.
  rewrite deleteRoll_filter, Part002_deleteRoll_first.
  apply filter_remove_first_unique. exact Hnd.
Qed.

Lemma deleteRoll_agree_unique_witness :
  let r := SavedRoll.mk "Later" In 5 3 0.003 2000 4188.79 349.07 106.4 116.36 in
  let a := with_rolls [r; roll_A] app0 in
  NoDup (map SavedRoll.savedAt (App.savedRolls a))
  /\ App.savedRolls (deleteRoll roll_A a)
     = App.savedRolls (Part002.deleteRoll roll_A a)
  /\ App.savedRolls (Part002.deleteRoll roll_A a) = [r].
Proof.
  intros r a.
  assert (Hnd : NoDup (map SavedRoll.savedAt (App.savedRolls a))).
  { cbn. constructor; [ intros [ H | [] ]; discriminate | ].
    constructor; [ intros [] | constructor ]. }
  split; [ exact Hnd | ].
  split; [ exact (deleteRoll_agree_unique roll_A a Hnd) | ].
  vm_compute. reflexivity.
Defined.

(** C6. [saveRoll] on a state whose [calc] is the Invalid variant changes
    nothing: the history is the same list and no [store.set] is made. *)
Theorem saveRoll_invalid_noop (name : option string) (now : Z) (a : App.t)
  (message : string) :
  App_calc a = Invalid message ->
  saveRoll name now a = a
  /\ App.savedRolls (saveRoll name now a) = App.savedRolls a
  /\ App.stored (saveRoll name now a) = App.stored a.
Proof.
  intros Hc. unfold saveRoll. rewrite Hc. repeat split.
Qed.

Lemma saveRoll_invalid_noop_witness :
  let a := App.mk Mm 76.2 76.2 0.076 false DEFAULT_PRESETS [roll_A] [] in
  App_calc a = Invalid invalid_message
  /\ saveRoll (Some "Core only"%string) 2000 a = a.
Proof.
  intros a.
  assert (Hc : App_calc a = Invalid invalid_message) by (vm_compute; reflexivity).
  split; [ exact Hc | ].
  exact (proj1 (saveRoll_invalid_noop (Some "Core only"%string) 2000 a _ Hc)).
Defined.

(** ** Adding a preset *)

Lemma Prim2SF_zero : Prim2SF 0 = S754_zero false.
Proof. reflexivity. Qed.

(** A binary64 number is greater than zero exactly when it is not a zero,
    not below zero and not [NaN]. *)
Lemma positive_classify (x : float) :
  (0 <? x) = negb (is_zero x || (x <? 0) || is_nan x).
Proof.
  unfold is_zero, is_nan.
  rewrite !FloatAxioms.ltb_spec, !FloatAxioms.eqb_spec.
  change (Prim2SF zero) with (S754_zero false). rewrite Prim2SF_zero.
  unfold SFltb, SFeqb.
  destruct (Prim2SF x) as [s | s | | s m e]; cbn [SFcompare];
    try reflexivity; try (destruct s; reflexivity).
  destruct s; rewrite Z.compare_refl, Pos.compare_cont_refl; reflexivity.
Qed.

(** The guard [!tIn || tIn <= 0] lets through the numbers above zero. *)
Lemma addPreset_guard (x : float) :
  F64.falsy x || (x <=? 0) = negb (0 <? x).
Proof.
  unfold F64.falsy, is_zero, is_nan.
  rewrite FloatAxioms.ltb_spec, FloatAxioms.leb_spec, !FloatAxioms.eqb_spec.
  change (Prim2SF zero) with (S754_zero false). rewrite Prim2SF_zero.
  unfold SFltb, SFleb, SFeqb.
  destruct (Prim2SF x) as [s | s | | s m e]; cbn [SFcompare];
    try reflexivity; try (destruct s; reflexivity).
  destruct s; rewrite Z.compare_refl, Pos.compare_cont_refl; reflexivity.
Qed.

(** The claim as the specification states it fails for +Infinity, which is
    not finite and is added all the same. *)
Lemma addPreset_accepts_infinity :
  is_finite (toInches infinity In) = false
  /\ App.presets (addPreset (fun _ _ => EmptyString) "Inf" infinity app0)
     = ThicknessPreset.mk "Inf" infinity :: App.presets app0.
Proof. split; vm_compute; reflexivity. Qed.

(** C7 (amended). [addPreset] changes nothing when the value in inches is
    a zero, below zero (-Infinity included) or [NaN]; for every other
    value, that is every value above zero, +Infinity included, it puts one
    new preset with that value in front of the list. *)
Theorem addPreset_positive_only
  (fmt : float -> nat -> string) (name : string) (tValue : float) (a : App.t) :
  let unit := App.unit a in
  let tIn := toInches tValue unit in
  let preset :=
    ThicknessPreset.mk
      (str_or name
         (fmt (if Unit_eqb unit Mm then tIn * 25.4 else tIn) 3%nat
            ++ " " ++ Unit_to_string unit)%string)
      tIn in
  ((is_zero tIn = true \/ (tIn <? 0) = true \/ is_nan tIn = true) ->
   addPreset fmt name tValue a = a)
  /\ ((is_zero tIn = false /\ (tIn <? 0) = false /\ is_nan tIn = false) ->
      (0 <? tIn) = true
      /\ App.presets (addPreset fmt name tValue a) = preset :: App.presets a)
  /\ (0 <? infinity) = true.
Proof.
  intros unit tIn preset.
  assert (Hadd : addPreset fmt name tValue a =
                 if 0 <? tIn then setPresets (cons preset) a else a).
  { unfold addPreset. fold unit. fold tIn.
    rewrite addPreset_guard. destruct (0 <? tIn); reflexivity. }
  rewrite Hadd, positive_classify.
  split; [ | split; [ | reflexivity ] ].
  - intros [Hz | [Hneg | Hnan]]; rewrite ?Hz, ?Hneg, ?Hnan, ?orb_true_r;
      reflexivity.
  - intros (Hz & Hneg & Hnan). rewrite Hz, Hneg, Hnan.
    split; reflexivity.
Qed.

Lemma addPreset_positive_only_witness :
  let fmt := fun (_ : float) (_ : nat) => "0.004"%string in
  ((is_zero (toInches 0 In) = true
    \/ (toInches 0 In <? 0) = true \/ is_nan (toInches 0 In) = true)
   /\ addPreset fmt "Nothing" 0 app0 = app0)
  /\ ((is_zero (toInches 0.004 In) = false
       /\ (toInches 0.004 In <? 0) = false /\ is_nan (toInches 0.004 In) = false)
      /\ App.presets (addPreset fmt "" 0.004 app0)
         = ThicknessPreset.mk "0.004 in" 0.004 :: App.presets app0).
Proof.
  intros fmt. split.
  - assert (Hbad : is_zero (toInches 0 In) = true
                   \/ (toInches 0 In <? 0) = true
                   \/ is_nan (toInches 0 In) = true)
      by (left; reflexivity).
    split; [ exact Hbad | ].
    exact (proj1 (addPreset_positive_only fmt "Nothing" 0 app0) Hbad).
  - assert (Hok : is_zero (toInches 0.004 In) = false
                  /\ (toInches 0.004 In <? 0) = false
                  /\ is_nan (toInches 0.004 In) = false)
      by (repeat split; reflexivity).
    split; [ exact Hok | ].
    exact (proj2 (proj1 (proj2 (addPreset_positive_only fmt "" 0.004 app0)) Hok)).
Defined.

(** ** Applying a preset *)

Lemma setThickness_value (v : float) (a : App.t) :
  App.thickness (setThickness v a) = v.
Proof.
  unfold setThickness.
  destruct (PrimFloat.Leibniz.eqb v (App.thickness a)) eqn:Heq.
  - apply FloatAxioms.Leibniz.eqb_spec in Heq. symmetry. exact Heq.
  - reflexivity.
Qed.

Lemma applyPreset_thickness (p : ThicknessPreset.t) (a : App.t) :
  App.thickness (applyPreset p a) =
  match App.unit a with
  | Mm => round (ThicknessPreset.thicknessIn p * 25.4) 3
  | In => round (ThicknessPreset.thicknessIn p) 5
  end.
Proof.
  unfold applyPreset. cbv zeta. unfold setShowPresetModal. cbn [App.thickness].
  rewrite setThickness_value. destruct (App.unit a); reflexivity.
Qed.

(** C8. Applying the built-in preset "Cast 2 mil" (0.002 in) while the unit
    is millimetres sets the thickness to 0.051: 0.002 * 25.4 = 0.0508,
    rounded to three decimals. *)
Theorem applyPreset_cast_2_mil_mm (a : App.t) :
  App.unit a = Mm ->
  nth_error DEFAULT_PRESETS 1 = Some cast_2_mil
  /\ ThicknessPreset.thicknessIn cast_2_mil * 25.4 = 0.0508
  /\ round 0.0508 3 = 0.051
  /\ App.thickness (applyPreset cast_2_mil a) = 0.051.
Proof.
  intros Hmm.
  split; [ reflexivity | ].
  split; [ reflexivity | ].
  split; [ reflexivity | ].
  rewrite applyPreset_thickness, Hmm. reflexivity.
Qed.

Lemma applyPreset_cast_2_mil_mm_witness :
  let a := App.mk Mm 152.4 85 0.076 true DEFAULT_PRESETS [] [] in
  App.unit a = Mm
  /\ App.thickness (applyPreset cast_2_mil a) = 0.051.
Proof.
  intros a.
  split; [ reflexivity | ].
  exact (proj2 (proj2 (proj2 (applyPreset_cast_2_mil_mm a eq_refl)))).
Defined.

(** ** The header of the export *)

(** C9. The export of an empty history is the header row alone: the ten
    column names, each between double quotes, in their order, joined by
    commas, with no line break after or inside it. *)
Theorem toCSV_empty
  (toISOString : Z -> option string) (Number_toString : float -> string) :
  toCSV toISOString Number_toString [] = Some header_line
  /\ count_char "010"%char header_line = 0%nat
  /\ count_char dquote header_line = 20%nat
  /\ count_char ","%char header_line = 9%nat.
Proof.
  split; [ | repeat split ]; vm_compute; reflexivity.
Qed.

(** * Part IV: the rest of the component *)

(** ** [NaN] and the sign of a product *)

Lemma SFcompare_refl (f : spec_float) :
  f <> S754_nan -> SFcompare f f = Some Eq.
Proof.
  destruct f as [s | s | | s m e]; cbn [SFcompare]; intros Hn;
    try (destruct s; reflexivity); try congruence.
  destruct s; rewrite Z.compare_refl, Pos.compare_cont_refl; reflexivity.
Qed.

Lemma is_nan_Prim2SF (x : float) :
  is_nan x = true <-> Prim2SF x = S754_nan.
Proof.
  unfold is_nan. rewrite FloatAxioms.eqb_spec. unfold SFeqb. split.
  - intros Hx. destruct (Prim2SF x) as [s | s | | s m e] eqn:Hp;
      try reflexivity; rewrite SFcompare_refl in Hx by discriminate;
      discriminate.
  - intros ->. reflexivity.
Qed.

Lemma ltb_nan_l (x y : float) : is_nan x = true -> (x <? y) = false.
Proof.
  intros Hx. apply is_nan_Prim2SF in Hx.
  rewrite FloatAxioms.ltb_spec, Hx. reflexivity.
Qed.

Lemma ltb_nan_r (x y : float) : is_nan y = true -> (x <? y) = false.
Proof.
  intros Hy. apply is_nan_Prim2SF in Hy.
  rewrite FloatAxioms.ltb_spec, Hy. unfold SFltb.
  destruct (Prim2SF x); reflexivity.
Qed.

Lemma mul_nan_l (x y : float) : is_nan x = true -> is_nan (x * y) = true.
Proof.
  intros Hx. apply is_nan_Prim2SF in Hx. apply is_nan_Prim2SF.
  rewrite FloatAxioms.mul_spec, Hx. reflexivity.
Qed.

(** A rounded product is a zero, a finite number or an infinity of the
    given sign, or [NaN]. *)
(** A product with a finite number above zero is above zero only if the
    other factor is. *)
Lemma mul_pos_finite_r (x c : float) (m : positive) (e : Z) :
  Prim2SF c = S754_finite false m e ->
  (0 <? x * c) = true -> (0 <? x) = true.
Proof.
  intros Hc. rewrite !FloatAxioms.ltb_spec, FloatAxioms.mul_spec, Hc.
  change (Prim2SF 0) with (S754_zero false).
  unfold SF64mul, SFltb.
  destruct (Prim2SF x) as [s | s | | s mx ex]; cbn [SFmul SFcompare];
    try discriminate.
  - destruct s; cbn; [ discriminate | reflexivity ].
  - destruct s; [ | reflexivity ].
    cbn [xorb].
    pose proof (binary_round_aux_sign prec emax true
                  (Z.pos (mx * m)) (ex + e) loc_Exact) as Hr.
    cbv zeta in Hr.
    destruct Hr as [-> | [(m' & e' & ->) | [-> | ->]]]; cbn; discriminate.
Qed.

Lemma Prim2SF_IN_PER_MM :
  exists m e, Prim2SF (IN_PER_MM : float) = S754_finite false m e.
Proof. do 2 eexists. vm_compute. reflexivity. Qed.

Lemma toInches_positive (v : float) (u : Unit) :
  (0 <? toInches v u) = true -> (0 <? v) = true.
Proof.
  destruct u; unfold toInches; cbn [Unit_eqb]; [ trivial | ].
  destruct Prim2SF_IN_PER_MM as (m & e & Hc).
  apply (mul_pos_finite_r v IN_PER_MM m e Hc).
Qed.

Lemma toInches_nan (v : float) (u : Unit) :
  is_nan v = true -> is_nan (toInches v u) = true.
Proof.
  destruct u; unfold toInches; cbn [Unit_eqb]; [ trivial | ].
  apply mul_nan_l.
Qed.

(** Whatever the unit, a roll whose thickness as typed is not above zero
    (a zero, a negative number, [NaN]) is Invalid, and so is a roll one of
    whose diameters is [NaN]: a Valid result has a thickness above zero
    and no [NaN] among its inputs. *)
Theorem calc_valid_inputs (od id t : float) (u : Unit) (a b c d : float) :
  calc od id t u = Valid a b c d ->
  (0 <? t) = true /\ is_nan od = false /\ is_nan id = false
  /\ is_nan t = false.
Proof.
  calc_unfold.
  destruct (F64.gtb (toInches od u) (toInches id u)) eqn:Hod;
    [ | discriminate ].
  destruct (F64.gtb (toInches t u) 0) eqn:Ht; [ | discriminate ].
  intros _. unfold F64.gtb in Hod, Ht.
  assert (Hpos : (0 <? t) = true) by (apply (toInches_positive t u); exact Ht).
  repeat split.
  - exact Hpos.
  - destruct (is_nan od) eqn:Hn; [ | reflexivity ].
    rewrite (ltb_nan_r _ _ (toInches_nan od u Hn)) in Hod. discriminate.
  - destruct (is_nan id) eqn:Hn; [ | reflexivity ].
    rewrite (ltb_nan_l _ _ (toInches_nan id u Hn)) in Hod. discriminate.
  - destruct (is_nan t) eqn:Hn; [ | reflexivity ].
    rewrite (ltb_nan_r _ _ Hn) in Hpos. discriminate.
Qed.

Lemma calc_valid_inputs_witness :
  exists a b c d,
    calc 152.4 76.2 0.076 Mm = Valid a b c d
    /\ (0 <? 0.076) = true /\ is_nan 152.4 = false.
Proof.
  do 4 eexists.
  assert (Hc : calc 152.4 76.2 0.076 Mm = Valid _ _ _ _)
    by (vm_compute; reflexivity).
  split; [ exact Hc | ].
  destruct (calc_valid_inputs _ _ _ _ _ _ _ _ Hc) as (Ht & Hod & _).
  split; [ exact Ht | exact Hod ].
Defined.

(** ** [round] *)

(** [round] sends [NaN] and the two infinities to zero, at every precision
    up to 22 decimals (the program uses 1 to 5). *)
Theorem round_not_finite (v : float) (d : nat) :
  is_finite v = false -> (d <= 22)%nat -> round v d = 0.
Proof.
  intros Hv Hd. unfold round, F64.isFinite. rewrite Hv.
  do 23 (destruct d as [ | d ]; [ vm_compute; reflexivity | ]).
  lia.
Qed.

Lemma round_not_finite_witness :
  is_finite infinity = false /\ (3 <= 22)%nat /\ round infinity 3 = 0.
Proof.
  split; [ reflexivity | ]. split; [ lia | ].
  apply (round_not_finite infinity 3); [ reflexivity | lia ].
Defined.

(** ** The unit of entry *)

(** The result can depend on the unit the roll is typed in: the three sizes
    in millimetres do not give, to the last digit, what the same sizes in
    inches give. *)
Lemma calc_unit_binary64 :
  calc (toMM 6 In) (toMM 3.346 In) (toMM 0.003 In) Mm <> calc 6 3.346 0.003 In.
Proof. vm_compute. discriminate. Qed.

(** ** Strings *)

Lemma append_assoc (a b c : string) :
  ((a ++ b) ++ c = a ++ (b ++ c))%string.
Proof.
  induction a as [ | x a IH ]; [ reflexivity | ].
  cbn [append]. rewrite IH. reflexivity.
Qed.

Lemma append_nil_r (a : string) : (a ++ "")%string = a.
Proof.
  induction a as [ | x a IH ]; [ reflexivity | ].
  cbn [append]. rewrite IH. reflexivity.
Qed.

(** [q] is a prefix of [s] when [s] is [q] followed by something. *)
Lemma prefix_iff (q s : string) :
  String.prefix q s = true <-> exists t, s = (q ++ t)%string.
Proof.
  revert s. induction q as [ | c q IH ]; intros s.
  - split; [ intros _; exists s; reflexivity | intros _ ].
    destruct s; reflexivity.
  - destruct s as [ | c' s ].
    + split; [ discriminate | intros (t & Ht); discriminate ].
    + cbn [String.prefix append].
      destruct (Ascii.ascii_dec c c') as [ <- | Hne ].
      * rewrite IH. split; intros (t & Ht); exists t; congruence.
      * split; [ discriminate | intros (t & Ht); congruence ].
Qed.

(** [s.includes(q)] holds when [s] is [q] between two texts. *)
Lemma includes_iff (s q : string) :
  includes s q = true <-> exists a b, s = (a ++ q ++ b)%string.
Proof.
  induction s as [ | c s IH ].
  - cbn [includes]. rewrite orb_false_r, prefix_iff. split.
    + intros (t & Ht). exists EmptyString, t. exact Ht.
    + intros (a & b & Hab). destruct a; [ | discriminate ].
      exists b. exact Hab.
  - cbn [includes]. rewrite orb_true_iff, IH, prefix_iff. split.
    + intros [(t & Ht) | (a & b & Hab)].
      * exists EmptyString, t. exact Ht.
      * exists (String c a), b. cbn [append]. rewrite Hab. reflexivity.
    + intros (a & b & Hab). destruct a as [ | c' a ].
      * left. exists b. exact Hab.
      * right. exists a, b. cbn [append] in Hab. congruence.
Qed.

(** ** Class names *)

Lemma concat_app_nonempty (sep : string) (l1 l2 : list string) :
  l1 <> [] -> l2 <> [] ->
  String.concat sep (l1 ++ l2)
  = (String.concat sep l1 ++ sep ++ String.concat sep l2)%string.
Proof.
  intros H1 H2. induction l1 as [ | x rest IH ]; [ congruence | ].
  destruct rest as [ | y rest ].
  - cbn [app String.concat]. destruct l2; [ congruence | reflexivity ].
  - change ((x :: y :: rest) ++ l2) with (x :: ((y :: rest) ++ l2)).
    change (String.concat sep (x :: (y :: rest) ++ l2))
      with (x ++ sep ++ String.concat sep ((y :: rest) ++ l2))%string.
    rewrite IH by discriminate.
    change (String.concat sep (x :: y :: rest))
      with (x ++ sep ++ String.concat sep (y :: rest))%string.
    rewrite !append_assoc. reflexivity.
Qed.

Lemma cx_kept_nonempty (l : list (option string)) :
  filter Boolean_class l <> [] -> exists c rest, cx l = String c rest.
Proof.
  unfold cx. intros Hne.
  destruct (filter Boolean_class l) as [ | x kept ] eqn:Hf; [ congruence | ].
  assert (Hx : Boolean_class x = true).
  { assert (Hin : List.In x (filter Boolean_class l))
      by (rewrite Hf; left; reflexivity).
    apply filter_In in Hin. apply Hin. }
  destruct x as [ [ | c s ] | ]; try discriminate.
  cbn [map class_text String.concat].
  destruct (map class_text kept); eexists; eexists; reflexivity.
Qed.

(** A class list built by [cx] can be passed to [cx] again: the result is
    that of the flat list, with no space doubled and none added for a part
    that is empty. *)
Theorem cx_nested (l1 l2 : list (option string)) :
  cx (Some (cx l1) :: l2) = cx (l1 ++ l2).
Proof.
  destruct (filter Boolean_class l1) as [ | x kept ] eqn:Hf1.
  - assert (H1 : cx l1 = EmptyString) by (unfold cx; rewrite Hf1; reflexivity).
    rewrite H1. unfold cx. cbn [filter Boolean_class].
    rewrite filter_app, Hf1. reflexivity.
  - destruct (cx_kept_nonempty l1) as (c & rest & H1);
      [ rewrite Hf1; discriminate | ].
    assert (Hout : cx (l1 ++ l2)
                   = String.concat " "
                       (map class_text (filter Boolean_class l1)
                        ++ map class_text (filter Boolean_class l2)))
      by (unfold cx; rewrite filter_app, map_app; reflexivity).
    rewrite Hout, H1.
    change (cx (Some (String c rest) :: l2))
      with (String.concat " "
              (String c rest :: map class_text (filter Boolean_class l2))).
    rewrite <- H1. unfold cx.
    destruct (filter Boolean_class l2) as [ | y kept2 ] eqn:Hf2.
    + cbn [map]. rewrite app_nil_r. reflexivity.
    + rewrite concat_app_nonempty;
        [ | rewrite Hf1; discriminate | discriminate ].
      reflexivity.
Qed.

(** ** Local storage *)

(** [store.get] gives the fallback, and throws nothing, when there is no
    window, when the storage is denied, when the key is absent or holds
    the empty text, and when the text does not parse. *)
Theorem store_get_fallback {T : Type} (parse : string -> option T)
  (key : string) (fallback : T) (h : store.Host) :
  (store.has_window h = false \/ store.denied h = true
   \/ store.items h key = None \/ store.items h key = Some EmptyString
   \/ exists raw, store.items h key = Some raw /\ parse raw = None) ->
  store.get parse key fallback h = fallback.
Proof.
  unfold store.get.
  intros [Hw | [Hd | [Hk | [Hk | (raw & Hk & Hp)]]]].
  - rewrite Hw. reflexivity.
  - rewrite Hd. destruct (store.has_window h); reflexivity.
  - rewrite Hk. destruct (store.has_window h), (store.denied h); reflexivity.
  - rewrite Hk. destruct (store.has_window h), (store.denied h); reflexivity.
  - rewrite Hk, Hp.
    destruct (store.has_window h), (store.denied h), raw; reflexivity.
Qed.

(** [store.set] changes nothing, and throws nothing, when there is no
    window, when the storage is denied and when the write is refused. *)
Theorem store_set_swallowed {T : Type} (stringify : T -> string)
  (key : string) (value : T) (h : store.Host) :
  (store.has_window h = false \/ store.denied h = true
   \/ store.setItem_ok h key (stringify value) = false) ->
  store.set stringify key value h = h.
Proof.
  unfold store.set. intros [Hw | [Hd | Hq]].
  - rewrite Hw. reflexivity.
  - rewrite Hd. destruct (store.has_window h); reflexivity.
  - rewrite Hq. destruct (store.has_window h), (store.denied h); reflexivity.
Qed.

(** What [store.set] wrote, [store.get] reads back, for a value whose JSON
    text is not empty and parses to the value. *)
Theorem store_get_set {T : Type} (stringify : T -> string)
  (parse : string -> option T) (key : string) (value fallback : T)
  (h : store.Host) :
  store.has_window h = true -> store.denied h = false ->
  store.setItem_ok h key (stringify value) = true ->
  stringify value <> EmptyString ->
  parse (stringify value) = Some value ->
  store.get parse key fallback (store.set stringify key value h) = value.
Proof.
  intros Hw Hd Hq Hne Hp. unfold store.set, store.get.
  rewrite Hw, Hd, Hq. cbn.
  rewrite String.eqb_refl, Hp.
  destruct (stringify value); [ congruence | reflexivity ].
Qed.

(** A write under one key leaves what is read under every other key, at
    whatever type, as it was. *)
Theorem store_set_other_key {T T' : Type} (stringify : T -> string)
  (parse' : string -> option T') (key key' : string) (value : T)
  (fallback : T') (h : store.Host) :
  key' <> key ->
  store.get parse' key' fallback (store.set stringify key value h)
  = store.get parse' key' fallback h.
Proof.
  intros Hne. unfold store.set.
  destruct (store.has_window h) eqn:Hw; [ | reflexivity ].
  destruct (store.denied h) eqn:Hd; [ reflexivity | ].
  cbn. destruct (store.setItem_ok h key (stringify value)); [ | reflexivity ].
  unfold store.get. cbn. rewrite Hw, Hd. cbn.
  rewrite (proj2 (String.eqb_neq key' key) Hne). reflexivity.
Qed.

Lemma store_get_fallback_witness :
  (store.has_window host0 = false \/ store.denied host0 = true
   \/ store.items host0 "vinylCalc.unit" = None
   \/ store.items host0 "vinylCalc.unit" = Some EmptyString
   \/ exists raw, store.items host0 "vinylCalc.unit" = Some raw
                  /\ Unit_parse raw = None)
  /\ store.get Unit_parse "vinylCalc.unit" In host0 = In.
Proof.
  assert (Hk : store.has_window host0 = false \/ store.denied host0 = true
               \/ store.items host0 "vinylCalc.unit" = None
               \/ store.items host0 "vinylCalc.unit" = Some EmptyString
               \/ exists raw, store.items host0 "vinylCalc.unit" = Some raw
                              /\ Unit_parse raw = None)
    by (right; right; left; reflexivity).
  split; [ exact Hk | ].
  exact (store_get_fallback Unit_parse "vinylCalc.unit" In host0 Hk).
Defined.

Lemma store_set_swallowed_witness :
  let full := store.mkHost true false (fun _ => None) (fun _ _ => false) in
  (store.has_window full = false \/ store.denied full = true
   \/ store.setItem_ok full "vinylCalc.unit" (Unit_stringify Mm) = false)
  /\ store.set Unit_stringify "vinylCalc.unit" Mm full = full.
Proof.
  intros full.
  assert (Hq : store.has_window full = false \/ store.denied full = true
               \/ store.setItem_ok full "vinylCalc.unit" (Unit_stringify Mm)
                  = false)
    by (right; right; reflexivity).
  split; [ exact Hq | ].
  exact (store_set_swallowed Unit_stringify "vinylCalc.unit" Mm full Hq).
Defined.

Lemma store_get_set_witness :
  store.has_window host0 = true /\ store.denied host0 = false
  /\ store.setItem_ok host0 "vinylCalc.unit" (Unit_stringify Mm) = true
  /\ Unit_stringify Mm <> EmptyString
  /\ Unit_parse (Unit_stringify Mm) = Some Mm
  /\ store.get Unit_parse "vinylCalc.unit" In
       (store.set Unit_stringify "vinylCalc.unit" Mm host0) = Mm.
Proof.
  assert (Hne : Unit_stringify Mm <> EmptyString) by discriminate.
  repeat (split; [ first [ reflexivity | exact Hne ] | ]).
  exact (store_get_set Unit_stringify Unit_parse "vinylCalc.unit" Mm In host0
           eq_refl eq_refl eq_refl Hne eq_refl).
Defined.

Lemma store_set_other_key_witness :
  "vinylCalc.theme"%string <> "vinylCalc.unit"%string
  /\ store.get Unit_parse "vinylCalc.theme" In
       (store.set Unit_stringify "vinylCalc.unit" Mm host0)
     = store.get Unit_parse "vinylCalc.theme" In host0.
Proof.
  assert (Hne : "vinylCalc.theme"%string <> "vinylCalc.unit"%string)
    by discriminate.
  split; [ exact Hne | ].
  exact (store_set_other_key Unit_stringify Unit_parse
           "vinylCalc.unit" "vinylCalc.theme" Mm In host0 Hne).
Defined.

(** ** Search *)

(** *** Trimming *)

Lemma trim_start_white (w s : string) :
  List.In w white_space -> trim_start (w ++ s) = trim_start s.
Proof.
  unfold white_space. cbn [map]. intros Hw.
  repeat (destruct Hw as [ <- | Hw ]; [ reflexivity | ]).
  destruct Hw.
Qed.

(** A text of white space only trims to the empty text. *)
Lemma trim_start_blank (s : string) : blank s -> trim_start s = EmptyString.
Proof.
  induction 1 as [ | w s Hw _ IH ]; [ reflexivity | ].
  rewrite trim_start_white by exact Hw. exact IH.
Qed.

Lemma trim_blank (s : string) : blank s -> trim s = EmptyString.
Proof. intros Hs. unfold trim. rewrite trim_start_blank by exact Hs. reflexivity. Qed.

(** Trimming removes the white space around a text that neither starts nor
    ends with white space. *)
Lemma trim_examples :
  trim (utf8 [194; 160; 32; 9]%nat ++ "Roll" ++ utf8 [227; 128; 128; 10; 239; 187; 191]%nat)
  = "Roll"%string
  /\ trim (utf8 [226; 128; 139]%nat ++ "x") = (utf8 [226; 128; 139]%nat ++ "x")%string
  /\ trim (utf8 [32; 195; 160; 32]%nat) = utf8 [195; 160]%nat.
Proof. repeat split; reflexivity. Qed.

(** A search text that is empty or of white space only shows the whole
    history, in its order. *)
Theorem filtered_blank (Number_toString : float -> string) (search : string)
  (savedRolls : list SavedRoll.t) :
  blank search ->
  filtered Number_toString search savedRolls = savedRolls.
Proof.
  intros Hs. unfold filtered. rewrite trim_blank by exact Hs. reflexivity.
Qed.

Lemma filtered_blank_witness :
  let search := (utf8 [194; 160]%nat ++ " " ++ utf8 [227; 128; 128; 9]%nat)%string in
  blank search
  /\ filtered (fun _ => "6"%string) search [roll_B; roll_A] = [roll_B; roll_A].
Proof.
  intros search.
  assert (Hs : blank search).
  { unfold search.
    apply (blank_cons (utf8 [194; 160]%nat)); [ unfold white_space; cbn; tauto | ].
    apply (blank_cons " "); [ unfold white_space; cbn; tauto | ].
    apply (blank_cons (utf8 [227; 128; 128]%nat)); [ unfold white_space; cbn; tauto | ].
    apply (blank_cons (utf8 [9]%nat)); [ unfold white_space; cbn; tauto | ].
    apply blank_nil. }
  split; [ exact Hs | ].
  exact (filtered_blank (fun _ => "6"%string) search [roll_B; roll_A] Hs).
Defined.

(** *** Letter case *)

Lemma lower_char_idem (c : ascii) : lower_char (lower_char c) = lower_char c.
Proof. destruct c as [[] [] [] [] [] [] [] []]; reflexivity. Qed.

Lemma toLowerCase_idem (s : string) :
  toLowerCase (toLowerCase s) = toLowerCase s.
Proof.
  induction s as [ | c s IH ]; [ reflexivity | ].
  cbn [toLowerCase]. rewrite lower_char_idem, IH. reflexivity.
Qed.

Lemma is_space_lower (c : ascii) : is_space (lower_char c) = is_space c.
Proof. destruct c as [[] [] [] [] [] [] [] []]; reflexivity. Qed.

(** A byte that [lower_char] changes is a byte of ASCII, before and after. *)
Lemma lower_char_cases (c : ascii) :
  lower_char c = c
  \/ ((nat_of_ascii c <? 128)%nat = true
      /\ (nat_of_ascii (lower_char c) <? 128)%nat = true).
Proof.
  destruct c as [[] [] [] [] [] [] [] []];
    first [ left; reflexivity | right; split; reflexivity ].
Qed.

Lemma byte_is_high (n : nat) (c : ascii) :
  (128 <= n)%nat -> byte_is n c = true -> (nat_of_ascii c <? 128)%nat = false.
Proof.
  unfold byte_is. intros Hn Hc. apply Nat.eqb_eq in Hc.
  apply Nat.ltb_ge. lia.
Qed.

Lemma is_space2_high (c1 c2 : ascii) :
  is_space2 c1 c2 = true ->
  (nat_of_ascii c1 <? 128)%nat = false /\ (nat_of_ascii c2 <? 128)%nat = false.
Proof.
  unfold is_space2. intros H. apply andb_true_iff in H. destruct H as [ H1 H2 ].
  split; eapply byte_is_high; try eassumption; lia.
Qed.

Lemma is_space3_high (c1 c2 c3 : ascii) :
  is_space3 c1 c2 c3 = true ->
  (nat_of_ascii c1 <? 128)%nat = false /\ (nat_of_ascii c2 <? 128)%nat = false
  /\ (nat_of_ascii c3 <? 128)%nat = false.
Proof.
  unfold is_space3. intros H.
  assert (Hb : forall n c, (128 <= n)%nat -> byte_is n c = true ->
                           (nat_of_ascii c <? 128)%nat = false)
    by exact byte_is_high.
  repeat match goal with
         | H : (_ || _) = true |- _ => apply orb_true_iff in H; destruct H
         | H : (_ && _) = true |- _ => apply andb_true_iff in H; destruct H
         end;
    repeat split;
    first [ eapply Hb; [ | eassumption ]; lia
          | apply Nat.ltb_ge;
            match goal with
            | H : (128 <=? _)%nat = true |- _ => apply Nat.leb_le in H; exact H
            end ].
Qed.

Lemma is_space2_lower (c1 c2 : ascii) :
  is_space2 (lower_char c1) (lower_char c2) = is_space2 c1 c2.
Proof.
  destruct (lower_char_cases c1) as [ -> | [ H1 H1' ] ];
    [ destruct (lower_char_cases c2) as [ -> | [ H2 H2' ] ];
      [ reflexivity | ] | ].
  - destruct (is_space2 c1 (lower_char c2)) eqn:Ha;
      [ apply is_space2_high in Ha; destruct Ha; congruence | ].
    destruct (is_space2 c1 c2) eqn:Hb;
      [ apply is_space2_high in Hb; destruct Hb; congruence | reflexivity ].
  - destruct (is_space2 (lower_char c1) (lower_char c2)) eqn:Ha;
      [ apply is_space2_high in Ha; destruct Ha; congruence | ].
    destruct (is_space2 c1 c2) eqn:Hb;
      [ apply is_space2_high in Hb; destruct Hb; congruence | reflexivity ].
Qed.

Lemma is_space3_lower (c1 c2 c3 : ascii) :
  is_space3 (lower_char c1) (lower_char c2) (lower_char c3) = is_space3 c1 c2 c3.
Proof.
  destruct (lower_char_cases c1) as [ E1 | [ H1 H1' ] ];
    destruct (lower_char_cases c2) as [ E2 | [ H2 H2' ] ];
    destruct (lower_char_cases c3) as [ E3 | [ H3 H3' ] ];
    try (rewrite E1, E2, E3; reflexivity);
    destruct (is_space3 (lower_char c1) (lower_char c2) (lower_char c3)) eqn:Ha;
    destruct (is_space3 c1 c2 c3) eqn:Hb; try reflexivity;
    try (apply is_space3_high in Ha; destruct Ha as (? & ? & ?));
    try (apply is_space3_high in Hb; destruct Hb as (? & ? & ?));
    try rewrite E1 in *; try rewrite E2 in *; try rewrite E3 in *;
    congruence.
Qed.

Lemma trim_start_lower (s : string) :
  toLowerCase (trim_start s) = trim_start (toLowerCase s).
Proof.
  assert (H : forall n (s : string), (String.length s <= n)%nat ->
              toLowerCase (trim_start s) = trim_start (toLowerCase s)).
  { intros n. induction n as [ | n IH ]; intros s0 Hlen.
    - destruct s0; [ reflexivity | cbn in Hlen; lia ].
    - destruct s0 as [ | c1 r1 ]; [ reflexivity | ].
      cbn [String.length] in Hlen.
      cbn [trim_start toLowerCase]. rewrite is_space_lower.
      destruct (is_space c1); [ apply IH; lia | ].
      destruct r1 as [ | c2 r2 ]; [ reflexivity | ].
      cbn [String.length] in Hlen.
      cbn [toLowerCase]. rewrite is_space2_lower.
      destruct (is_space2 c1 c2); [ apply IH; lia | ].
      destruct r2 as [ | c3 r3 ]; [ reflexivity | ].
      cbn [String.length] in Hlen.
      cbn [toLowerCase]. rewrite is_space3_lower.
      destruct (is_space3 c1 c2 c3); [ apply IH; lia | reflexivity ]. }
  apply (H (String.length s)). lia.
Qed.

Lemma is_blank_lower (s : string) : is_blank (toLowerCase s) = is_blank s.
Proof.
  unfold is_blank. rewrite <- trim_start_lower.
  destruct (trim_start s); reflexivity.
Qed.

Lemma trim_end_lower (s : string) :
  toLowerCase (trim_end s) = trim_end (toLowerCase s).
Proof.
  induction s as [ | c s IH ]; [ reflexivity | ].
  pose proof (is_blank_lower (String c s)) as Hb.
  cbn [toLowerCase] in *. cbn [trim_end]. rewrite Hb.
  destruct (is_blank (String c s)); [ reflexivity | ].
  cbn [toLowerCase]. rewrite IH. reflexivity.
Qed.

(** Trimming and lowering the case can be done in either order. *)
Lemma trim_lower (s : string) : toLowerCase (trim s) = trim (toLowerCase s).
Proof. unfold trim. rewrite trim_end_lower, trim_start_lower. reflexivity. Qed.

(** The search does not tell the letter case of what is typed: on a history
    whose names are ASCII texts, two ASCII search texts that differ in case
    only show the same rolls. *)
Theorem filtered_case_insensitive (Number_toString : float -> string)
  (search search' : string) (savedRolls : list SavedRoll.t) :
  ascii_text search = true -> ascii_text search' = true ->
  Forall (fun r => ascii_text (SavedRoll.name r) = true) savedRolls ->
  toLowerCase search = toLowerCase search' ->
  filtered Number_toString search savedRolls
  = filtered Number_toString search' savedRolls.
Proof.
  intros _ _ _ Heq. unfold filtered. rewrite !trim_lower, Heq. reflexivity.
Qed.

Lemma filtered_case_insensitive_witness :
  let cast := SavedRoll.mk "Cast 2 mil" In 5 3 0.002 2000 6283.19 523.6 159.59 174.53 in
  ascii_text " CAST" = true /\ ascii_text "cast " = true
  /\ Forall (fun r => ascii_text (SavedRoll.name r) = true) [cast; roll_A]
  /\ toLowerCase " CAST" = toLowerCase " cast"
  /\ filtered (fun _ => "6"%string) " CAST" [cast; roll_A] = [cast]
  /\ filtered (fun _ => "6"%string) " cast" [cast; roll_A] = [cast].
Proof.
  intros cast.
  assert (Hn : Forall (fun r => ascii_text (SavedRoll.name r) = true) [cast; roll_A])
    by (repeat constructor).
  assert (Heq : toLowerCase " CAST" = toLowerCase " cast") by reflexivity.
  split; [ reflexivity | ]. split; [ reflexivity | ].
  split; [ exact Hn | ]. split; [ exact Heq | ].
  assert (Hr : filtered (fun _ => "6"%string) " cast" [cast; roll_A] = [cast])
    by reflexivity.
  split; [ | exact Hr ].
  rewrite (filtered_case_insensitive (fun _ => "6"%string) " CAST" " cast"
             [cast; roll_A] eq_refl eq_refl Hn Heq).
  exact Hr.
Defined.

Lemma includes_trans (s q q' : string) :
  includes s q = true -> includes q q' = true -> includes s q' = true.
Proof.
  rewrite !includes_iff.
  intros (a & b & ->) (a' & b' & ->).
  exists (a ++ a')%string, (b' ++ b)%string.
  rewrite !append_assoc. reflexivity.
Qed.

(** Typing more never shows more: when the search text contains an earlier
    search text (both trimmed, in lower case), every roll it shows was
    shown by the earlier one. *)
Theorem filtered_narrowing (Number_toString : float -> string)
  (search search' : string) (savedRolls : list SavedRoll.t)
  (r : SavedRoll.t) :
  includes (toLowerCase (trim search')) (toLowerCase (trim search)) = true ->
  List.In r (filtered Number_toString search' savedRolls) ->
  List.In r (filtered Number_toString search savedRolls).
Proof.
  unfold filtered. cbv zeta.
  set (q := toLowerCase (trim search)). set (q' := toLowerCase (trim search')).
  intros Hinc Hin.
  assert (Hl : List.In r savedRolls).
  { destruct q'; [ exact Hin | apply filter_In in Hin; apply Hin ]. }
  destruct q as [ | c q0 ] eqn:Hq; [ exact Hl | ].
  destruct q' as [ | c' q'0 ] eqn:Hq'.
  - cbn in Hinc. discriminate.
  - apply filter_In in Hin. destruct Hin as [_ Hm].
    apply filter_In. split; [ exact Hl | ].
    rewrite !orb_true_iff in Hm. rewrite !orb_true_iff.
    destruct Hm as [[Hm | Hm] | Hm];
      [ left; left | left; right | right ];
      exact (includes_trans _ _ _ Hm Hinc).
Qed.

Lemma filtered_narrowing_witness :
  let r := SavedRoll.mk "Roll 2" In 6 3 0.003 1000 7068.58 589.05 179.54 196.35 in
  includes (toLowerCase (trim "roll 2")) (toLowerCase (trim "Roll")) = true
  /\ List.In r (filtered (fun _ => "6"%string) "roll 2" [roll_A; r])
  /\ List.In r (filtered (fun _ => "6"%string) "Roll" [roll_A; r]).
Proof.
  intros r.
  assert (Hinc : includes (toLowerCase (trim "roll 2"))
                          (toLowerCase (trim "Roll")) = true) by reflexivity.
  assert (Hin : List.In r (filtered (fun _ => "6"%string) "roll 2" [roll_A; r]))
    by (left; reflexivity).
  split; [ exact Hinc | ]. split; [ exact Hin | ].
  exact (filtered_narrowing (fun _ => "6"%string) "Roll" "roll 2" [roll_A; r]
           r Hinc Hin).
Defined.

(** ** Reading the export back *)

Lemma csv_run_app (s1 s2 : string) : forall r : CsvReader,
  csv_run (s1 ++ s2) r =
  match csv_run s1 r with
  | Some r' => csv_run s2 r'
  | None => None
  end.
Proof.
  induction s1 as [ | c s1 IH ]; intros r; [ reflexivity | ].
  cbn [append csv_run]. destruct (csv_step c r); [ apply IH | reflexivity ].
Qed.

(** Inside the quotes, the doubled text of [s] reads as [s]. *)
Lemma csv_run_escaped (s : string) :
  forall (cur : string) (fields : list string) (rows : list (list string)),
    csv_run (replaceAll_dquote s) (mkReader InQuotes cur fields rows)
    = Some (mkReader InQuotes (cur ++ s) fields rows).
Proof.
  induction s as [ | c s IH ]; intros cur fields rows.
  - cbn [replaceAll_dquote csv_run]. rewrite append_nil_r. reflexivity.
  - cbn [replaceAll_dquote].
    destruct (Ascii.eqb c dquote) eqn:Hc.
    + apply Ascii.eqb_eq in Hc. subst c.
      cbn [csv_run csv_step csv_mode csv_cur csv_fields csv_rows].
      rewrite Ascii.eqb_refl.
      cbn [csv_step csv_mode csv_cur csv_fields csv_rows].
      rewrite Ascii.eqb_refl. rewrite IH, append_assoc. reflexivity.
    + cbn [csv_run csv_step csv_mode csv_cur csv_fields csv_rows].
      rewrite Hc, IH, append_assoc. reflexivity.
Qed.

Section CsvRoundTrip.

Variable toISOString : Z -> option string.
Variable Number_toString : float -> string.

Let text := Cell_to_string Number_toString.
Let quote := quote_cell Number_toString.

(** A quoted cell, read from the start of a field, leaves the reader after
    the closing quote with the text of the cell. *)
Lemma csv_run_cell (c : Cell) (cur : string) (fields : list string)
  (rows : list (list string)) :
  csv_run (quote c) (mkReader AtField cur fields rows)
  = Some (mkReader AfterQuote (text c) fields rows).
Proof.
  unfold quote, quote_cell.
  cbn [csv_run csv_step csv_mode csv_fields csv_rows].
  rewrite Ascii.eqb_refl, csv_run_app, csv_run_escaped.
  cbn [csv_run csv_step csv_mode csv_cur csv_fields csv_rows append].
  rewrite Ascii.eqb_refl. reflexivity.
Qed.

(** A line of cells leaves the reader after its last cell, the other
    cells added to the fields of the row. *)
Lemma csv_run_line (cells : list Cell) :
  forall (c : Cell) (cur : string) (fields : list string)
         (rows : list (list string)),
  exists cur' fields',
    csv_run (String.concat "," (map quote (c :: cells)))
            (mkReader AtField cur fields rows)
    = Some (mkReader AfterQuote cur' fields' rows)
    /\ fields' ++ [cur'] = fields ++ map text (c :: cells).
Proof.
  induction cells as [ | c' cells IH ]; intros c cur fields rows.
  - exists (text c), fields. split; [ | reflexivity ].
    cbn [map String.concat]. apply csv_run_cell.
  - destruct (IH c' EmptyString (fields ++ [text c]) rows)
      as (cur' & fields' & Hrun & Hf).
    exists cur', fields'. split.
    + change (String.concat "," (map quote (c :: c' :: cells)))
        with (quote c ++ "," ++ String.concat "," (map quote (c' :: cells)))%string.
      rewrite csv_run_app, csv_run_cell.
      cbn [append csv_run csv_step csv_mode csv_cur csv_fields csv_rows].
      change (Ascii.eqb "," dquote) with false. cbn iota.
      rewrite Ascii.eqb_refl. exact Hrun.
    + rewrite Hf, <- app_assoc. reflexivity.
Qed.

(** The lines of a text leave the reader after the last cell of the last
    line, the earlier lines added to the rows. *)
Lemma csv_run_lines (lines : list (list Cell)) :
  forall (line : list Cell) (cur : string) (rows : list (list string)),
    line <> [] -> Forall (fun l => l <> []) lines ->
    exists cur' fields' rows',
      csv_run (String.concat newline
                 (map (fun row => String.concat "," (map quote row))
                      (line :: lines)))
              (mkReader AtField cur [] rows)
      = Some (mkReader AfterQuote cur' fields' rows')
      /\ rows' ++ [fields' ++ [cur']] = rows ++ map (map text) (line :: lines).
Proof.
  induction lines as [ | line' lines IH ]; intros line cur rows Hne Hall.
  - destruct line as [ | c cells ]; [ congruence | ].
    destruct (csv_run_line cells c cur [] rows) as (cur' & fields' & Hrun & Hf).
    exists cur', fields', rows. split; [ exact Hrun | ].
    rewrite Hf. reflexivity.
  - destruct line as [ | c cells ]; [ congruence | ].
    inversion Hall as [ | ? ? Hne' Hall' ]; subst.
    destruct (csv_run_line cells c cur [] rows) as (cur1 & fields1 & Hrun1 & Hf1).
    destruct (IH line' EmptyString (rows ++ [fields1 ++ [cur1]]) Hne' Hall')
      as (cur' & fields' & rows' & Hrun & Hr).
    exists cur', fields', rows'. split.
    + change (String.concat newline
                (map (fun row => String.concat "," (map quote row))
                     ((c :: cells) :: line' :: lines)))
        with (String.concat "," (map quote (c :: cells)) ++ newline
              ++ String.concat newline
                   (map (fun row => String.concat "," (map quote row))
                        (line' :: lines)))%string.
      rewrite csv_run_app, Hrun1.
      unfold newline at 1.
      cbn [append csv_run csv_step csv_mode csv_cur csv_fields csv_rows].
      change (Ascii.eqb "010" dquote) with false.
      change (Ascii.eqb "010" ",") with false. cbn iota.
      rewrite Ascii.eqb_refl. exact Hrun.
    + rewrite Hr, Hf1, <- app_assoc. reflexivity.
Qed.

Lemma map_rows_cells (rows : list SavedRoll.t) :
  forall data, map_rows toISOString rows = Some data ->
  Forall2 (fun r cells => row_cells toISOString r = Some cells) rows data.
Proof.
  induction rows as [ | r rows IH ]; intros data Hm.
  - cbn in Hm. injection Hm as <-. constructor.
  - cbn [map_rows] in Hm.
    destruct (row_cells toISOString r) as [cells | ] eqn:Hr; [ | discriminate ].
    destruct (map_rows toISOString rows) as [rest | ]; [ | discriminate ].
    injection Hm as <-. constructor; [ exact Hr | apply IH; reflexivity ].
Qed.

Lemma row_cells_nonempty (r : SavedRoll.t) (cells : list Cell) :
  row_cells toISOString r = Some cells -> cells <> [].
Proof.
  unfold row_cells. destruct (toISOString (SavedRoll.savedAt r));
    [ | discriminate ].
  intros Heq. injection Heq as <-. discriminate.
Qed.

Lemma data_nonempty (rows : list SavedRoll.t) (data : list (list Cell)) :
  Forall2 (fun r cells => row_cells toISOString r = Some cells) rows data ->
  Forall (fun l : list Cell => l <> []) data.
Proof.
  intros Hcells. induction Hcells as [ | r cells rs ds Hr _ IH ]; constructor.
  - exact (row_cells_nonempty r cells Hr).
  - exact IH.
Qed.

(** The export reads back: a reader of quoted CSV finds in the text the
    header and then, for each roll in the order of the history, the ten
    texts of its cells, whatever commas, double quotes and line feeds the
    names contain. *)
Theorem toCSV_read_back (rows : list SavedRoll.t) (csv : string) :
  toCSV toISOString Number_toString rows = Some csv ->
  exists data,
    Forall2 (fun r cells => row_cells toISOString r = Some cells) rows data
    /\ read_csv csv = Some (map (map text) (header :: data)).
Proof.
  unfold toCSV.
  destruct (map_rows toISOString rows) as [data | ] eqn:Hm; [ | discriminate ].
  remember (String.concat newline
              (map (fun row => String.concat "," (map quote row))
                   (header :: data))) as doc eqn:Hdoc.
  unfold quote in Hdoc. rewrite <- Hdoc.
  intros Heq. injection Heq as <-.
  pose proof (map_rows_cells rows data Hm) as Hcells.
  exists data. split; [ exact Hcells | ].
  pose proof (data_nonempty rows data Hcells) as Hall.
  destruct (csv_run_lines data header EmptyString [])
    as (cur' & fields' & rows' & Hrun & Hr);
    [ discriminate | exact Hall | ].
  unfold read_csv. unfold quote in Hrun. rewrite Hdoc, Hrun.
  cbn [csv_mode csv_rows csv_fields csv_cur]. rewrite Hr. reflexivity.
Qed.

(** The export throws exactly when the time of some roll is not a date
    that [toISOString] can write. *)
Theorem toCSV_throws_iff (rows : list SavedRoll.t) :
  toCSV toISOString Number_toString rows = None <->
  exists r, List.In r rows /\ toISOString (SavedRoll.savedAt r) = None.
Proof.
  unfold toCSV.
  assert (Hm : map_rows toISOString rows = None <->
               exists r, List.In r rows
                         /\ toISOString (SavedRoll.savedAt r) = None).
  { induction rows as [ | r rows IH ].
    - cbn. split; [ discriminate | intros (r & [] & _) ].
    - cbn [map_rows]. unfold row_cells at 1.
      destruct (toISOString (SavedRoll.savedAt r)) eqn:Hr.
      + destruct (map_rows toISOString rows) eqn:Hrest.
        * split; [ discriminate | ].
          intros (r' & [<- | Hin] & Hn); [ congruence | ].
          assert (Hnone : Some l = None)
            by (apply IH; exists r'; split; assumption).
          discriminate.
        * split; [ intros _ | reflexivity ].
          destruct (proj1 IH eq_refl) as (r' & Hin & Hn).
          exists r'. split; [ right; exact Hin | exact Hn ].
      + split; [ intros _ | reflexivity ].
        exists r. split; [ left; reflexivity | exact Hr ]. }
  destruct (map_rows toISOString rows); [ | tauto ].
  split; [ discriminate | ].
  intros Hex. apply Hm in Hex. discriminate.
Qed.

End CsvRoundTrip.

Lemma toCSV_read_back_witness :
  let iso := fun _ : Z => Some "1970-01-01T00:00:01.000Z"%string in
  let num := fun _ : float => "6"%string in
  let r := SavedRoll.mk (String dquote "3M" ++ String dquote ", gloss")%string
                        In 6 3 0.003 1000 7068.58 589.05 179.54 196.35 in
  exists csv data,
    toCSV iso num [r] = Some csv
    /\ Forall2 (fun r cells => row_cells iso r = Some cells) [r] data
    /\ read_csv csv = Some (map (map (Cell_to_string num)) (header :: data)).
Proof.
  intros iso num r.
  assert (Hc : exists csv, toCSV iso num [r] = Some csv)
    by (eexists; reflexivity).
  destruct Hc as (csv & Hc).
  destruct (toCSV_read_back iso num [r] csv Hc) as (data & Hd & Hread).
  exists csv, data. split; [ exact Hc | ]. split; [ exact Hd | exact Hread ].
Defined.

(** ** Switching the unit and loading a saved roll *)

Lemma Unit_eqb_refl (u : Unit) : Unit_eqb u u = true.
Proof. destruct u; reflexivity. Qed.

Lemma Unit_eqb_eq (u v : Unit) : Unit_eqb u v = true <-> u = v.
Proof. destruct u, v; split; intros H; try reflexivity; discriminate. Qed.

Lemma Leibniz_eqb_refl (x : float) : PrimFloat.Leibniz.eqb x x = true.
Proof. apply FloatAxioms.Leibniz.eqb_spec. reflexivity. Qed.

Lemma commit_same (a : App.t) : commit a a = a.
Proof. unfold commit. rewrite Leibniz_eqb_refl. reflexivity. Qed.

Lemma commit_fields (before after : App.t) :
  App.unit (commit before after) = App.unit after
  /\ App.od (commit before after) = App.od after
  /\ App.id (commit before after) = App.id after
  /\ App.thickness (commit before after) = App.thickness after
  /\ App.showPresetModal (commit before after) = App.showPresetModal after
  /\ App.presets (commit before after) = App.presets after
  /\ App.savedRolls (commit before after) = App.savedRolls after.
Proof.
  unfold commit.
  destruct (PrimFloat.Leibniz.eqb _ _); repeat split; reflexivity.
Qed.

(** A click on the button of the unit already shown changes nothing, and
    a click on the other button always ends in that unit: clicking a unit
    button twice does what clicking it once does.  The presets and the
    history are never touched. *)
Theorem toggleUnit_idempotent (u : Unit) (a : App.t) :
  toggleUnit (App.unit a) a = a
  /\ App.unit (toggleUnit u a) = u
  /\ toggleUnit u (toggleUnit u a) = toggleUnit u a
  /\ App.presets (toggleUnit u a) = App.presets a
  /\ App.savedRolls (toggleUnit u a) = App.savedRolls a.
Proof.
  assert (Hsame : forall b, toggleUnit (App.unit b) b = b).
  { intros b. unfold toggleUnit, toggleUnit_calls.
    rewrite Unit_eqb_refl. apply commit_same. }
  assert (Hunit : App.unit (toggleUnit u a) = u).
  { unfold toggleUnit. rewrite (proj1 (commit_fields _ _)).
    unfold toggleUnit_calls.
    destruct (Unit_eqb u (App.unit a)) eqn:Hu.
    - apply Unit_eqb_eq in Hu. symmetry. exact Hu.
    - destruct (Unit_eqb u Mm); reflexivity. }
  split; [ apply Hsame | ]. split; [ exact Hunit | ].
  split; [ rewrite <- Hunit at 1; apply Hsame | ].
  unfold toggleUnit.
  destruct (commit_fields a (toggleUnit_calls u a a))
    as (_ & _ & _ & _ & _ & -> & ->).
  unfold toggleUnit_calls.
  destruct (Unit_eqb u (App.unit a)); [ split; reflexivity | ].
  destruct (Unit_eqb u Mm); split; reflexivity.
Qed.

(** Switching the unit rounds the diameters to three decimals, so it can
    turn a Valid roll into an Invalid one: two diameters that differ in
    inches can be the same number of millimetres. *)
Lemma toggleUnit_can_invalidate :
  exists a li lf ly lm,
    App_calc a = Valid li lf ly lm
    /\ App_calc (toggleUnit Mm a) = Invalid invalid_message.
Proof.
  exists (App.mk In 1.00001 1 0.003 false [] [] []).
  do 4 eexists. split; vm_compute; reflexivity.
Qed.

(** The Use button of a row puts the unit, the two diameters and the
    thickness of that roll in the fields exactly as they were saved,
    whatever the fields held and whatever the unit was, so that the result
    shown is that of the saved sizes; the history and the presets stay. *)
Theorem useRoll_restores (r : SavedRoll.t) (a : App.t) :
  App.unit (useRoll r a) = SavedRoll.unit r
  /\ App.od (useRoll r a) = SavedRoll.od r
  /\ App.id (useRoll r a) = SavedRoll.id r
  /\ App.thickness (useRoll r a) = SavedRoll.thickness r
  /\ App_calc (useRoll r a)
     = calc (SavedRoll.od r) (SavedRoll.id r) (SavedRoll.thickness r)
            (SavedRoll.unit r)
  /\ App.savedRolls (useRoll r a) = App.savedRolls a
  /\ App.presets (useRoll r a) = App.presets a.
Proof.
  assert (Hdraft :
    forall draft,
      draft = (if negb (Unit_eqb (App.unit a) (SavedRoll.unit r))
               then toggleUnit_calls (SavedRoll.unit r) a a else a) ->
      App.unit draft = SavedRoll.unit r
      /\ App.presets draft = App.presets a
      /\ App.savedRolls draft = App.savedRolls a).
  { intros draft ->. unfold toggleUnit_calls.
    destruct (Unit_eqb (App.unit a) (SavedRoll.unit r)) eqn:Hu; cbn [negb].
    - apply Unit_eqb_eq in Hu. repeat split. exact Hu.
    - destruct (Unit_eqb (SavedRoll.unit r) (App.unit a)) eqn:Hu'.
      + apply Unit_eqb_eq in Hu'. rewrite Hu', Unit_eqb_refl in Hu.
        discriminate.
      + destruct (Unit_eqb (SavedRoll.unit r) Mm); repeat split. }
  destruct (Hdraft _ eq_refl) as (Hu & Hp & Hs).
  unfold App_calc, useRoll. cbv zeta.
  match goal with
  | |- context [commit a ?after] =>
      destruct (commit_fields a after) as (-> & -> & -> & -> & _ & -> & ->)
  end.
  cbn [App.unit App.od App.id App.thickness App.presets App.savedRolls
       pending_thickness setId setOd].
  rewrite Hu, Hp, Hs. repeat split.
Qed.

(** ** Names of saved rolls, and presets added and removed *)

(** A roll saved with no name, or with a name of white space only, is
    named after its rank: Roll n+1 when the history holds n rolls. *)
Theorem saveRoll_default_name (name : option string) (now : Z) (a : App.t)
  (lengthIn lengthFt lengthYd lengthM : float) :
  App_calc a = Valid lengthIn lengthFt lengthYd lengthM ->
  (name = None \/ exists s, name = Some s /\ blank s) ->
  exists entry,
    App.savedRolls (saveRoll name now a) = entry :: App.savedRolls a
    /\ SavedRoll.name entry
       = ("Roll " ++ nat_to_string (List.length (App.savedRolls a) + 1))%string.
Proof.
  intros Hc Hname. unfold saveRoll. rewrite Hc.
  eexists. split; [ reflexivity | ].
  cbn [SavedRoll.name].
  destruct Hname as [-> | (s & -> & Hs)].
  - reflexivity.
  - rewrite trim_blank by exact Hs. reflexivity.
Qed.

Lemma saveRoll_default_name_witness :
  let name := (utf8 [194; 160]%nat ++ " " ++ utf8 [226; 128; 137]%nat)%string in
  exists li lf ly lm entry,
    App_calc (with_rolls [roll_A] app0) = Valid li lf ly lm
    /\ blank name
    /\ App.savedRolls (saveRoll (Some name) 2000 (with_rolls [roll_A] app0))
       = [entry; roll_A]
    /\ SavedRoll.name entry = "Roll 2"%string.
Proof.
  intros name.
  assert (Hb : blank name).
  { unfold name.
    apply (blank_cons (utf8 [194; 160]%nat)); [ unfold white_space; cbn; tauto | ].
    apply (blank_cons " "); [ unfold white_space; cbn; tauto | ].
    apply (blank_cons (utf8 [226; 128; 137]%nat) "");
      [ unfold white_space; cbn; tauto | ].
    apply blank_nil. }
  assert (Hc : exists li lf ly lm,
             App_calc (with_rolls [roll_A] app0) = Valid li lf ly lm)
    by (do 4 eexists; vm_compute; reflexivity).
  destruct Hc as (li & lf & ly & lm & Hc).
  destruct (saveRoll_default_name (Some name) 2000
              (with_rolls [roll_A] app0) li lf ly lm Hc)
    as (entry & Hs & Hn).
  { right. exists name. split; [ reflexivity | exact Hb ]. }
  exists li, lf, ly, lm, entry.
  split; [ exact Hc | ]. split; [ exact Hb | ].
  split; [ exact Hs | exact Hn ].
Defined.

(** The other copy does not trim: there a name of white space is kept. *)
Lemma Part002_saveRoll_blank_name :
  exists entry,
    App.savedRolls (Part002.saveRoll (Some "  "%string) 2000 app0) = [entry]
    /\ SavedRoll.name entry = "  "%string.
Proof. eexists. split; vm_compute; reflexivity. Qed.

(** A preset that is added is first in the list, so removing position 0
    right after gives the list back. *)
Theorem removePreset_addPreset (fmt : float -> nat -> string) (name : string)
  (tValue : float) (a : App.t) :
  (0 <? toInches tValue (App.unit a)) = true ->
  App.presets (removePreset 0 (addPreset fmt name tValue a)) = App.presets a.
Proof.
  intros Hpos. unfold addPreset. cbv zeta.
  rewrite addPreset_guard, Hpos. cbn [negb].
  unfold removePreset, setPresets, store_set. cbn [App.presets].
  rewrite filter_index_drop. reflexivity.
Qed.

Lemma removePreset_addPreset_witness :
  (0 <? toInches 0.1 (App.unit (setUnit Mm app0))) = true
  /\ App.presets
       (removePreset 0
          (addPreset (fun _ _ => "0.1"%string) "" 0.1 (setUnit Mm app0)))
     = App.presets (setUnit Mm app0).
Proof.
  split; [ reflexivity | ].
  apply (removePreset_addPreset (fun _ _ => "0.1"%string) "" 0.1
           (setUnit Mm app0)).
  reflexivity.
Defined.

(** ** What every session keeps *)

Lemma toggleUnit_calls_frame (u : Unit) (a draft : App.t) :
  App.presets (toggleUnit_calls u a draft) = App.presets draft
  /\ App.savedRolls (toggleUnit_calls u a draft) = App.savedRolls draft
  /\ App.stored (toggleUnit_calls u a draft) = App.stored draft.
Proof.
  unfold toggleUnit_calls.
  destruct (Unit_eqb u (App.unit a)); [ repeat split | ].
  destruct (Unit_eqb u Mm); repeat split.
Qed.

Lemma useRoll_frame (r : SavedRoll.t) (a : App.t) :
  exists after,
    useRoll r a = commit a after
    /\ App.presets after = App.presets a
    /\ App.savedRolls after = App.savedRolls a
    /\ App.stored after = App.stored a.
Proof.
  unfold useRoll. cbv zeta. eexists. split; [ reflexivity | ].
  cbn [App.presets App.savedRolls App.stored pending_thickness setId setOd].
  destruct (negb (Unit_eqb (App.unit a) (SavedRoll.unit r)));
    [ apply toggleUnit_calls_frame | repeat split ].
Qed.

(** *** The storage follows the memory *)

Lemma in_sync_commit (before after : App.t) :
  in_sync before ->
  App.presets after = App.presets before ->
  App.savedRolls after = App.savedRolls before ->
  App.stored after = App.stored before ->
  in_sync (commit before after).
Proof.
  intros (Hr & Hp & Ht) Hpe Hse Hst. unfold commit.
  destruct (PrimFloat.Leibniz.eqb (App.thickness after) (App.thickness before))
    eqn:Heq.
  - apply FloatAxioms.Leibniz.eqb_spec in Heq.
    unfold in_sync. rewrite Hst, Hse, Hpe, Heq. repeat split; assumption.
  - unfold in_sync, store_set.
    cbn [App.stored App.savedRolls App.presets App.thickness last_write].
    rewrite Hst, Hse, Hpe. cbn. repeat split; assumption.
Qed.

Lemma in_sync_setSavedRolls (f : list SavedRoll.t -> list SavedRoll.t)
  (a : App.t) : in_sync a -> in_sync (setSavedRolls f a).
Proof.
  intros (Hr & Hp & Ht). unfold in_sync, setSavedRolls, store_set.
  cbn [App.stored App.savedRolls App.presets App.thickness last_write].
  cbn. repeat split; assumption.
Qed.

Lemma in_sync_setPresets (f : list ThicknessPreset.t -> list ThicknessPreset.t)
  (a : App.t) : in_sync a -> in_sync (setPresets f a).
Proof.
  intros (Hr & Hp & Ht). unfold in_sync, setPresets, store_set.
  cbn [App.stored App.savedRolls App.presets App.thickness last_write].
  cbn. repeat split; assumption.
Qed.

Lemma in_sync_setThickness (v : float) (a : App.t) :
  in_sync a -> in_sync (setThickness v a).
Proof.
  intros Ha. unfold setThickness.
  destruct (PrimFloat.Leibniz.eqb v (App.thickness a)); [ exact Ha | ].
  destruct Ha as (Hr & Hp & Ht). unfold in_sync, store_set.
  cbn [App.stored App.savedRolls App.presets App.thickness last_write].
  cbn. repeat split; assumption.
Qed.

Lemma in_sync_step (fmt : float -> nat -> string) (act : Action) (a : App.t) :
  in_sync a -> in_sync (step fmt act a).
Proof.
  intros Ha. destruct act; cbn [step].
  - exact Ha.
  - exact Ha.
  - apply in_sync_setThickness, Ha.
  - unfold toggleUnit.
    destruct (toggleUnit_calls_frame nextUnit a a) as (Hp & Hs & Hst).
    apply in_sync_commit; assumption.
  - exact Ha.
  - unfold applyPreset. cbv zeta.
    match goal with
    | |- in_sync (setShowPresetModal _ (setThickness ?v _)) =>
        exact (in_sync_setThickness v a Ha)
    end.
  - unfold addPreset. cbv zeta.
    destruct (F64.falsy _ || _); [ exact Ha | apply in_sync_setPresets, Ha ].
  - apply in_sync_setPresets, Ha.
  - unfold saveRoll. destruct (App_calc a); [ exact Ha | ].
    apply in_sync_setSavedRolls, Ha.
  - apply in_sync_setSavedRolls, Ha.
  - destruct (useRoll_frame r a) as (after & -> & Hp & Hs & Hst).
    apply in_sync_commit; assumption.
  - apply in_sync_setSavedRolls, Ha.
Qed.

Lemma in_sync_mount (a : App.t) : in_sync (mount a).
Proof. unfold in_sync, mount, store_set. cbn. repeat split. Qed.

(** From the first render on, whatever the user does, the last value
    written under the key of the history, of the presets and of the
    thickness is the value the component holds. *)
Theorem session_in_sync (fmt : float -> nat -> string) (acts : list Action)
  (a : App.t) :
  in_sync (run fmt acts (mount a)).
Proof.
  unfold run.
  generalize (in_sync_mount a). generalize (mount a). clear a.
  induction acts as [ | act acts IH ]; intros a Ha; [ exact Ha | ].
  cbn [fold_left]. apply IH, in_sync_step, Ha.
Qed.

(** *** The presets stay above zero *)

Lemma commit_presets (before after : App.t) :
  App.presets (commit before after) = App.presets after.
Proof. unfold commit. destruct (PrimFloat.Leibniz.eqb _ _); reflexivity. Qed.

Lemma commit_savedRolls (before after : App.t) :
  App.savedRolls (commit before after) = App.savedRolls after.
Proof. unfold commit. destruct (PrimFloat.Leibniz.eqb _ _); reflexivity. Qed.

Lemma setThickness_presets (v : float) (a : App.t) :
  App.presets (setThickness v a) = App.presets a.
Proof. unfold setThickness. destruct (PrimFloat.Leibniz.eqb _ _); reflexivity. Qed.

Lemma setThickness_savedRolls (v : float) (a : App.t) :
  App.savedRolls (setThickness v a) = App.savedRolls a.
Proof. unfold setThickness. destruct (PrimFloat.Leibniz.eqb _ _); reflexivity. Qed.

Lemma Forall_filter_from {A : Type} (P : A -> Prop) (f : A -> nat -> bool)
  (l : list A) : forall i, Forall P l -> Forall P (filter_from f i l).
Proof.
  induction l as [ | x l IH ]; intros i Hl; [ constructor | ].
  inversion Hl as [ | ? ? Hx Hl' ]; subst. cbn [filter_from].
  destruct (f x i); [ constructor; [ exact Hx | ] | ]; apply IH, Hl'.
Qed.

Lemma presets_positive_step (fmt : float -> nat -> string) (act : Action)
  (a : App.t) :
  presets_positive (App.presets a) ->
  presets_positive (App.presets (step fmt act a)).
Proof.
  intros Ha. destruct act; cbn [step].
  - exact Ha.
  - exact Ha.
  - rewrite setThickness_presets. exact Ha.
  - unfold toggleUnit. rewrite commit_presets.
    rewrite (proj1 (toggleUnit_calls_frame nextUnit a a)). exact Ha.
  - exact Ha.
  - unfold applyPreset. cbv zeta.
    change (presets_positive (App.presets (setThickness
              (round (if Unit_eqb (App.unit a) Mm
                      then ThicknessPreset.thicknessIn p * MM_PER_IN
                      else ThicknessPreset.thicknessIn p)
                     (if Unit_eqb (App.unit a) Mm then 3 else 5)) a))).
    rewrite setThickness_presets. exact Ha.
  - unfold addPreset. cbv zeta. rewrite addPreset_guard.
    destruct (0 <? toInches tValue (App.unit a)) eqn:Hpos; cbn [negb];
      [ | exact Ha ].
    unfold setPresets, store_set. cbn [App.presets].
    constructor; [ exact Hpos | exact Ha ].
  - unfold removePreset, setPresets, store_set. cbn [App.presets].
    apply Forall_filter_from, Ha.
  - unfold saveRoll. destruct (App_calc a); exact Ha.
  - exact Ha.
  - destruct (useRoll_frame r a) as (after & -> & Hp & _).
    rewrite commit_presets, Hp. exact Ha.
  - exact Ha.
Qed.

(** When every preset has a thickness above zero, as the built-in ones
    have, every preset has at every later moment of the session: none that
    is zero, negative or [NaN] is ever in the list. *)
Theorem session_presets_positive (fmt : float -> nat -> string)
  (acts : list Action) (a : App.t) :
  presets_positive (App.presets a) ->
  presets_positive (App.presets (run fmt acts a)).
Proof.
  unfold run. revert a.
  induction acts as [ | act acts IH ]; intros a Ha; [ exact Ha | ].
  cbn [fold_left]. apply IH, presets_positive_step, Ha.
Qed.

Lemma DEFAULT_PRESETS_positive : presets_positive DEFAULT_PRESETS.
Proof. repeat constructor. Qed.

Lemma session_presets_positive_witness :
  let fmt := fun (_ : float) (_ : nat) => "x"%string in
  let acts := [AddPreset "thin" 0.001; AddPreset "none" 0; RemovePreset 2;
               AddPreset "bad" nan; ToggleUnit Mm; AddPreset "" (-1)] in
  presets_positive (App.presets app0)
  /\ presets_positive (App.presets (run fmt acts app0)).
Proof.
  intros fmt acts.
  split; [ exact DEFAULT_PRESETS_positive | ].
  exact (session_presets_positive fmt acts app0 DEFAULT_PRESETS_positive).
Defined.

(** *** The history stays most recent first *)

Lemma Forall_filter_kept {A : Type} (P : A -> Prop) (p : A -> bool)
  (l : list A) : Forall P l -> Forall P (filter p l).
Proof.
  induction l as [ | x l IH ]; intros Hl; [ constructor | ].
  inversion Hl as [ | ? ? Hx Hl' ]; subst. cbn [filter].
  destruct (p x); [ constructor; [ exact Hx | ] | ]; apply IH, Hl'.
Qed.

Lemma StronglySorted_filter {A : Type} (R : A -> A -> Prop) (p : A -> bool)
  (l : list A) : StronglySorted R l -> StronglySorted R (filter p l).
Proof.
  induction l as [ | x l IH ]; intros Hl; [ constructor | ].
  apply StronglySorted_inv in Hl. destruct Hl as [Hl Hx]. cbn [filter].
  destruct (p x); [ constructor | ]; try apply IH; try exact Hl.
  apply Forall_filter_kept, Hx.
Qed.

Lemma recent_first_step (fmt : float -> nat -> string) (act : Action)
  (a : App.t) :
  recent_first (App.savedRolls a) ->
  match act with
  | SaveRoll _ now => not_after now (App.savedRolls a)
  | _ => True
  end ->
  recent_first (App.savedRolls (step fmt act a)).
Proof.
  intros Ha Hnow. destruct act; cbn [step].
  - exact Ha.
  - exact Ha.
  - rewrite setThickness_savedRolls. exact Ha.
  - unfold toggleUnit. rewrite commit_savedRolls.
    rewrite (proj1 (proj2 (toggleUnit_calls_frame nextUnit a a))). exact Ha.
  - exact Ha.
  - unfold applyPreset. cbv zeta.
    change (recent_first (App.savedRolls (setThickness
              (round (if Unit_eqb (App.unit a) Mm
                      then ThicknessPreset.thicknessIn p * MM_PER_IN
                      else ThicknessPreset.thicknessIn p)
                     (if Unit_eqb (App.unit a) Mm then 3 else 5)) a))).
    rewrite setThickness_savedRolls. exact Ha.
  - unfold addPreset. cbv zeta. destruct (F64.falsy _ || _); exact Ha.
  - exact Ha.
  - unfold saveRoll. destruct (App_calc a); [ exact Ha | ].
    unfold setSavedRolls, store_set. cbn [App.savedRolls].
    constructor; [ exact Ha | exact Hnow ].
  - unfold deleteRoll, setSavedRolls, store_set. cbn [App.savedRolls].
    apply StronglySorted_filter, Ha.
  - destruct (useRoll_frame r a) as (after & -> & _ & Hs & _).
    rewrite commit_savedRolls, Hs. exact Ha.
  - constructor.
Qed.

(** A history that is most recent first stays so through the session, as
    long as no roll is saved at a time before the rolls already there:
    saving puts the new roll first, deleting and clearing keep the order,
    and nothing else touches the history. *)
Theorem session_recent_first (fmt : float -> nat -> string)
  (acts : list Action) (a : App.t) :
  recent_first (App.savedRolls a) ->
  timely fmt acts a ->
  recent_first (App.savedRolls (run fmt acts a)).
Proof.
  unfold run. revert a.
  induction acts as [ | act acts IH ]; intros a Ha Ht; [ exact Ha | ].
  cbn [fold_left]. cbn [timely] in Ht. destruct Ht as [Hnow Ht].
  apply IH; [ apply recent_first_step; assumption | exact Ht ].
Qed.

Lemma session_recent_first_witness :
  let fmt := fun (_ : float) (_ : nat) => "x"%string in
  let acts := [SaveRoll None 1000; TypeOd 8; SaveRoll (Some "b"%string) 1000;
               SaveRoll None 1500; DeleteRoll roll_A; ToggleUnit Mm] in
  recent_first (App.savedRolls app0)
  /\ timely fmt acts app0
  /\ recent_first (App.savedRolls (run fmt acts app0)).
Proof.
  intros fmt acts.
  assert (H0 : recent_first (App.savedRolls app0)) by constructor.
  assert (Ht : timely fmt acts app0).
  { cbn [timely acts]. repeat split; vm_compute;
      repeat (constructor; try discriminate). }
  split; [ exact H0 | ]. split; [ exact Ht | ].
  exact (session_recent_first fmt acts app0 H0 Ht).
Defined.

(** ** The first render *)

Section InitialProperties.

Variable parse_unit : string -> option Unit.
Variable parse_number : string -> option float.
Variable parse_number_or_null : string -> option (option float).
Variable parse_presets : string -> option (list ThicknessPreset.t).
Variable parse_rolls : string -> option (list SavedRoll.t).

Let init :=
  initial parse_unit parse_number parse_number_or_null parse_presets
          parse_rolls.

Lemma store_get_unusable {T : Type} (parse : string -> option T)
  (key : string) (fallback : T) (h : store.Host) :
  (store.has_window h = false \/ store.denied h = true
   \/ forall k, store.items h k = None) ->
  store.get parse key fallback h = fallback.
Proof.
  intros [Hw | [Hd | Hk]]; unfold store.get.
  - rewrite Hw. reflexivity.
  - rewrite Hd. destruct (store.has_window h); reflexivity.
  - rewrite Hk. destruct (store.has_window h), (store.denied h); reflexivity.
Qed.

(** Without a usable storage (no window, storage denied, or nothing
    stored) the component starts on its defaults: inches, the 6 in roll on
    the 85 mm core, 0.003 in thick, the built-in presets, no history; and
    the result it shows is Valid. *)
Theorem initial_without_storage (h : store.Host) :
  (store.has_window h = false \/ store.denied h = true
   \/ forall k, store.items h k = None) ->
  init h = app0
  /\ exists a b c d, App_calc (init h) = Valid a b c d.
Proof.
  intros Hh.
  assert (Hi : init h = app0).
  { unfold init, initial. cbv zeta.
    rewrite !(store_get_unusable _ _ _ h Hh). reflexivity. }
  split; [ exact Hi | ]. rewrite Hi.
  do 4 eexists. vm_compute. reflexivity.
Qed.

(** When the unit is the only thing the storage holds, and it is mm, the
    core and the thickness start on their millimetre defaults but the OD
    starts on 6 all the same: a 6 mm roll on an 85 mm core, which the
    component shows as Invalid. *)
Theorem initial_unit_only_mm (h : store.Host) (raw : string) :
  store.has_window h = true -> store.denied h = false ->
  store.items h "vinylCalc.unit" = Some raw ->
  raw <> EmptyString -> parse_unit raw = Some Mm ->
  (forall k, k <> "vinylCalc.unit"%string -> store.items h k = None) ->
  App.unit (init h) = Mm /\ App.od (init h) = 6 /\ App.id (init h) = 85
  /\ App.thickness (init h) = 0.076
  /\ App_calc (init h) = Invalid invalid_message.
Proof.
  intros Hw Hd Hu Hne Hp Hk.
  assert (Hunit : store.get parse_unit "vinylCalc.unit" In h = Mm).
  { unfold store.get. rewrite Hw, Hd, Hu, Hp. cbn.
    destruct raw; [ congruence | reflexivity ]. }
  assert (Hnone : forall (T : Type) (parse : string -> option T) k fb,
             k <> "vinylCalc.unit"%string -> store.get parse k fb h = fb).
  { intros T parse k fb Hkk. unfold store.get.
    rewrite Hw, Hd, (Hk k Hkk). reflexivity. }
  assert (Hi : init h
               = App.mk Mm 6 85 0.076 false DEFAULT_PRESETS [] []).
  { unfold init, initial. cbv zeta. rewrite Hunit.
    rewrite !Hnone by discriminate. reflexivity. }
  rewrite Hi. repeat split.
Qed.

End InitialProperties.

Lemma initial_without_storage_witness :
  let server := store.mkHost false false (fun _ => None) (fun _ _ => false) in
  (store.has_window server = false \/ store.denied server = true
   \/ forall k, store.items server k = None)
  /\ initial Unit_parse (fun _ => None) (fun _ => None) (fun _ => None)
             (fun _ => None) server = app0.
Proof.
  intros server.
  assert (Hs : store.has_window server = false \/ store.denied server = true
               \/ forall k, store.items server k = None)
    by (left; reflexivity).
  split; [ exact Hs | ].
  exact (proj1 (initial_without_storage Unit_parse (fun _ => None)
                  (fun _ => None) (fun _ => None) (fun _ => None) server Hs)).
Defined.

Lemma initial_unit_only_mm_witness :
  let h := store.set Unit_stringify "vinylCalc.unit" Mm host0 in
  store.items h "vinylCalc.unit" = Some (Unit_stringify Mm)
  /\ Unit_parse (Unit_stringify Mm) = Some Mm
  /\ App_calc (initial Unit_parse (fun _ => None) (fun _ => None)
                 (fun _ => None) (fun _ => None) h)
     = Invalid invalid_message.
Proof.
  intros h.
  split; [ reflexivity | ]. split; [ reflexivity | ].
  refine (proj2 (proj2 (proj2 (proj2
            (initial_unit_only_mm Unit_parse (fun _ => None) (fun _ => None)
               (fun _ => None) (fun _ => None) h (Unit_stringify Mm)
               eq_refl eq_refl eq_refl _ eq_refl _))))).
  - discriminate.
  - intros k Hk. cbn. apply String.eqb_neq in Hk. rewrite Hk. reflexivity.
Defined.
